(** * actions-cache-gcs: a shallow embedding of the cache and tar modules

    The development follows the three TypeScript modules of the package:
    - [Tar]     : src/tar.ts, the archive command builder;
    - [Options] : src/options.ts, option objects shared with the caller;
    - [Cache]   : src/cache.ts, [saveCache], [restoreCache] and their helpers.

    JavaScript values the code manipulates are modelled in [Js]; everything the
    code asks of its host (environment, workflow context, file system,
    processes, the bucket) is read from a [World] of oracles, and every effect
    is recorded in a log. *)

From Stdlib Require Import ZArith String Ascii List Lia Bool.
From stdpp Require Import gmap strings list.
Import ListNotations.

Local Open Scope Z_scope.
Local Open Scope nat_scope.

(* ===================================================================== *)
(** ** JavaScript primitives *)
(* ===================================================================== *)

Module Js.

(** [s.replace(new RegExp("\\" + c, "g"), by)]: every occurrence of the
    character [c] is replaced. *)
Fixpoint replaceAll (c : ascii) (by_ : string) (s : string) : string :=
  match s with
  | EmptyString => EmptyString
  | String a rest =>
      if Ascii.eqb a c then by_ +:+ replaceAll c by_ rest
      else String a (replaceAll c by_ rest)
  end.

(** [xs.join(sep)] *)
Definition join (sep : string) (xs : list string) : string := String.concat sep xs.

(** [s.startsWith(p)] *)
Definition startsWith (s p : string) : bool := String.prefix p s.

(** [s.substring(n)] for [0 <= n]: the characters from index [n] on. *)
Fixpoint substring_from (n : nat) (s : string) : string :=
  match n, s with
  | O, _ => s
  | S n', EmptyString => EmptyString
  | S n', String _ rest => substring_from n' rest
  end.

(** [s.includes(p)] *)
Fixpoint includes (s p : string) : bool :=
  String.prefix p s ||
  match s with
  | EmptyString => false
  | String _ rest => includes rest p
  end.

Definition lower_ascii (a : ascii) : ascii :=
  let n := nat_of_ascii a in
  if (65 <=? n) && (n <=? 90) then ascii_of_nat (n + 32) else a.

(** [s.toLowerCase()] on the ASCII letters. *)
Fixpoint toLowerCase (s : string) : string :=
  match s with
  | EmptyString => EmptyString
  | String a rest => String (lower_ascii a) (toLowerCase rest)
  end.

Definition is_space (a : ascii) : bool :=
  let n := nat_of_ascii a in
  (n =? 32) || ((9 <=? n) && (n <=? 13)).

Fixpoint trimStart (s : string) : string :=
  match s with
  | String a rest => if is_space a then trimStart rest else s
  | EmptyString => EmptyString
  end.

Fixpoint rev_string (s acc : string) : string :=
  match s with
  | EmptyString => acc
  | String a rest => rev_string rest (String a acc)
  end.

(** [s.trim()] *)
Definition trim (s : string) : string :=
  rev_string (trimStart (rev_string (trimStart s) EmptyString)) EmptyString.

(** [!s] for [s : string | undefined]: undefined and the empty string are falsy. *)
Definition falsy (s : option string) : bool :=
  match s with
  | None => true
  | Some s => String.eqb s ""
  end.

(** A thrown value: an [Error] instance with its [name] and [message], or a
    bare string (as in [throw "not implemented"]). *)
Inductive Thrown : Type :=
| ErrorObj (name message : string)
| ThrownString (s : string).

(** [e.name] and [e.message], [undefined] on a string. *)
Definition error_name (e : Thrown) : option string :=
  match e with
  | ErrorObj n _ => Some n
  | ThrownString _ => None
  end.

Definition error_message (e : Thrown) : option string :=
  match e with
  | ErrorObj _ m => Some m
  | ThrownString _ => None
  end.

(** Template-literal conversion of [string | undefined]. *)
Definition show_undefined (s : option string) : string :=
  match s with
  | Some s => s
  | None => "undefined"
  end.

(** Template-literal conversion [`${e}`] ([Error.prototype.toString]). *)
Definition toString (e : Thrown) : string :=
  match e with
  | ThrownString s => s
  | ErrorObj n m =>
      if String.eqb n "" then m
      else if String.eqb m "" then n
      else n +:+ ": " +:+ m
  end.

(** The completion of a call: it returns a value or throws (for an async
    function: the promise is fulfilled or rejected). *)
Inductive Outcome (A : Type) : Type :=
| Return (a : A)
| Throw (e : Thrown).
Arguments Return {A} a.
Arguments Throw {A} e.

(** A [Date]: its time value in milliseconds, or an invalid date (NaN). *)
Inductive Date : Type :=
| DateMs (ms : Z)
| InvalidDate.

(** [a < b] on dates compares the time values; any comparison with NaN is false. *)
Definition Date_lt (a b : Date) : bool :=
  match a, b with
  | DateMs x, DateMs y => (x <? y)%Z
  | _, _ => false
  end.

End Js.
Export Js.

(* ===================================================================== *)
(** ** Errors (src/error.ts) *)
(* ===================================================================== *)

Definition ValidationError (message : string) : Thrown := ErrorObj "ValidationError" message.
Definition ConfigUnsetError (message : string) : Thrown := ErrorObj "ConfigUnsetError" message.
(** [new Error(message)] *)
Definition Error (message : string) : Thrown := ErrorObj "Error" message.
(** [ValidationError.name], the class name. *)
Definition ValidationError_name : string := "ValidationError".

(* ===================================================================== *)
(** ** The host: environment, libraries and remote store *)
(* ===================================================================== *)

(** utils.ts: [type CompressionMethod = "gzip" | "zstd"] *)
Inductive CompressionMethod : Type := gzip | zstd.

Definition method_string (m : CompressionMethod) : string :=
  match m with
  | gzip => "gzip"
  | zstd => "zstd"
  end.

(** A remote object as [bucket.getFiles] returns it: [file.name],
    [file.metadata.contentType] and [file.metadata.timeCreated]. *)
Record File : Type := mkFile {
  name : string;
  contentType : option string;
  timeCreated : option string
}.

(** What [exec] reports: the text handed to the stdout/stderr listeners and
    the completion of the returned promise (the exit code, or a rejection). *)
Record ExecResult : Type := mkExec {
  exec_output : string;
  exec_result : Outcome Z
}.

Record World : Type := mkWorld {
  platform : string;                       (* process.platform *)
  env : gmap string string;                (* process.env *)
  cwd : string;                            (* process.cwd() *)
  context_repo : Outcome string;           (* context.repo.repo, a getter that may throw *)
  randomUUID : string;                     (* crypto.randomUUID() *)
  path_join : list string -> string;       (* path.join *)
  path_relative : string -> string -> string;
  JSON_stringify : list string -> string;
  Date_parse : string -> option Z;         (* time value of new Date(s), None for NaN *)
  existsSync : string -> bool;
  which : string -> bool -> Outcome string; (* io.which(tool, check) *)
  exec : string -> list string -> ExecResult;
  mkdirP : string -> Outcome unit;
  writeFile : string -> string -> Outcome unit;
  rmRF : string -> Outcome unit;
  glob : string -> list string * option Thrown; (* files the globber yields, then a failure if any *)
  storage_bucket : option string -> Outcome string;            (* storage.bucket(name) *)
  bucket_getFiles : string -> string -> Outcome (list File);   (* bucket, prefix *)
  bucket_upload : string -> string -> string -> string -> Outcome unit;
  file_download : File -> string -> Outcome unit
}.

(** [path.sep] *)
Definition path_sep (w : World) : ascii :=
  if String.eqb (platform w) "win32" then "\"%char else "/"%char.

(** Option objects (options.ts): [{ bucket?: string, lookupOnly?: boolean }]. *)
Record OptionsObj : Type := mkOptions {
  bucket : option string;
  lookupOnly : option bool
}.

(** Observable effects, in program order. *)
Inductive Event : Type :=
| EvDebug (msg : string)
| EvWarning (msg : string)
| EvExec (commandLine : string) (args : list string)
| EvMkdirP (dir : string)
| EvWriteFile (file content : string)
| EvRmRF (target : string)
| EvGlob (patterns : string)
| EvGetFiles (bucketName prefix : string)
| EvUpload (bucketName archive destination contentType_ : string)
| EvDownload (object_name destination : string).

(** Calls that reach the remote store. *)
Definition is_network (e : Event) : bool :=
  match e with
  | EvGetFiles _ _ | EvUpload _ _ _ _ | EvDownload _ _ => true
  | _ => false
  end.

Definition is_rmRF (e : Event) : bool :=
  match e with
  | EvRmRF _ => true
  | _ => false
  end.

Definition is_warning (e : Event) : bool :=
  match e with
  | EvWarning _ => true
  | _ => false
  end.

(** The program state: the object heap shared with the caller, the effect
    log, and the rejections of promises nobody awaited. *)
Record State : Type := mkState {
  heap : gmap nat OptionsObj;
  log : list Event;
  unhandled : list Thrown
}.

(* ===================================================================== *)
(** ** A state-and-exception monad *)
(* ===================================================================== *)

Definition St (S A : Type) : Type := S -> Outcome A * S.
Abbreviation M := (St State).

Definition ret {S A} (a : A) : St S A := fun s => (Return a, s).
Definition throw {S A} (e : Thrown) : St S A := fun s => (Throw e, s).

Definition bind {S A B} (m : St S A) (k : A -> St S B) : St S B :=
  fun s =>
    match m s with
    | (Return a, s') => k a s'
    | (Throw e, s') => (Throw e, s')
    end.

Notation "'let*' x ':=' m 'in' k" := (bind m (fun x => k))
  (at level 10, x name, m at level 99, k at level 200).
Notation "'do' m ';;' k" := (bind m (fun _ => k))
  (at level 10, m at level 99, k at level 200).

(** [try { m } catch (e) { h e }] *)
Definition try_catch {S A} (m : St S A) (h : Thrown -> St S A) : St S A :=
  fun s =>
    match m s with
    | (Return a, s') => (Return a, s')
    | (Throw e, s') => h e s'
    end.

(** [try { m } finally { f }]: [f] runs on every exit of [m]; when [f]
    completes normally the completion of [m] stands. *)
Definition try_finally {S A} (m : St S A) (f : St S unit) : St S A :=
  fun s =>
    match m s with
    | (r, s') =>
        match f s' with
        | (Return _, s'') => (r, s'')
        | (Throw e, s'') => (Throw e, s'')
        end
    end.

(** An awaited promise whose completion the world decides. *)
Definition await {S A} (o : Outcome A) : St S A := fun s => (o, s).

Definition emit (e : Event) : M unit :=
  fun s => (Return tt, mkState (heap s) (log s ++ [e]) (unhandled s)).

(** A promise that is started and never awaited: a rejection is not thrown
    at the call site, it is left unhandled. *)
Definition floating {A} (o : Outcome A) : M unit :=
  fun s =>
    match o with
    | Return _ => (Return tt, s)
    | Throw e => (Return tt, mkState (heap s) (log s) (unhandled s ++ [e]))
    end.

(** A [let] variable of type [L] that a block and its handlers share. *)
Definition lift {L A} (m : M A) : St (L * State) A :=
  fun ls => match m (snd ls) with (r, s') => (r, (fst ls, s')) end.
Definition set_local {L} (v : L) : St (L * State) unit :=
  fun ls => (Return tt, (v, snd ls)).
Definition get_local {L} : St (L * State) L :=
  fun ls => (Return (fst ls), ls).
Definition with_local {L A} (init : L) (m : St (L * State) A) : M A :=
  fun s => match m (init, s) with (r, ls) => (r, snd ls) end.

Definition core_debug (msg : string) : M unit := emit (EvDebug msg).
Definition core_warning (msg : string) : M unit := emit (EvWarning msg).

(** utils.ts and cache.ts: [process.env["GITHUB_WORKSPACE"] ?? process.cwd()] *)
Definition getWorkingDirectory (w : World) : string :=
  match env w !! "GITHUB_WORKSPACE" with
  | Some d => d
  | None => cwd w
  end.

(** utils.ts *)
Definition getCacheFilename (method : CompressionMethod) : string :=
  "cache.tar." +:+ method_string method.

(** [new Date(t || 0)] for [t = file.metadata.timeCreated]. *)
Definition new_Date (w : World) (t : option string) : Date :=
  match t with
  | None => DateMs 0
  | Some s =>
      if String.eqb s "" then DateMs 0
      else match Date_parse w s with
           | Some ms => DateMs ms
           | None => InvalidDate
           end
  end.

(** [await exec(commandLine, args, ...)] *)
Definition run_exec (w : World) (commandLine : string) (args : list string) : M Z :=
  do emit (EvExec commandLine args) ;;
  await (exec_result (exec w commandLine args)).

(** [await io.mkdirP(dir)] *)
Definition io_mkdirP (w : World) (dir : string) : M unit :=
  do emit (EvMkdirP dir) ;; await (mkdirP w dir).

(** [await writeFile(file, content)] *)
Definition fs_writeFile (w : World) (file content : string) : M unit :=
  do emit (EvWriteFile file content) ;; await (writeFile w file content).

(** [await io.rmRF(target)] *)
Definition io_rmRF (w : World) (target : string) : M unit :=
  do emit (EvRmRF target) ;; await (rmRF w target).

(** [context.repo.repo]: the [repo] getter of @actions/github throws an
    [Error] when neither GITHUB_REPOSITORY nor the event payload names the
    repository; otherwise the name is read off what it returns. *)
Definition context_repo_repo (w : World) : M string :=
  fun s => (context_repo w, s).

(* ===================================================================== *)
(** ** src/tar.ts: the archive command builder *)
(* ===================================================================== *)

Module Tar.

Inductive ArchiveToolType : Type := gnu | bsd.

Record ArchiveTool : Type := mkTool {
  path : string;
  type : ArchiveToolType
}.

Inductive CommandType : Type := create | extract | list_.

Definition is_bsd (t : ArchiveToolType) : bool :=
  match t with bsd => true | gnu => false end.
Definition is_gnu (t : ArchiveToolType) : bool :=
  match t with gnu => true | bsd => false end.
Definition is_zstd (m : CompressionMethod) : bool :=
  match m with zstd => true | gzip => false end.
Definition is_create (t : CommandType) : bool :=
  match t with create => true | _ => false end.

Definition ManifestFilename : string := "manifest.txt".

(** [s.replace(SepRe, "/")] with [SepRe = new RegExp(`\\${path.sep}`, "g")] *)
Definition replaceSep (w : World) (s : string) : string :=
  replaceAll (path_sep w) "/" s.

Definition dquote : string := String (ascii_of_nat 34) EmptyString.

(** [tar.type === "bsd" && method === "zstd" && process.platform === "win32"] *)
Definition bsdTarZstd (w : World) (tar : ArchiveTool) (method : CompressionMethod) : bool :=
  is_bsd (type tar) && is_zstd method && String.eqb (platform w) "win32".

Definition getVersion (w : World) (app : string) (additionalArgs : list string) : M string :=
  let additionalArgs := additionalArgs ++ ["--version"] in
  do core_debug ("Checking " +:+ app +:+ " " +:+ join " " additionalArgs) ;;
  let versionOutput := exec_output (exec w app additionalArgs) in
  do try_catch (do run_exec w app additionalArgs ;; ret tt)
               (fun err => core_debug (toString err)) ;;
  let versionOutput := trim versionOutput in
  do core_debug versionOutput ;;
  ret versionOutput.

Definition getGnuTarPathOnWindows (w : World) : M (option string) :=
  let gnuPath := show_undefined (env w !! "PROGRAMFILES") +:+ "\Git\usr\bin\tar.exe" in
  if existsSync w gnuPath then ret (Some gnuPath)
  else
    let* versionOutput := getVersion w "tar" [] in
    if includes (toLowerCase versionOutput) "gnu tar"
    then let* p := await (which w "tar" false) in ret (Some p)
    else ret None.

Definition getTarPath (w : World) : M ArchiveTool :=
  if String.eqb (platform w) "win32" then
    let* gnuTar := getGnuTarPathOnWindows w in
    let systemTar := show_undefined (env w !! "SYSTEMDRIVE") +:+ "\Windows\System32\tar.exe" in
    if negb (falsy gnuTar)
    then ret (mkTool (show_undefined gnuTar) gnu)
    else ret (mkTool systemTar bsd)
  else if String.eqb (platform w) "darwin" then
    let* gnuTar := await (which w "gtar" false) in
    if negb (String.eqb gnuTar "")
    then ret (mkTool gnuTar gnu)
    else let* p := await (which w "tar" true) in ret (mkTool p bsd)
  else
    let* p := await (which w "tar" true) in ret (mkTool p gnu).

Definition getTarArgs (w : World) (tar : ArchiveTool) (method : CompressionMethod)
    (type_ : CommandType) (archive : string) : list string :=
  let args := [path tar] in
  let filename := getCacheFilename method in
  let workdir := getWorkingDirectory w in
  let tarfile := "cache.tar" in
  let bsdTarZstd := bsdTarZstd w tar method in
  let args :=
    match type_ with
    | create =>
        args ++ [ "--posix"; "-cf";
                  (if bsdTarZstd then tarfile else replaceSep w filename);
                  "--exclude";
                  (if bsdTarZstd then tarfile else replaceSep w filename);
                  "-P"; "-C"; replaceSep w workdir;
                  "--files-from"; ManifestFilename ]
    | extract =>
        args ++ [ "-xf";
                  (if bsdTarZstd then tarfile else replaceSep w archive);
                  "-P"; "-C"; replaceSep w workdir ]
    | list_ =>
        args ++ [ "-tf";
                  (if bsdTarZstd then tarfile else replaceSep w archive);
                  "-P" ]
    end in
  if is_gnu (type tar) then
    if String.eqb (platform w) "win32" then args ++ ["--force-local"]
    else if String.eqb (platform w) "darwin" then args ++ ["--delay-directory-restore"]
    else args
  else args.

Definition getCompressionProgram (w : World) (tar : ArchiveTool)
    (method : CompressionMethod) : list string :=
  let filename := getCacheFilename method in
  let bsdTarZstd := bsdTarZstd w tar method in
  match method with
  | zstd =>
      if bsdTarZstd
      then ["zstd -T0 --force -o"; replaceSep w filename; "cache.tar"]
      else ["--use-compress-program";
            if String.eqb (platform w) "win32"
            then dquote +:+ "zstd -T0" +:+ dquote else "zstdmt"]
  | _ => ["-z"]
  end.

Definition getDecompressionProgram (w : World) (tar : ArchiveTool)
    (method : CompressionMethod) (archive : string) : list string :=
  let bsdTarZstd := bsdTarZstd w tar method in
  match method with
  | zstd =>
      if bsdTarZstd
      then ["zstd -d --force -o"; "cache.tar"; replaceSep w archive]
      else ["--use-compress-program";
            if String.eqb (platform w) "win32"
            then dquote +:+ "zstd -d" +:+ dquote else "zstdmt"]
  | _ => ["-z"]
  end.

Definition getCommands (w : World) (method : CompressionMethod) (type_ : CommandType)
    (archive : string) : M (list string) :=
  let* tar := getTarPath w in
  let tarArgs := getTarArgs w tar method type_ archive in
  let compressArgs :=
    if negb (is_create type_)
    then getDecompressionProgram w tar method archive
    else getCompressionProgram w tar method in
  let bsdTarZstd := bsdTarZstd w tar method in
  let args :=
    if bsdTarZstd && negb (is_create type_)
    then [join " " compressArgs; join " " tarArgs]
    else [join " " tarArgs; join " " compressArgs] in
  if bsdTarZstd then ret args
  else ret [join " " args].

(** [command.split(" ")[0]] *)
Fixpoint first_word (s : string) : string :=
  match s with
  | EmptyString => EmptyString
  | String a rest => if Ascii.eqb a " " then EmptyString else String a (first_word rest)
  end.

Fixpoint execCommands (w : World) (commands : list string) : M unit :=
  match commands with
  | [] => ret tt
  | command :: rest =>
      do try_catch (do run_exec w command [] ;; ret tt)
           (fun error =>
              throw (Error (first_word command +:+ " failed with error "
                            +:+ show_undefined (error_message error)))) ;;
      execCommands w rest
  end.

Definition createTar (w : World) (archivedir : string) (sourcedirs : list string)
    (method : CompressionMethod) : M unit :=
  do fs_writeFile w (path_join w [archivedir; ManifestFilename]) (join (String (ascii_of_nat 10) EmptyString) sourcedirs) ;;
  let* commands := getCommands w method create "" in
  execCommands w commands.

Definition extractTar (w : World) (archivePath : string) (method : CompressionMethod) : M unit :=
  let workdir := getWorkingDirectory w in
  do io_mkdirP w workdir ;;
  let* commands := getCommands w method extract archivePath in
  execCommands w commands.

End Tar.

(* ===================================================================== *)
(** ** src/options.ts: option objects shared with the caller *)
(* ===================================================================== *)

Module Options.

Definition emptyObj : OptionsObj := mkOptions None None.

(** An object literal [{}]: a fresh location of the heap. *)
Definition alloc (o : OptionsObj) : M nat :=
  fun s =>
    let l := fresh (dom (heap s)) in
    (Return l, mkState (<[l := o]> (heap s)) (log s) (unhandled s)).

(** The object behind a reference. *)
Definition deref (s : State) (ref : nat) : OptionsObj :=
  default emptyObj (heap s !! ref).

(** Reading the fields of the object behind a reference. *)
Definition read (ref : nat) : M OptionsObj :=
  fun s => (Return (deref s ref), s).

(** [options.bucket = value] *)
Definition set_bucket (ref : nat) (value : string) : M unit :=
  fun s =>
    (Return tt,
     mkState (<[ref := mkOptions (Some value) (lookupOnly (deref s ref))]> (heap s))
             (log s) (unhandled s)).

(** [options.lookupOnly = value] *)
Definition set_lookupOnly (ref : nat) (value : bool) : M unit :=
  fun s =>
    (Return tt,
     mkState (<[ref := mkOptions (bucket (deref s ref)) (Some value)]> (heap s))
             (log s) (unhandled s)).

Definition getCommonOptions (w : World) (base : option nat) : M nat :=
  let* options := match base with
                  | Some ref => ret ref
                  | None => alloc emptyObj
                  end in
  let* o := read options in
  do match bucket o with
     | None =>
         let value := env w !! "ACTIONS_GCS_CACHE_BUCKET" in
         if falsy value
         then throw (ConfigUnsetError
                "Config Error: no bucket value provided and ACTIONS_GCS_CACHE_BUCKET environment variable is unset")
         else set_bucket options (show_undefined value)
     | Some _ => ret tt
     end ;;
  ret options.

Definition getUploadOptions (w : World) (base : option nat) : M nat :=
  getCommonOptions w base.

Definition getDownloadOptions (w : World) (base : option nat) : M nat :=
  let* options := getCommonOptions w base in
  let* o := read options in
  do match lookupOnly o with
     | None => set_lookupOnly options false
     | Some _ => ret tt
     end ;;
  ret options.

End Options.

(* ===================================================================== *)
(** ** src/cache.ts: saving and restoring *)
(* ===================================================================== *)

Module Cache.
Import Options.

Definition ContentTypePrefix : string := "application/x-actions-cache-gcs-".

Definition newline : string := String (ascii_of_nat 10) EmptyString.

Definition isFeatureAvailable : bool := true.

Definition checkKey (key : string) : M unit :=
  if 512 <? String.length key
  then throw (ValidationError
         ("Key Validation Error: " +:+ key +:+ " cannot be larger than 512 characters."))
  else ret tt.

(** [for (const key of keys) checkKey(key)] *)
Fixpoint checkKeys (keys : list string) : M unit :=
  match keys with
  | [] => ret tt
  | key :: rest => do checkKey key ;; checkKeys rest
  end.

Definition getZstdVersion (w : World) : M string :=
  do core_debug "Checking zstd --quiet --version" ;;
  let output := exec_output (exec w "zstd" ["--quiet"; "--version"]) in
  do try_catch (do run_exec w "zstd" ["--quiet"; "--version"] ;; ret tt)
               (fun e => core_debug (toString e)) ;;
  ret output.

Definition getCompressionMethod (w : World) : M CompressionMethod :=
  let* versionOutput := getZstdVersion w in
  if String.eqb versionOutput "" then ret gzip
  else
    do core_debug ("zstd version: " +:+ trim versionOutput) ;;
    ret zstd.

(** The creation time the scan compares: [new Date(file.metadata.timeCreated || 0)]. *)
Definition fileTime (w : World) (file : File) : Date := new_Date w (timeCreated file).

(** One step of the scan: [if (ntime < ftime) newest = file]. *)
Definition pickNewer (w : World) (newest file : File) : File :=
  if Date_lt (fileTime w newest) (fileTime w file) then file else newest.

(** [earlier w a b]: the comparison of the scan, [a < b], holds. *)
Definition earlier (w : World) (a b : File) : Prop :=
  Date_lt (fileTime w a) (fileTime w b) = true.
(** No comparison of the scan would replace [a] by [b]. *)
Definition not_earlier (w : World) (a b : File) : Prop :=
  Date_lt (fileTime w a) (fileTime w b) = false.

(** The loop over [keys] of [findCacheEntry]. *)
Fixpoint findCacheEntry_keys (w : World) (bucketName repository : string)
    (keys : list string) : M (option File) :=
  match keys with
  | [] => ret None
  | key :: rest =>
      let prefix := repository +:+ "/" +:+ key in
      let* files := (do emit (EvGetFiles bucketName prefix) ;;
                     await (bucket_getFiles w bucketName prefix)) in
      match files with
      | [] => findCacheEntry_keys w bucketName repository rest
      | first :: _ =>
          if String.eqb (name first) prefix then ret (Some first)
          else ret (Some (fold_left (pickNewer w) files first))
      end
  end.

Definition findCacheEntry (w : World) (keys : list string) (bucketName : option string)
    : M (option File) :=
  let* bucket := await (storage_bucket w bucketName) in
  let* repository := context_repo_repo w in
  findCacheEntry_keys w bucket repository keys.

Definition createTempDirectory (w : World) : M string :=
  let tempdir := env w !! "RUNNER_TEMP" in
  let tempdir :=
    if falsy tempdir then
      let baseloc :=
        if String.eqb (platform w) "win32" then
          (if falsy (env w !! "USERPROFILE") then "C:\"
           else show_undefined (env w !! "USERPROFILE"))
        else if String.eqb (platform w) "darwin" then "/Users"
        else "/home" in
      path_join w [baseloc; "actions"; "temp"]
    else show_undefined tempdir in
  let dest := path_join w [tempdir; randomUUID w] in
  do io_mkdirP w dest ;;
  ret dest.

(** The arguments [createTar] hands to [tar]. *)
Definition createTar_args (archive manifest : string) (method : CompressionMethod)
    : list string :=
  let args := ["cf"; archive; "--files-from"; manifest] in
  match method with
  | gzip => args ++ ["--gzip"]
  | zstd => args ++ ["--zstd"]
  end.

Definition createTar (w : World) (archive tempdir : string) (paths : list string)
    (method : CompressionMethod) : M unit :=
  let manifest := path_join w [tempdir; "manifest.txt"] in
  do fs_writeFile w manifest (join newline paths) ;;
  let args := createTar_args archive manifest method in
  do run_exec w "tar" args ;;
  ret tt.

(** [exec.exec] is started and not awaited: the [catch] only sees what the
    call throws before it returns its promise, which an async function never
    does. *)
Definition extractTar (w : World) (archive : string) : M unit :=
  let workdir := getWorkingDirectory w in
  do io_mkdirP w workdir ;;
  try_catch
    (do emit (EvExec "tar" ["xf"; archive]) ;;
     floating (exec_result (exec w "tar" ["xf"; archive])))
    (fun e => throw (Error ("tar xf " +:+ archive +:+ " failed with error: " +:+ toString e))).

(** The body of the [for await] loop of [resolvePaths]. *)
Fixpoint resolvePaths_loop (w : World) (workspace : string) (files : list string)
    (paths : list string) : M (list string) :=
  match files with
  | [] => ret paths
  | file :: rest =>
      let relative := replaceAll (path_sep w) "/" (path_relative w workspace file) in
      do core_debug ("Matched: " +:+ relative) ;;
      if String.eqb relative ""
      then resolvePaths_loop w workspace rest (paths ++ ["."])
      else resolvePaths_loop w workspace rest (paths ++ [relative])
  end.

Definition resolvePaths (w : World) (patterns : list string) : M (list string) :=
  let workspace := getWorkingDirectory w in
  do emit (EvGlob (join newline patterns)) ;;
  let yielded := glob w (join newline patterns) in
  let* paths := resolvePaths_loop w workspace (fst yielded) [] in
  match snd yielded with
  | Some e => throw e
  | None => ret paths
  end.

Definition saveCache (w : World) (paths : list string) (key : string)
    (options : option nat) : M unit :=
  let* options := getUploadOptions w options in
  let* method := getCompressionMethod w in
  let* cachePaths := resolvePaths w paths in
  do core_debug ("Cache Paths: " +:+ JSON_stringify w cachePaths) ;;
  if length cachePaths =? 0 then
    throw (ValidationError
      "Path Validation Error: Path(s) specified in teh action for caching do(es) not exist, hence no cache is being saved")
  else
    let* tempdir := createTempDirectory w in
    let archive := path_join w [tempdir; "cache.tar." +:+ method_string method] in
    let* repo := context_repo_repo w in
    do core_debug ("Archive Path: " +:+ archive) ;;
    do try_catch
         (do createTar w archive tempdir paths method ;;
          let* o := read options in
          let* bucket := await (storage_bucket w (bucket o)) in
          let destination := repo +:+ "/" +:+ key in
          let contentType := ContentTypePrefix +:+ method_string method in
          do emit (EvUpload bucket archive destination contentType) ;;
          floating (bucket_upload w bucket archive destination contentType))
         (fun e => ret tt) ;;
    throw (ThrownString "not implemented").

Definition restoreCache (w : World) (paths : list string) (primaryKey : string)
    (restoreKeys : option (list string)) (options : option nat) : M (option string) :=
  let* options := getDownloadOptions w options in
  let restoreKeys := default [] restoreKeys in
  let keys := primaryKey :: restoreKeys in
  do core_debug ("Resolved Keys: " +:+ JSON_stringify w keys) ;;
  if 10 <? length keys then
    throw (ValidationError "Key Validation Error: Keys are limited to a maximum of 10")
  else
    do checkKeys keys ;;
    let* repository := context_repo_repo w in
    (* let destination: string | undefined *)
    with_local (None : option string)
      (try_finally
         (try_catch
            (let* o := lift (read options) in
             let* entry := lift (findCacheEntry w keys (bucket o)) in
             match entry with
             | None => ret None
             | Some entry =>
                 let method := contentType entry in
                 if falsy method then
                   do lift (core_warning ("Cache entry " +:+ name entry
                                          +:+ " did not have a Content-Type set")) ;;
                   ret None
                 else
                   let method := show_undefined method in
                   if negb (startsWith method ContentTypePrefix) then
                     do lift (core_warning ("Cache entry " +:+ name entry
                                            +:+ " had unsupported Content-Type")) ;;
                     ret None
                   else
                     let method := substring_from (String.length ContentTypePrefix) method in
                     if negb (String.eqb method "zstd") && negb (String.eqb method "gzip") then
                       do lift (core_warning ("Cache entry " +:+ name entry
                                              +:+ " had unsupported Content-Type")) ;;
                       ret None
                     else
                       let* o := lift (read options) in
                       do (if negb (default false (lookupOnly o)) then
                             let* tmpdir := lift (createTempDirectory w) in
                             let destination := tmpdir +:+ "/cache.tar." +:+ method in
                             do set_local (Some destination) ;;
                             do lift (do emit (EvDownload (name entry) destination) ;;
                                      await (file_download w entry destination)) ;;
                             lift (extractTar w destination)
                           else ret tt) ;;
                       (* Strip off the `${repository}/` prefix on the cache object. *)
                       ret (Some (substring_from (String.length repository) (name entry)))
             end)
            (fun error =>
               if decide (error_name error = Some ValidationError_name)
               then throw error
               else
                 do lift (core_warning ("Failed to restore: "
                                        +:+ show_undefined (error_message error))) ;;
                 ret None))
         (try_catch
            (let* destination := get_local in
             if negb (falsy destination)
             then lift (io_rmRF w (show_undefined destination))
             else ret tt)
            (fun e => lift (core_debug ("Failed to delete archive: " +:+ toString e))))).

End Cache.

(* ===================================================================== *)
(** ** Relating the state before and after a call *)
(* ===================================================================== *)

(** [respects R m]: every run of [m] takes a state to an [R]-related one,
    whether it returns or throws. *)
Definition respects {S A : Type} (R : S -> S -> Prop) (m : St S A) : Prop :=
  forall s, R s (snd (m s)).

(** A relation on program states seen through a block's local variable. *)
Definition on_snd {L : Type} (R : State -> State -> Prop) (a b : L * State) : Prop :=
  R (snd a) (snd b).

(** The heap is left as it was. *)
Definition same_heap (s s' : State) : Prop := heap s' = heap s.

(** No promise was left unhandled that was not already. *)
Definition same_unhandled (s s' : State) : Prop := unhandled s' = unhandled s.

(** The log grew by events that all satisfy [P]. *)
Definition log_grows (P : Event -> Prop) (s s' : State) : Prop :=
  exists evs, log s' = log s ++ evs /\ Forall P evs.

Definition not_rmRF (e : Event) : Prop := is_rmRF e = false.
Definition not_network (e : Event) : Prop := is_network e = false.
Definition not_warning (e : Event) : Prop := is_warning e = false.

(** Whether [getCommonOptions] finds a bucket: in the caller's object, or
    else in a non-empty [ACTIONS_GCS_CACHE_BUCKET]. *)
Definition bucket_configured (w : World) (st : State) (options : option nat) : bool :=
  match options with
  | Some ref =>
      match bucket (Options.deref st ref) with
      | Some _ => true
      | None => negb (falsy (env w !! "ACTIONS_GCS_CACHE_BUCKET"))
      end
  | None => negb (falsy (env w !! "ACTIONS_GCS_CACHE_BUCKET"))
  end.

(** Whether the host knows its repository: [context.repo.repo] returns. *)
Definition repository_known (w : World) : bool :=
  match context_repo w with
  | Return _ => true
  | Throw _ => false
  end.

(** The repository name, on a host that knows it. *)
Definition repo (w : World) : string :=
  match context_repo w with
  | Return r => r
  | Throw _ => ""
  end.

(** The command line an [exec] event runs: the tool and its arguments. *)
Definition exec_command_line (e : Event) : option string :=
  match e with
  | EvExec commandLine args => Some (join " " (commandLine :: args))
  | _ => None
  end.

(** The command lines run by the events of a log, in order. *)
Definition commands_run (evs : list Event) : list string :=
  omap exec_command_line evs.

(** The last character of a string. *)
Fixpoint last_char (s : string) : option ascii :=
  match s with
  | EmptyString => None
  | String a EmptyString => Some a
  | String _ rest => last_char rest
  end.

(** Whether the character [c] occurs in [s]. *)
Fixpoint has_char (c : ascii) (s : string) : bool :=
  match s with
  | EmptyString => false
  | String a rest => Ascii.eqb a c || has_char c rest
  end.

(** Events that only log or list the bucket: nothing is created, fetched,
    run or removed. *)
Definition is_log_or_listing (e : Event) : bool :=
  match e with
  | EvDebug _ | EvWarning _ | EvGetFiles _ _ => true
  | _ => false
  end.

(** Events that only log, probe a process or expand a glob: no file is
    written and the remote store is not reached. *)
Definition is_log_or_probe (e : Event) : bool :=
  match e with
  | EvDebug _ | EvExec _ _ | EvGlob _ => true
  | _ => false
  end.

(** The path [resolvePaths] pushes for one file the globber yields. *)
Definition pushed_path (w : World) (workspace file : string) : string :=
  let relative := replaceAll (path_sep w) "/" (path_relative w workspace file) in
  if String.eqb relative "" then "." else relative.

(** Events that start a process. *)
Definition is_exec (e : Event) : bool :=
  match e with
  | EvExec _ _ => true
  | _ => false
  end.

(** A listing for [prefix]: the store returns the objects whose names start
    with [prefix]. *)
Definition listed_under (prefix : string) (files : list File) : bool :=
  forallb (fun f => startsWith (name f) prefix) files.

(** The order of a listing: the store lists its objects by name, each name
    lexicographically before all that follow it. *)
Fixpoint name_ordered (files : list File) : bool :=
  match files with
  | [] => true
  | f :: rest => forallb (fun g => String.ltb (name f) (name g)) rest && name_ordered rest
  end.

(** Whether the caller asked for a lookup-only restore. *)
Definition lookup_only_requested (st : State) (options : option nat) : bool :=
  match options with
  | Some ref => default false (lookupOnly (Options.deref st ref))
  | None => false
  end.

(* ===================================================================== *)
(** ** Concrete hosts used to run the model *)
(* ===================================================================== *)

Module Demo.

(** A small [Date] table standing for the parser of the host. *)
Definition parseDate (s : string) : option Z :=
  if String.eqb s "2024-01-01T00:00:00.000Z" then Some 1704067200000%Z
  else if String.eqb s "2024-06-01T00:00:00.000Z" then Some 1717200000000%Z
  else None.

Definition ok_exec (commandLine : string) (args : list string) : ExecResult :=
  mkExec "" (Return 0%Z).

Definition bucket_of (n : option string) : Outcome string :=
  match n with
  | Some b => Return b
  | None => Throw (Error "A bucket name is needed to use Cloud Storage.")
  end.

(** A host where every path operation is a plain concatenation and every
    file-system call succeeds; the platform, the environment, the processes
    and the bucket are chosen by the example. *)
Definition host (platform_ : string) (env_ : gmap string string)
    (exec_ : string -> list string -> ExecResult)
    (getFiles_ : string -> string -> Outcome (list File))
    (upload_ : Outcome unit) (download_ : Outcome unit) : World :=
  {| platform := platform_;
     env := env_;
     cwd := "/work";
     context_repo := Return "repo";
     randomUUID := "0000";
     path_join := join "/";
     path_relative := fun from to => substring_from (String.length from + 1) to;
     JSON_stringify := fun xs => "[" +:+ join "," xs +:+ "]";
     Date_parse := parseDate;
     existsSync := fun _ => false;
     which := fun tool _ => Return ("/usr/bin/" +:+ tool);
     exec := exec_;
     mkdirP := fun _ => Return tt;
     writeFile := fun _ _ => Return tt;
     rmRF := fun _ => Return tt;
     glob := fun _ => (["/work/dist"], None);
     storage_bucket := bucket_of;
     bucket_getFiles := getFiles_;
     bucket_upload := fun _ _ _ _ => upload_;
     file_download := fun _ _ => download_ |}.

Definition env_with_bucket : gmap string string :=
  {[ "ACTIONS_GCS_CACHE_BUCKET" := "my-bucket";
     "GITHUB_WORKSPACE" := "/work";
     "RUNNER_TEMP" := "/tmp" ]}.

Definition env_without_bucket : gmap string string :=
  {[ "GITHUB_WORKSPACE" := "/work"; "RUNNER_TEMP" := "/tmp" ]}.

Definition no_files (bucketName prefix : string) : Outcome (list File) := Return [].

Definition linux : World :=
  host "linux" env_with_bucket ok_exec no_files (Return tt) (Return tt).

(** A Windows host whose only tar is the system's bsdtar. *)
Definition windows_env : gmap string string :=
  {[ "SYSTEMDRIVE" := "C:"; "GITHUB_WORKSPACE" := "D:\a\repo" ]}.

Definition windows_exec (commandLine : string) (args : list string) : ExecResult :=
  if String.eqb commandLine "tar" then mkExec "bsdtar 3.5.2 - libarchive 3.5.2" (Return 0%Z)
  else mkExec "" (Return 0%Z).

Definition windows_bsd : World :=
  host "win32" windows_env windows_exec no_files (Return tt) (Return tt).

Definition key_old : File :=
  mkFile "repo/key-old" (Some "application/x-actions-cache-gcs-gzip")
         (Some "2024-06-01T00:00:00.000Z").
Definition key_exact : File :=
  mkFile "repo/key" (Some "application/x-actions-cache-gcs-gzip")
         (Some "2024-01-01T00:00:00.000Z").
Definition key_new : File :=
  mkFile "repo/key-new" (Some "application/x-actions-cache-gcs-zstd")
         (Some "2024-01-01T00:00:00.000Z").

(** A bucket whose listing puts the exact match behind a prefix match. *)
Definition unordered_bucket : World :=
  host "linux" env_with_bucket ok_exec
    (fun _ _ => Return [key_old; key_exact]) (Return tt) (Return tt).

Definition prefix_bucket : World :=
  host "linux" env_with_bucket ok_exec
    (fun _ _ => Return [key_new; key_old]) (Return tt) (Return tt).

Definition exact_first_bucket : World :=
  host "linux" env_with_bucket ok_exec
    (fun _ _ => Return [key_exact; key_old]) (Return tt) (Return tt).

(** A bucket that lists the three entries under [repo/key] by name: the
    exact match is followed by an entry of the same age and a later one. *)
Definition name_order_bucket : World :=
  host "linux" env_with_bucket ok_exec
    (fun _ _ => Return [key_exact; key_new; key_old]) (Return tt) (Return tt).

(** A host whose bucket lists the exact match first and whose [tar] fails. *)
Definition tar_fails_exec (commandLine : string) (args : list string) : ExecResult :=
  if String.eqb commandLine "tar"
  then mkExec "" (Throw (Error "The process 'tar' failed with exit code 2"))
  else mkExec "" (Return 0%Z).

Definition tar_fails : World :=
  host "linux" env_with_bucket tar_fails_exec
    (fun _ _ => Return [key_exact; key_old]) (Return tt) (Return tt).

(** A host whose bucket rejects every upload. *)
Definition upload_fails : World :=
  host "linux" env_with_bucket ok_exec no_files (Throw (Error "upload failed")) (Return tt).

(** A host where neither the options nor the environment name a bucket. *)
Definition no_bucket : World :=
  host "linux" env_without_bucket ok_exec no_files (Return tt) (Return tt).

(** A key of 513 characters. *)
Definition long_key : string := string_of_list_ascii (List.repeat "k"%char 513).

(** A process table where [make] fails and everything else succeeds. *)
Definition make_fails_exec (commandLine : string) (args : list string) : ExecResult :=
  if String.eqb commandLine "make -j"
  then mkExec "" (Throw (Error "The process 'make' failed with exit code 2"))
  else mkExec "" (Return 0%Z).

Definition make_fails : World :=
  host "linux" env_with_bucket make_fails_exec no_files (Return tt) (Return tt).

(** A bucket whose two entries under [repo/ke] were created at the same time. *)
Definition tie_bucket : World :=
  host "linux" env_with_bucket ok_exec
    (fun _ _ => Return [key_new; key_exact]) (Return tt) (Return tt).

(** A bucket that only holds entries under [repo/fallback]. *)
Definition fallback_listing (bucketName prefix : string) : Outcome (list File) :=
  if String.eqb prefix "repo/fallback"
  then Return [mkFile "repo/fallback-1" (Some "application/x-actions-cache-gcs-gzip")
                      (Some "2024-01-01T00:00:00.000Z")]
  else Return [].

Definition fallback_bucket : World :=
  host "linux" env_with_bucket ok_exec fallback_listing (Return tt) (Return tt).

(** The host [w] with another globber. *)
Definition with_glob (w : World) (glob_ : string -> list string * option Thrown) : World :=
  {| platform := platform w; env := env w; cwd := cwd w;
     context_repo := context_repo w;
     randomUUID := randomUUID w; path_join := path_join w;
     path_relative := path_relative w; JSON_stringify := JSON_stringify w;
     Date_parse := Date_parse w; existsSync := existsSync w; which := which w;
     exec := exec w; mkdirP := mkdirP w; writeFile := writeFile w; rmRF := rmRF w;
     glob := glob_;
     storage_bucket := storage_bucket w; bucket_getFiles := bucket_getFiles w;
     bucket_upload := bucket_upload w; file_download := file_download w |}.

(** A host where the patterns match nothing. *)
Definition no_matches : World := with_glob linux (fun _ => ([], None)).

(** A host where the patterns match the workspace itself and a file in it. *)
Definition workspace_and_file : World :=
  with_glob linux (fun _ => (["/work"; "/work/dist/app.js"], None)).

(** A host whose bucket holds the entry but fails to deliver it. *)
Definition download_fails : World :=
  host "linux" env_with_bucket ok_exec
    (fun _ _ => Return [key_exact; key_old]) (Return tt)
    (Throw (Error "socket hang up")).

(** A host whose bucket cannot be listed. *)
Definition listing_fails : World :=
  host "linux" env_with_bucket ok_exec
    (fun _ _ => Throw (Error "403 Forbidden")) (Return tt) (Return tt).

(** A host whose bucket holds an entry written by something else. *)
Definition foreign_entry : File :=
  mkFile "repo/key" (Some "application/gzip") (Some "2024-01-01T00:00:00.000Z").

Definition foreign_bucket : World :=
  host "linux" env_with_bucket ok_exec
    (fun _ _ => Return [foreign_entry]) (Return tt) (Return tt).

(** The host [w] where no directory can be made. *)
Definition with_mkdirP (w : World) (mkdirP_ : string -> Outcome unit) : World :=
  {| platform := platform w; env := env w; cwd := cwd w;
     context_repo := context_repo w;
     randomUUID := randomUUID w; path_join := path_join w;
     path_relative := path_relative w; JSON_stringify := JSON_stringify w;
     Date_parse := Date_parse w; existsSync := existsSync w; which := which w;
     exec := exec w; mkdirP := mkdirP_; writeFile := writeFile w; rmRF := rmRF w;
     glob := glob w;
     storage_bucket := storage_bucket w; bucket_getFiles := bucket_getFiles w;
     bucket_upload := bucket_upload w; file_download := file_download w |}.

Definition read_only_disk : World :=
  with_mkdirP linux (fun _ => Throw (Error "EROFS: read-only file system")).

(** The host [w] with another [context.repo] getter. *)
Definition with_context_repo (w : World) (context_repo_ : Outcome string) : World :=
  {| platform := platform w; env := env w; cwd := cwd w;
     context_repo := context_repo_;
     randomUUID := randomUUID w; path_join := path_join w;
     path_relative := path_relative w; JSON_stringify := JSON_stringify w;
     Date_parse := Date_parse w; existsSync := existsSync w; which := which w;
     exec := exec w; mkdirP := mkdirP w; writeFile := writeFile w; rmRF := rmRF w;
     glob := glob w;
     storage_bucket := storage_bucket w; bucket_getFiles := bucket_getFiles w;
     bucket_upload := bucket_upload w; file_download := file_download w |}.

(** What the getter throws where GITHUB_REPOSITORY is unset. *)
Definition repository_unset : Thrown :=
  Error "context.repo requires a GITHUB_REPOSITORY environment variable like 'owner/repo'".

(** A host that has the bucket configured and the entry stored, and does not
    know its repository. *)
Definition no_repository : World :=
  with_context_repo exact_first_bucket (Throw repository_unset).

Definition start : State := mkState ∅ [] [].

(** A state whose heap holds the caller's options object at location 0. *)
Definition start_with (o : OptionsObj) : State := mkState {[ 0 := o ]} [] [].

End Demo.

(* ===================================================================== *)
(** ** The command builder *)
(* ===================================================================== *)

Module TarFacts.
Import Tar.

Example getTarPath_windows_bsd :
  fst (getTarPath Demo.windows_bsd Demo.start) = Return (mkTool "C:\Windows\System32\tar.exe" bsd).
Proof. vm_compute. reflexivity. Qed.

Example getCommands_create_windows_bsd_zstd :
  fst (getCommands Demo.windows_bsd zstd create "" Demo.start) =
  Return [ "C:\Windows\System32\tar.exe --posix -cf cache.tar --exclude cache.tar -P -C D:/a/repo --files-from manifest.txt";
           "zstd -T0 --force -o cache.tar.zstd cache.tar" ].
Proof. vm_compute. reflexivity. Qed.

Example getCommands_extract_windows_bsd_zstd :
  fst (getCommands Demo.windows_bsd zstd extract "D:\tmp\cache.tar.zstd" Demo.start) =
  Return [ "zstd -d --force -o cache.tar D:/tmp/cache.tar.zstd";
           "C:\Windows\System32\tar.exe -xf cache.tar -P -C D:/a/repo" ].
Proof. vm_compute. reflexivity. Qed.

Example getCommands_create_linux_zstd :
  fst (getCommands Demo.linux zstd create "" Demo.start) =
  Return [ "/usr/bin/tar --posix -cf cache.tar.zstd --exclude cache.tar.zstd -P -C /work --files-from manifest.txt --use-compress-program zstdmt" ].
Proof. vm_compute. reflexivity. Qed.

Example getCommands_create_linux_gzip :
  fst (getCommands Demo.linux gzip create "" Demo.start) =
  Return [ "/usr/bin/tar --posix -cf cache.tar.gzip --exclude cache.tar.gzip -P -C /work --files-from manifest.txt -z" ].
Proof. vm_compute. reflexivity. Qed.

Lemma bsdTarZstd_true_iff w tar method :
  bsdTarZstd w tar method = true <->
  type tar = bsd /\ method = zstd /\ platform w = "win32".
Proof.
  unfold bsdTarZstd. rewrite !andb_true_iff, String.eqb_eq.
  destruct (type tar), method; simpl; intuition congruence.
Qed.

Lemma replaceSep_win32_literal w :
  platform w = "win32" -> replaceSep w "cache.tar.zstd" = "cache.tar.zstd".
Proof. intros Hw. unfold replaceSep, path_sep. rewrite Hw. reflexivity. Qed.

(** The builder returns as soon as the tool is resolved: it has no failure of
    its own. *)
Lemma getCommands_returns w method type_ archive st tar st' :
  getTarPath w st = (Return tar, st') ->
  exists cmds, getCommands w method type_ archive st = (Return cmds, st').
Proof.
  intros Htar. unfold getCommands, bind. rewrite Htar.
  destruct (bsdTarZstd w tar method); eexists; reflexivity.
Qed.

(** C7. On the combination of a BSD tool, the zstd method and a Windows host
    the builder returns exactly two commands for create and for extract:
    create is the archiving command followed by the zstd compression of the
    intermediate [cache.tar], extract is the zstd decompression into
    [cache.tar] followed by the archiving command. On every other
    combination create and extract are a single command. *)
Theorem getCommands_two_steps_only_on_bsd_zstd_win32 :
  forall w method type_ archive st tar st',
    getTarPath w st = (Return tar, st') ->
    type_ <> list_ ->
    exists cmds,
      getCommands w method type_ archive st = (Return cmds, st') /\
      (type tar = bsd /\ method = zstd /\ platform w = "win32" ->
         (type_ = create ->
            cmds = [ path tar +:+ " --posix -cf cache.tar --exclude cache.tar -P -C "
                       +:+ replaceSep w (getWorkingDirectory w)
                       +:+ " --files-from manifest.txt";
                     "zstd -T0 --force -o cache.tar.zstd cache.tar" ]) /\
         (type_ = extract ->
            cmds = [ "zstd -d --force -o cache.tar " +:+ replaceSep w archive;
                     path tar +:+ " -xf cache.tar -P -C "
                       +:+ replaceSep w (getWorkingDirectory w) ])) /\
      (~ (type tar = bsd /\ method = zstd /\ platform w = "win32") ->
         length cmds = 1).
Proof.
  intros w method type_ archive st tar st' Htar Hty.
  unfold getCommands, bind. rewrite Htar.
  destruct (bsdTarZstd w tar method) eqn:Hb.
  - apply bsdTarZstd_true_iff in Hb as Hc. destruct Hc as (Hbsd & Hz & Hw).
    eexists. split; [reflexivity|]. split.
    + intros _. split; intros ->; simpl.
      * unfold getTarArgs, getCompressionProgram. rewrite Hb, Hbsd. subst method.
        change (getCacheFilename zstd) with "cache.tar.zstd".
        rewrite (replaceSep_win32_literal w Hw). reflexivity.
      * unfold getTarArgs, getDecompressionProgram. rewrite Hb, Hbsd. subst method.
        simpl. reflexivity.
    + intros Hn. exfalso. apply Hn. auto.
  - eexists. split; [reflexivity|]. split.
    + intros Hc. apply bsdTarZstd_true_iff in Hc. congruence.
    + intros _. reflexivity.
Qed.

Lemma getCommands_two_steps_witness :
  exists cmds,
    getCommands Demo.windows_bsd zstd create "" Demo.start =
      (Return cmds, snd (getTarPath Demo.windows_bsd Demo.start)) /\
    length cmds = 2.
Proof.
  destruct (getCommands_two_steps_only_on_bsd_zstd_win32
              Demo.windows_bsd zstd create "" Demo.start
              (mkTool "C:\Windows\System32\tar.exe" bsd)
              (snd (getTarPath Demo.windows_bsd Demo.start)))
    as (cmds & Hrun & Htwo & _).
  - vm_compute. reflexivity.
  - discriminate.
  - exists cmds. split; [exact Hrun|].
    destruct Htwo as [Hc _]; [repeat split; reflexivity|].
    rewrite (Hc eq_refl). reflexivity.
Defined.

(** *** Path normalisation *)

Lemma has_char_app c a b : has_char c (a +:+ b) = has_char c a || has_char c b.
Proof.
  induction a as [|x a IH]; simpl; [reflexivity|].
  rewrite IH. apply orb_assoc.
Qed.

Lemma replaceAll_removes c by_ s :
  has_char c by_ = false -> has_char c (replaceAll c by_ s) = false.
Proof.
  intros Hby. induction s as [|a s IH]; simpl; [reflexivity|].
  destruct (Ascii.eqb a c) eqn:Hac.
  - rewrite has_char_app, Hby, IH. reflexivity.
  - simpl. rewrite Hac, IH. reflexivity.
Qed.

Lemma replaceAll_same c s : replaceAll c (String c EmptyString) s = s.
Proof.
  induction s as [|a s IH]; simpl; [reflexivity|].
  destruct (Ascii.eqb a c) eqn:Hac; rewrite IH; [|reflexivity].
  apply Ascii.eqb_eq in Hac. subst a. reflexivity.
Qed.

(** X1. [replaceSep] leaves no backslash on a Windows host and changes nothing on
    any other host, where the separator is already the forward slash. *)
Theorem replaceSep_normalizes :
  forall w s,
    (platform w = "win32" -> has_char "\" (replaceSep w s) = false) /\
    (platform w <> "win32" -> replaceSep w s = s).
Proof.
  intros w s. unfold replaceSep, path_sep. split; intros Hw.
  - rewrite Hw. simpl. apply replaceAll_removes. reflexivity.
  - apply String.eqb_neq in Hw. rewrite Hw. apply replaceAll_same.
Qed.

(** X2. On a Windows host every argument the builder puts after the tool path is
    free of backslashes, whatever the working directory and the archive path
    look like. *)
Theorem getTarArgs_windows_arguments_normalized :
  forall w tar method type_ archive,
    platform w = "win32" ->
    Forall (fun a => has_char "\" a = false)
           (tl (getTarArgs w tar method type_ archive)).
Proof.
  intros w tar method type_ archive Hw.
  assert (Hn : forall s, has_char "\" (replaceSep w s) = false).
  { intros s. unfold replaceSep, path_sep. rewrite Hw. simpl.
    apply replaceAll_removes. reflexivity. }
  unfold getTarArgs. rewrite Hw. simpl String.eqb. cbv iota.
  destruct type_, (bsdTarZstd w tar method), (is_gnu (type tar)); simpl;
    repeat (constructor; [first [apply Hn | reflexivity]|]); constructor.
Qed.

Lemma getTarArgs_windows_arguments_normalized_witness :
  Forall (fun a => has_char "\" a = false)
         (tl (getTarArgs Demo.windows_bsd (mkTool "C:\Windows\System32\tar.exe" bsd)
                gzip extract "D:\tmp\cache.tar.gzip")).
Proof.
  apply (getTarArgs_windows_arguments_normalized Demo.windows_bsd). reflexivity.
Defined.

(** *** Running the commands *)

Lemma execCommands_step_ok w cmd rest s code :
  exec_result (exec w cmd []) = Return code ->
  execCommands w (cmd :: rest) s =
  execCommands w rest (mkState (heap s) (log s ++ [EvExec cmd []]) (unhandled s)).
Proof.
  intros Hok. simpl. unfold bind at 1, try_catch, bind at 1, run_exec, bind, emit, await.
  simpl. rewrite Hok. reflexivity.
Qed.

(** X3. [execCommands] runs the commands in order. While they succeed it goes
    on; at the first command that fails it stops with an [Error] that names
    the first word of that command and the message of the failure, and the
    commands after it are never started. *)
Theorem execCommands_stops_at_first_failure :
  forall w pre st,
    Forall (fun cmd => exists code, exec_result (exec w cmd []) = Return code) pre ->
    execCommands w pre st =
      (Return tt,
       mkState (heap st) (log st ++ map (fun cmd => EvExec cmd []) pre) (unhandled st)) /\
    (forall failing post e,
       exec_result (exec w failing []) = Throw e ->
       execCommands w (pre ++ failing :: post) st =
         (Throw (Error (first_word failing +:+ " failed with error "
                        +:+ show_undefined (error_message e))),
          mkState (heap st)
                  (log st ++ map (fun cmd => EvExec cmd []) (pre ++ [failing]))
                  (unhandled st))).
Proof.
  intros w pre st Hok. revert st.
  induction Hok as [|cmd pre [code Hcode] _ IH]; intros st.
  - split.
    + simpl. rewrite app_nil_r. destruct st; reflexivity.
    + intros failing post e He. simpl.
      unfold bind at 1, try_catch, bind at 1, run_exec, bind, emit, await, throw.
      simpl. rewrite He. reflexivity.
  - split.
    + rewrite (execCommands_step_ok _ _ _ _ _ Hcode).
      destruct (IH (mkState (heap st) (log st ++ [EvExec cmd []]) (unhandled st)))
        as [-> _].
      simpl. rewrite <- app_assoc. reflexivity.
    + intros failing post e He. simpl app.
      rewrite (execCommands_step_ok _ _ _ _ _ Hcode).
      destruct (IH (mkState (heap st) (log st ++ [EvExec cmd []]) (unhandled st)))
        as [_ Hfail].
      rewrite (Hfail failing post e He). simpl. rewrite <- app_assoc. reflexivity.
Qed.

Lemma execCommands_stops_at_first_failure_witness :
  execCommands Demo.make_fails ["mkdir out"; "make -j"; "make install"] Demo.start =
  (Throw (Error "make failed with error The process 'make' failed with exit code 2"),
   mkState ∅ [EvExec "mkdir out" []; EvExec "make -j" []] []).
Proof.
  refine (proj2 (execCommands_stops_at_first_failure Demo.make_fails ["mkdir out"] Demo.start _)
            "make -j" ["make install"]
            (Error "The process 'make' failed with exit code 2") _).
  - constructor; [exists 0%Z; reflexivity | constructor].
  - reflexivity.
Defined.

(** *** Choosing the tool on Windows *)

Lemma getVersion_returns w app additionalArgs s :
  fst (getVersion w app additionalArgs s) =
  Return (trim (exec_output (exec w app (additionalArgs ++ ["--version"])))).
Proof.
  unfold getVersion, bind, try_catch, run_exec, core_debug, emit, await, ret. simpl.
  destruct (exec_result _); reflexivity.
Qed.

Lemma getVersion_same_but_log w app additionalArgs s :
  heap (snd (getVersion w app additionalArgs s)) = heap s /\
  unhandled (snd (getVersion w app additionalArgs s)) = unhandled s.
Proof.
  unfold getVersion, bind, try_catch, run_exec, core_debug, emit, await, ret. simpl.
  destruct (exec_result _); split; reflexivity.
Qed.

(** X4. On a Windows host the GNU tar that ships with Git is taken when its file
    exists, and then no process is started at all. When it does not exist and
    the output of [tar --version] carries no "gnu tar", also when that probe
    fails to run, the system's [tar.exe] is taken as a BSD tar: the choice
    never fails. *)
Theorem getTarPath_on_windows :
  forall w st,
    platform w = "win32" ->
    let gitTar := show_undefined (env w !! "PROGRAMFILES") +:+ "\Git\usr\bin\tar.exe" in
    let systemTar := show_undefined (env w !! "SYSTEMDRIVE") +:+ "\Windows\System32\tar.exe" in
    (existsSync w gitTar = true ->
       getTarPath w st = (Return (mkTool gitTar gnu), st)) /\
    (existsSync w gitTar = false ->
       includes (toLowerCase (trim (exec_output (exec w "tar" ["--version"])))) "gnu tar"
         = false ->
       fst (getTarPath w st) = Return (mkTool systemTar bsd)).
Proof.
  intros w st Hw gitTar systemTar. subst gitTar systemTar.
  unfold getTarPath. rewrite Hw. change (String.eqb "win32" "win32") with true. cbv iota.
  unfold getGnuTarPathOnWindows. split.
  - intros Hgit. rewrite Hgit. unfold bind, ret. cbn [falsy show_undefined].
    assert (Hne : String.eqb (show_undefined (env w !! "PROGRAMFILES")
                              +:+ "\Git\usr\bin\tar.exe") "" = false)
      by (destruct (show_undefined (env w !! "PROGRAMFILES")); reflexivity).
    rewrite Hne. reflexivity.
  - intros Hgit Hsig. rewrite Hgit. unfold bind at 1. unfold bind at 1.
    pose proof (getVersion_returns w "tar" [] st) as Hv.
    destruct (getVersion w "tar" [] st) as [r s1]. cbn [fst] in Hv. subst r.
    change ([] ++ ["--version"]) with ["--version"]. rewrite Hsig. reflexivity.
Qed.

Lemma getTarPath_on_windows_witness :
  fst (getTarPath Demo.windows_bsd Demo.start) =
  Return (mkTool "C:\Windows\System32\tar.exe" bsd).
Proof.
  refine (proj2 (getTarPath_on_windows Demo.windows_bsd Demo.start _) _ _); reflexivity.
Defined.

(** *** Listing, and the callers of the builder *)

Lemma string_append_assoc a b c : (a +:+ b) +:+ c = a +:+ (b +:+ c).
Proof.
  induction a as [|x a IH]; [reflexivity|].
  change (String x ((a +:+ b) +:+ c) = String x (a +:+ (b +:+ c))).
  f_equal. exact IH.
Qed.

(** X5. Listing an archive is decomposed like extracting it: on the combination
    of a BSD tool, zstd and a Windows host the archive is first decompressed
    into [cache.tar], which is then listed; on every other combination one
    command, [<tar> -tf <archive> -P] followed by the options of the tool
    and of the compression, lists the archive itself. *)
Theorem getCommands_list :
  forall w method archive st tar st',
    getTarPath w st = (Return tar, st') ->
    exists cmds,
      getCommands w method list_ archive st = (Return cmds, st') /\
      (type tar = bsd /\ method = zstd /\ platform w = "win32" ->
         cmds = [ "zstd -d --force -o cache.tar " +:+ replaceSep w archive;
                  path tar +:+ " -tf cache.tar -P" ]) /\
      (~ (type tar = bsd /\ method = zstd /\ platform w = "win32") ->
         exists options,
           cmds = [ path tar +:+ " -tf " +:+ replaceSep w archive +:+ " -P" +:+ options ]).
Proof.
  intros w method archive st tar st' Htar.
  unfold getCommands, bind. rewrite Htar.
  destruct (bsdTarZstd w tar method) eqn:Hb.
  - apply bsdTarZstd_true_iff in Hb as Hc. destruct Hc as (Hbsd & Hz & Hw).
    eexists. split; [reflexivity|]. split.
    + intros _. subst method. unfold getTarArgs, getDecompressionProgram.
      rewrite Hb, Hbsd. reflexivity.
    + intros Hn. exfalso. apply Hn. auto.
  - eexists. split; [reflexivity|]. split.
    + intros Hc. apply bsdTarZstd_true_iff in Hc. congruence.
    + intros _. unfold getTarArgs, getDecompressionProgram. rewrite Hb.
      cbn [negb is_create app].
      destruct (is_gnu (type tar)), (String.eqb (platform w) "win32"),
        (String.eqb (platform w) "darwin"), method;
        eexists; cbn [andb app]; unfold join, String.concat;
        rewrite ?string_append_assoc; reflexivity.
Qed.

Lemma getCommands_list_witness :
  fst (getCommands Demo.windows_bsd zstd list_ "D:\tmp\cache.tar.zstd" Demo.start) =
  Return [ "zstd -d --force -o cache.tar D:/tmp/cache.tar.zstd";
           "C:\Windows\System32\tar.exe -tf cache.tar -P" ].
Proof.
  destruct (getCommands_list Demo.windows_bsd zstd "D:\tmp\cache.tar.zstd" Demo.start
              (mkTool "C:\Windows\System32\tar.exe" bsd)
              (snd (getTarPath Demo.windows_bsd Demo.start)))
    as (cmds & Hrun & Htwo & _).
  - vm_compute. reflexivity.
  - rewrite Hrun. simpl. rewrite Htwo; [reflexivity|]. repeat split; reflexivity.
Defined.

Lemma execCommands_all_ok w cmds :
  Forall (fun cmd => exists code, exec_result (exec w cmd []) = Return code) cmds ->
  forall st,
    execCommands w cmds st =
    (Return tt,
     mkState (heap st) (log st ++ map (fun cmd => EvExec cmd []) cmds) (unhandled st)).
Proof.
  induction 1 as [|cmd cmds [code Hcode] _ IH]; intros st.
  - simpl. rewrite app_nil_r. destruct st; reflexivity.
  - rewrite (execCommands_step_ok _ _ _ _ _ Hcode), IH. simpl.
    rewrite <- app_assoc. reflexivity.
Qed.

(** X6. [extractTar] of tar.ts first makes the working directory. If that fails
    the error is thrown and neither the tool is looked for nor any command
    run; otherwise the commands the builder gives for extract are run, in
    order, right after the tool has been resolved. *)
Theorem extractTar_makes_workdir_then_runs_builder :
  forall w archivePath method st,
    let made :=
      mkState (heap st) (log st ++ [EvMkdirP (getWorkingDirectory w)]) (unhandled st) in
    (forall e,
       mkdirP w (getWorkingDirectory w) = Throw e ->
       extractTar w archivePath method st = (Throw e, made)) /\
    (forall cmds resolved,
       mkdirP w (getWorkingDirectory w) = Return tt ->
       getCommands w method extract archivePath made = (Return cmds, resolved) ->
       Forall (fun cmd => exists code, exec_result (exec w cmd []) = Return code) cmds ->
       extractTar w archivePath method st =
         (Return tt,
          mkState (heap resolved)
                  (log resolved ++ map (fun cmd => EvExec cmd []) cmds)
                  (unhandled resolved))).
Proof.
  intros w archivePath method st made. subst made. split.
  - intros e Hfail. unfold extractTar, io_mkdirP, bind, emit, await.
    cbn [fst snd heap log unhandled]. rewrite Hfail. reflexivity.
  - intros cmds resolved Hok Hcmds Hall.
    unfold extractTar, io_mkdirP. unfold bind at 1. unfold bind at 1, emit, await.
    cbn [fst snd heap log unhandled]. rewrite Hok.
    unfold bind at 1. rewrite Hcmds. apply execCommands_all_ok. exact Hall.
Qed.

Example extractTar_on_linux :
  extractTar Demo.linux "/tmp/0000/cache.tar.zstd" zstd Demo.start =
  (Return tt,
   mkState ∅
     [ EvMkdirP "/work";
       EvExec "/usr/bin/tar -xf /tmp/0000/cache.tar.zstd -P -C /work --use-compress-program zstdmt" [] ]
     []).
Proof. vm_compute. reflexivity. Qed.

End TarFacts.

(* ===================================================================== *)
(** ** Cache-entry resolution *)
(* ===================================================================== *)

Module ResolveFacts.
Import Cache.

Section Scan.
Variable w : World.

Ltac dates :=
  unfold earlier, not_earlier, pickNewer in *;
  repeat match goal with
         | |- context [fileTime w ?f] => destruct (fileTime w f)
         | H : context [fileTime w ?f] |- _ => destruct (fileTime w f)
         end;
  simpl in *;
  repeat match goal with
         | H : (_ <? _)%Z = true |- _ => apply Z.ltb_lt in H
         | H : (_ <? _)%Z = false |- _ => apply Z.ltb_ge in H
         | |- (_ <? _)%Z = true => apply Z.ltb_lt
         | |- (_ <? _)%Z = false => apply Z.ltb_ge
         end;
  try congruence; try lia.

Lemma pickNewer_cases newest file :
  (pickNewer w newest file = file /\ earlier w newest file) \/
  (pickNewer w newest file = newest /\ not_earlier w newest file).
Proof.
  unfold pickNewer, earlier, not_earlier.
  destruct (Date_lt (fileTime w newest) (fileTime w file)); auto.
Qed.

Lemma earlier_trans a b c : earlier w a b -> earlier w b c -> earlier w a c.
Proof. intros; dates. Qed.

Lemma earlier_not_earlier a b : earlier w a b -> not_earlier w b a.
Proof. intros; dates. Qed.

Lemma not_earlier_step a b c : earlier w a b -> not_earlier w a c -> not_earlier w b c.
Proof. intros; dates. Qed.

(** The scan either keeps its starting entry or ends on a strictly later
    one, and nothing it has seen is later than the entry it ends on. *)
Lemma scan_spec files :
  forall start,
    let r := fold_left (pickNewer w) files start in
    (r = start \/ (In r files /\ earlier w start r)) /\
    (forall f, In f files -> not_earlier w r f).
Proof.
  induction files as [|file rest IH]; intros start; simpl.
  - split; [auto | intros f []].
  - destruct (IH (pickNewer w start file)) as [Hr Hall].
    set (r := fold_left (pickNewer w) rest (pickNewer w start file)) in *.
    destruct (pickNewer_cases start file) as [[Hp He] | [Hp Hn]]; rewrite Hp in *.
    + assert (Hsr : earlier w start r).
      { destruct Hr as [-> | [_ Hfr]]; [exact He | exact (earlier_trans _ _ _ He Hfr)]. }
      split.
      * right. split; [|exact Hsr].
        destruct Hr as [-> | [Hin _]]; auto.
      * intros f [<- | Hin]; [|auto].
        destruct Hr as [-> | [_ Hfr]]; [dates | exact (earlier_not_earlier _ _ Hfr)].
    + split.
      * destruct Hr as [-> | [Hin Hsr]]; auto.
      * intros f [<- | Hin]; [|auto].
        destruct Hr as [-> | [_ Hsr]]; [exact Hn | exact (not_earlier_step _ _ _ Hsr Hn)].
Qed.

(** The scan of a listing, started as the code starts it on its first
    entry, ends on an entry of the listing. *)
Lemma scan_in_listing first others :
  In (fold_left (pickNewer w) (first :: others) first) (first :: others).
Proof.
  destruct (scan_spec (first :: others) first) as [[-> | [Hin _]] _]; [left; reflexivity | exact Hin].
Qed.

End Scan.

(** On a host that knows its repository the getter returns its name. *)
Lemma repository_known_repo w :
  repository_known w = true -> context_repo w = Return (repo w).
Proof.
  unfold repository_known, repo. destruct (context_repo w); [reflexivity | discriminate].
Qed.

(** Once the bucket is opened and the repository name read, the resolver is
    its loop over the keys. *)
Lemma findCacheEntry_run w keys bucketName b st :
  repository_known w = true ->
  storage_bucket w bucketName = Return b ->
  findCacheEntry w keys bucketName st = findCacheEntry_keys w b (repo w) keys st.
Proof.
  intros Hrepo Hb. unfold findCacheEntry, bind, await, context_repo_repo.
  rewrite Hb, (repository_known_repo w Hrepo). reflexivity.
Qed.

(** A resolver that returns has read the repository name. *)
Lemma findCacheEntry_returns_repository_known w keys bucketName st r :
  fst (findCacheEntry w keys bucketName st) = Return r -> repository_known w = true.
Proof.
  unfold findCacheEntry, bind, await, context_repo_repo, repository_known.
  destruct (storage_bucket w bucketName); [|discriminate].
  destruct (context_repo w); [reflexivity | discriminate].
Qed.

(** What the resolver does with the listing of one key. *)
Lemma findCacheEntry_keys_listing w bucketName repository key rest st files :
  bucket_getFiles w bucketName (repository +:+ "/" +:+ key) = Return files ->
  findCacheEntry_keys w bucketName repository (key :: rest) st =
    match files with
    | [] => findCacheEntry_keys w bucketName repository rest
    | first :: _ =>
        if String.eqb (name first) (repository +:+ "/" +:+ key) then ret (Some first)
        else ret (Some (fold_left (pickNewer w) files first))
    end (mkState (heap st) (log st ++ [EvGetFiles bucketName (repository +:+ "/" +:+ key)])
                 (unhandled st)).
Proof.
  intros Hfiles. simpl. unfold bind, emit, await. rewrite Hfiles. reflexivity.
Qed.

(** The code looks for the exact match at the head of the listing only: in
    a listing that is not in name order an exact match further down is passed
    over for the newest entry. *)
Example findCacheEntry_unordered :
  fst (findCacheEntry Demo.unordered_bucket ["key"] (Some "my-bucket") Demo.start)
  = Return (Some Demo.key_old).
Proof. vm_compute. reflexivity. Qed.

(** When the object named exactly [{scope}/{key}] is the first entry of the
    listing, resolution returns it, whatever the creation times of the other
    entries. *)
Lemma findCacheEntry_exact_match_first :
  forall w bucketName b key rest first others st,
    repository_known w = true ->
    storage_bucket w bucketName = Return b ->
    bucket_getFiles w b (repo w +:+ "/" +:+ key) = Return (first :: others) ->
    name first = repo w +:+ "/" +:+ key ->
    fst (findCacheEntry w (key :: rest) bucketName st) = Return (Some first).
Proof.
  intros w bucketName b key rest first others st Hrepo Hb Hfiles Hname.
  rewrite (findCacheEntry_run w _ _ b st Hrepo Hb).
  rewrite (findCacheEntry_keys_listing _ _ _ _ _ _ _ Hfiles).
  rewrite Hname, String.eqb_refl. reflexivity.
Qed.

(** *** Listings in name order *)

Lemma ascii_compare_refl a : Ascii.compare a a = Eq.
Proof.
  pose proof (Ascii.compare_antisym a a) as H.
  destruct (Ascii.compare a a); [reflexivity | discriminate H | discriminate H].
Qed.

(** A name that starts with [p] does not come before [p]. *)
Lemma prefix_not_before p :
  forall s, String.prefix p s = true -> String.ltb s p = false.
Proof.
  unfold String.ltb. induction p as [|a p IH]; intros s Hp.
  - destruct s; reflexivity.
  - destruct s as [|c s]; simpl in Hp; [discriminate|].
    destruct (ascii_dec a c) as [<-|]; [|discriminate].
    simpl. rewrite ascii_compare_refl. exact (IH s Hp).
Qed.

(** In a listing of prefix matches in name order, the object named exactly
    as the prefix stands first. *)
Lemma exact_match_is_listed_first prefix files exact :
  listed_under prefix files = true ->
  name_ordered files = true ->
  In exact files ->
  name exact = prefix ->
  exists others, files = exact :: others.
Proof.
  intros Hunder Hordered Hin Hname.
  destruct files as [|first others]; [destruct Hin|].
  destruct Hin as [-> | Hin]; [eauto|].
  simpl in Hunder, Hordered.
  apply andb_true_iff in Hunder as [Hfirst _].
  apply andb_true_iff in Hordered as [Hbefore _].
  rewrite forallb_forall in Hbefore. specialize (Hbefore exact Hin).
  rewrite Hname in Hbefore.
  rewrite (prefix_not_before prefix (name first) Hfirst) in Hbefore. discriminate Hbefore.
Qed.

(** C4. A listing as the store returns it for the prefix [{scope}/{key}]
    holds prefix matches only, in the order of their names. When such a
    listing contains the object named exactly [{scope}/{key}], resolution
    returns that object, whatever the creation times of the other entries:
    in name order the exact match stands first, which is where the code
    looks for it. *)
Theorem findCacheEntry_returns_exact_match :
  forall w bucketName b key rest files exact st,
    repository_known w = true ->
    storage_bucket w bucketName = Return b ->
    bucket_getFiles w b (repo w +:+ "/" +:+ key) = Return files ->
    listed_under (repo w +:+ "/" +:+ key) files = true ->
    name_ordered files = true ->
    In exact files ->
    name exact = repo w +:+ "/" +:+ key ->
    fst (findCacheEntry w (key :: rest) bucketName st) = Return (Some exact).
Proof.
  intros w bucketName b key rest files exact st Hrepo Hb Hfiles Hunder Hordered Hin Hname.
  destruct (exact_match_is_listed_first _ files exact Hunder Hordered Hin Hname)
    as [others ->].
  exact (findCacheEntry_exact_match_first w bucketName b key rest exact others st
           Hrepo Hb Hfiles Hname).
Qed.

Lemma findCacheEntry_returns_exact_match_witness :
  fst (findCacheEntry Demo.name_order_bucket ["key"] (Some "my-bucket") Demo.start)
  = Return (Some Demo.key_exact).
Proof.
  apply (findCacheEntry_returns_exact_match Demo.name_order_bucket (Some "my-bucket")
           "my-bucket" "key" [] [Demo.key_exact; Demo.key_new; Demo.key_old] Demo.key_exact
           Demo.start).
  - reflexivity.
  - reflexivity.
  - reflexivity.
  - reflexivity.
  - reflexivity.
  - left. reflexivity.
  - reflexivity.
Defined.

(** C9. On a host that knows its repository, when the listing of a key holds
    several entries and none is named exactly [{scope}/{key}], resolution
    returns an entry of the listing that no other entry is later than: the
    scan's comparison [newest < f] fails for every entry [f], and where the
    creation times are dates, the returned entry's time is greater than or
    equal to each of them. *)
Theorem findCacheEntry_returns_latest :
  forall w bucketName b key rest files st,
    repository_known w = true ->
    storage_bucket w bucketName = Return b ->
    bucket_getFiles w b (repo w +:+ "/" +:+ key) = Return files ->
    2 <= length files ->
    Forall (fun f => name f <> repo w +:+ "/" +:+ key) files ->
    exists newest,
      fst (findCacheEntry w (key :: rest) bucketName st) = Return (Some newest) /\
      In newest files /\
      (forall f, In f files -> Date_lt (fileTime w newest) (fileTime w f) = false) /\
      (forall f tn tf, In f files ->
         fileTime w newest = DateMs tn -> fileTime w f = DateMs tf -> (tf <= tn)%Z).
Proof.
  intros w bucketName b key rest files st Hrepo Hb Hfiles Hlen Hnone.
  destruct files as [|first others]; [simpl in Hlen; lia|].
  exists (fold_left (pickNewer w) (first :: others) first).
  assert (Hne : String.eqb (name first) (repo w +:+ "/" +:+ key) = false).
  { apply String.eqb_neq. inversion Hnone; assumption. }
  split.
  { rewrite (findCacheEntry_run w _ _ b st Hrepo Hb).
    rewrite (findCacheEntry_keys_listing _ _ _ _ _ _ _ Hfiles), Hne. reflexivity. }
  split; [apply scan_in_listing|].
  destruct (scan_spec w (first :: others) first) as [_ Hall].
  split; [exact Hall|].
  intros f tn tf Hin Hn Hf. specialize (Hall f Hin).
  unfold not_earlier in Hall. rewrite Hn, Hf in Hall. simpl in Hall.
  apply Z.ltb_ge in Hall. exact Hall.
Qed.

Lemma findCacheEntry_returns_latest_witness :
  exists newest,
    fst (findCacheEntry Demo.prefix_bucket ["key"] (Some "my-bucket") Demo.start)
      = Return (Some newest) /\
    In newest [Demo.key_new; Demo.key_old] /\
    (forall f, In f [Demo.key_new; Demo.key_old] ->
       Date_lt (fileTime Demo.prefix_bucket newest) (fileTime Demo.prefix_bucket f) = false) /\
    (forall f tn tf, In f [Demo.key_new; Demo.key_old] ->
       fileTime Demo.prefix_bucket newest = DateMs tn ->
       fileTime Demo.prefix_bucket f = DateMs tf -> (tf <= tn)%Z).
Proof.
  apply (findCacheEntry_returns_latest Demo.prefix_bucket (Some "my-bucket") "my-bucket"
           "key" [] [Demo.key_new; Demo.key_old] Demo.start).
  - reflexivity.
  - reflexivity.
  - reflexivity.
  - simpl. lia.
  - repeat constructor; discriminate.
Defined.

Example findCacheEntry_prefix_newest :
  fst (findCacheEntry Demo.prefix_bucket ["key"] (Some "my-bucket") Demo.start)
  = Return (Some Demo.key_old).
Proof. vm_compute. reflexivity. Qed.

(** *** Falling back through the keys *)

Lemma findCacheEntry_keys_empty_listing w bucketName repository key rest st :
  bucket_getFiles w bucketName (repository +:+ "/" +:+ key) = Return [] ->
  findCacheEntry_keys w bucketName repository (key :: rest) st =
  findCacheEntry_keys w bucketName repository rest
    (mkState (heap st) (log st ++ [EvGetFiles bucketName (repository +:+ "/" +:+ key)])
             (unhandled st)).
Proof. intros Hempty. rewrite (findCacheEntry_keys_listing _ _ _ _ _ _ _ Hempty). reflexivity. Qed.

Lemma findCacheEntry_keys_skips_empty w bucketName repository before :
  Forall (fun k => bucket_getFiles w bucketName (repository +:+ "/" +:+ k) = Return []) before ->
  forall rest st,
    findCacheEntry_keys w bucketName repository (before ++ rest) st =
    findCacheEntry_keys w bucketName repository rest
      (mkState (heap st)
               (log st ++ map (fun k => EvGetFiles bucketName (repository +:+ "/" +:+ k)) before)
               (unhandled st)).
Proof.
  induction 1 as [|k before Hk _ IH]; intros rest st.
  - simpl map. rewrite app_nil_r. destruct st; reflexivity.
  - simpl app. rewrite (findCacheEntry_keys_empty_listing _ _ _ _ _ _ Hk), IH.
    simpl. rewrite <- app_assoc. reflexivity.
Qed.

(** X7. The keys are tried in order, one listing each. Keys whose listing is
    empty are passed over; the first key with a non-empty listing decides the
    result, and the keys after it are never listed. When every listing is
    empty the result is "not found". *)
Theorem findCacheEntry_keys_first_listing_decides :
  forall w bucketName repository before st,
    Forall (fun k => bucket_getFiles w bucketName (repository +:+ "/" +:+ k) = Return [])
           before ->
    let listed :=
      mkState (heap st)
              (log st ++ map (fun k => EvGetFiles bucketName (repository +:+ "/" +:+ k)) before)
              (unhandled st) in
    findCacheEntry_keys w bucketName repository before st = (Return None, listed) /\
    (forall key after first others,
       bucket_getFiles w bucketName (repository +:+ "/" +:+ key) = Return (first :: others) ->
       findCacheEntry_keys w bucketName repository (before ++ key :: after) st =
       findCacheEntry_keys w bucketName repository [key] listed).
Proof.
  intros w bucketName repository before st Hempty. cbv zeta. split.
  - rewrite <- (app_nil_r before) at 1.
    rewrite (findCacheEntry_keys_skips_empty w bucketName repository before Hempty).
    reflexivity.
  - intros key after first others Hfiles.
    rewrite (findCacheEntry_keys_skips_empty w bucketName repository before Hempty).
    rewrite !(findCacheEntry_keys_listing _ _ _ _ _ _ _ Hfiles). reflexivity.
Qed.

Lemma findCacheEntry_keys_first_listing_decides_witness :
  findCacheEntry_keys Demo.fallback_bucket "my-bucket" "repo" ["exact"; "fallback"; "never"]
    Demo.start =
  findCacheEntry_keys Demo.fallback_bucket "my-bucket" "repo" ["fallback"]
    (mkState ∅ [EvGetFiles "my-bucket" "repo/exact"] []).
Proof.
  refine (proj2 (findCacheEntry_keys_first_listing_decides Demo.fallback_bucket "my-bucket"
                   "repo" ["exact"] Demo.start _) "fallback" ["never"] _ [] _).
  - constructor; [reflexivity | constructor].
  - reflexivity.
Defined.

(** X8. Resolution never makes an entry up: an entry it returns was in the
    listing of one of the candidate keys. *)
Theorem findCacheEntry_keys_result_is_listed :
  forall w bucketName repository keys st entry,
    fst (findCacheEntry_keys w bucketName repository keys st) = Return (Some entry) ->
    exists key files,
      In key keys /\
      bucket_getFiles w bucketName (repository +:+ "/" +:+ key) = Return files /\
      In entry files.
Proof.
  intros w bucketName repository keys. induction keys as [|key rest IH]; intros st entry.
  - simpl. discriminate.
  - destruct (bucket_getFiles w bucketName (repository +:+ "/" +:+ key)) as [files|e] eqn:Hfiles.
    + rewrite (findCacheEntry_keys_listing _ _ _ _ _ _ _ Hfiles).
      destruct files as [|first others].
      * intros Hrest. destruct (IH _ _ Hrest) as (k & fs & Hin & Hfs & Hentry).
        exists k, fs. split; [right; exact Hin | auto].
      * destruct (String.eqb (name first) (repository +:+ "/" +:+ key)); simpl;
          intros [= <-]; exists key, (first :: others);
          (split; [left; reflexivity|]); (split; [exact Hfiles|]).
        -- left. reflexivity.
        -- apply scan_in_listing.
    + simpl. unfold bind, emit, await. simpl. rewrite Hfiles. simpl. discriminate.
Qed.

Lemma findCacheEntry_keys_result_is_listed_witness :
  exists key files,
    In key ["key"] /\
    bucket_getFiles Demo.prefix_bucket "my-bucket" ("repo" +:+ "/" +:+ key) = Return files /\
    In Demo.key_old files.
Proof.
  apply (findCacheEntry_keys_result_is_listed Demo.prefix_bucket "my-bucket" "repo" ["key"]
           Demo.start Demo.key_old).
  reflexivity.
Defined.

(** *** Ties *)

Lemma scan_keeps_start w files :
  forall start,
    (forall f, In f files -> Date_lt (fileTime w start) (fileTime w f) = false) ->
    fold_left (pickNewer w) files start = start.
Proof.
  induction files as [|file rest IH]; intros start Hnone; [reflexivity|].
  simpl. unfold pickNewer at 2. rewrite (Hnone file (or_introl eq_refl)).
  apply IH. intros f Hin. apply Hnone. right. exact Hin.
Qed.

(** X9. The scan replaces its candidate only by a strictly later entry: when no
    entry of the listing is later than the first one (a tie at the latest
    creation time included) the entry listed first is the one returned, on a
    host that knows its repository. *)
Theorem findCacheEntry_keeps_first_on_tie :
  forall w bucketName b key rest first others st,
    repository_known w = true ->
    storage_bucket w bucketName = Return b ->
    bucket_getFiles w b (repo w +:+ "/" +:+ key) = Return (first :: others) ->
    name first <> repo w +:+ "/" +:+ key ->
    (forall f, In f others -> Date_lt (fileTime w first) (fileTime w f) = false) ->
    fst (findCacheEntry w (key :: rest) bucketName st) = Return (Some first).
Proof.
  intros w bucketName b key rest first others st Hrepo Hb Hfiles Hname Hnone.
  rewrite (findCacheEntry_run w _ _ b st Hrepo Hb).
  rewrite (findCacheEntry_keys_listing _ _ _ _ _ _ _ Hfiles).
  apply String.eqb_neq in Hname. rewrite Hname.
  rewrite scan_keeps_start; [reflexivity|].
  intros f [<- | Hin]; [|auto].
  unfold Date_lt. destruct (fileTime w first); [apply Z.ltb_irrefl | reflexivity].
Qed.

Lemma findCacheEntry_keeps_first_on_tie_witness :
  fst (findCacheEntry Demo.tie_bucket ["ke"] (Some "my-bucket") Demo.start)
  = Return (Some Demo.key_new).
Proof.
  apply (findCacheEntry_keeps_first_on_tie Demo.tie_bucket (Some "my-bucket") "my-bucket"
           "ke" [] Demo.key_new [Demo.key_exact] Demo.start).
  - reflexivity.
  - reflexivity.
  - reflexivity.
  - discriminate.
  - intros f [<- | []]. reflexivity.
Defined.

End ResolveFacts.

(* ===================================================================== *)
(** ** Structural rules of the monad *)
(* ===================================================================== *)

Module MonadFacts.

Section Respect.
Context {S : Type} (R : S -> S -> Prop).
Hypothesis R_refl : forall s, R s s.
Hypothesis R_trans : forall a b c, R a b -> R b c -> R a c.

Lemma respects_ret {A} (a : A) : respects R (ret a).
Proof. intros s. apply R_refl. Qed.

Lemma respects_throw {A} e : respects R (@throw S A e).
Proof. intros s. apply R_refl. Qed.

Lemma respects_await {A} (o : Outcome A) : respects R (await o).
Proof. intros s. apply R_refl. Qed.

Lemma respects_bind {A B} (m : St S A) (k : A -> St S B) :
  respects R m -> (forall a, respects R (k a)) -> respects R (bind m k).
Proof.
  intros Hm Hk s. unfold bind. specialize (Hm s).
  destruct (m s) as [[a|e] s1]; simpl in *; [|exact Hm].
  eapply R_trans; [exact Hm | apply Hk].
Qed.

Lemma respects_try_catch {A} (m : St S A) (h : Thrown -> St S A) :
  respects R m -> (forall e, respects R (h e)) -> respects R (try_catch m h).
Proof.
  intros Hm Hh s. unfold try_catch. specialize (Hm s).
  destruct (m s) as [[a|e] s1]; simpl in *; [exact Hm|].
  eapply R_trans; [exact Hm | apply Hh].
Qed.

Lemma respects_try_finally {A} (m : St S A) (f : St S unit) :
  respects R m -> respects R f -> respects R (try_finally m f).
Proof.
  intros Hm Hf s. unfold try_finally. specialize (Hm s).
  destruct (m s) as [r s1]; simpl in *. specialize (Hf s1).
  destruct (f s1) as [[u|e] s2]; simpl in *; eapply R_trans; eauto.
Qed.

End Respect.

Section Local.
Context {L : Type} (R : State -> State -> Prop).

Lemma respects_lift {A} (m : M A) :
  respects R m -> respects (on_snd (L:=L) R) (lift m).
Proof.
  intros Hm [l s]. unfold lift, on_snd. simpl. specialize (Hm s).
  destruct (m s) as [r s1]; exact Hm.
Qed.

Lemma respects_with_local {A} (init : L) (m : St (L * State) A) :
  respects (on_snd R) m -> respects R (with_local init m).
Proof.
  intros Hm s. unfold with_local. specialize (Hm (init, s)). unfold on_snd in Hm.
  destruct (m (init, s)) as [r ls]; exact Hm.
Qed.

Lemma respects_set_local (R_refl : forall s, R s s) (v : L) :
  respects (on_snd R) (set_local v).
Proof. intros [l s]. unfold on_snd. simpl. apply R_refl. Qed.

Lemma respects_get_local (R_refl : forall s, R s s) :
  respects (on_snd R) (get_local (L:=L)).
Proof. intros [l s]. unfold on_snd. simpl. apply R_refl. Qed.

Lemma on_snd_refl : (forall s, R s s) -> forall a : L * State, on_snd R a a.
Proof. intros H a. apply H. Qed.

Lemma on_snd_trans :
  (forall a b c, R a b -> R b c -> R a c) ->
  forall a b c : L * State, on_snd R a b -> on_snd R b c -> on_snd R a c.
Proof. intros H a b c. apply H. Qed.

End Local.

Lemma same_heap_refl s : same_heap s s.
Proof. reflexivity. Qed.

Lemma same_heap_trans a b c : same_heap a b -> same_heap b c -> same_heap a c.
Proof. unfold same_heap. congruence. Qed.

Lemma log_grows_refl P s : log_grows P s s.
Proof. exists []. split; [symmetry; apply app_nil_r | constructor]. Qed.

Lemma log_grows_trans P a b c : log_grows P a b -> log_grows P b c -> log_grows P a c.
Proof.
  intros (e1 & H1 & F1) (e2 & H2 & F2). exists (e1 ++ e2). split.
  - rewrite H2, H1. symmetry. apply app_assoc.
  - apply Forall_app. auto.
Qed.

(** What was logged before a run that only adds [P]-events, and fails [P],
    is all there is after it. *)
Lemma log_grows_old (P : Event -> Prop) s s' e :
  log_grows P s s' -> ~ P e -> In e (log s') -> In e (log s).
Proof.
  intros (evs & Hlog & Hall) Hn Hin. rewrite Hlog in Hin.
  apply in_app_or in Hin as [Hin | Hin]; [exact Hin|].
  rewrite Forall_forall in Hall. elim Hn. apply Hall.
  apply list_elem_of_In. exact Hin.
Qed.

Lemma emit_same_heap e : respects same_heap (emit e).
Proof. intros s. reflexivity. Qed.

Lemma emit_log_grows (P : Event -> Prop) e : P e -> respects (log_grows P) (emit e).
Proof. intros HP s. exists [e]. split; [reflexivity | repeat constructor; exact HP]. Qed.

Lemma floating_same_heap {A} (o : Outcome A) : respects same_heap (floating o).
Proof. intros s. destruct o; reflexivity. Qed.

Lemma floating_log_grows {A} P (o : Outcome A) : respects (log_grows P) (floating o).
Proof.
  intros s. exists []. split; [|constructor].
  destruct o; simpl; symmetry; apply app_nil_r.
Qed.

End MonadFacts.

(* ===================================================================== *)
(** ** How the helpers of cache.ts and options.ts change the state *)
(* ===================================================================== *)

Module CacheFacts.
Import MonadFacts Options Cache.

Create HintDb frame discriminated.

#[local] Hint Resolve same_heap_refl log_grows_refl on_snd_refl : frame.
#[local] Hint Extern 1 (same_heap ?a ?c) =>
  match goal with
  | H1 : same_heap a ?b, H2 : same_heap ?b c |- _ => exact (same_heap_trans _ _ _ H1 H2)
  end : frame.
#[local] Hint Extern 1 (log_grows ?P ?a ?c) =>
  match goal with
  | H1 : log_grows P a ?b, H2 : log_grows P ?b c |- _ => exact (log_grows_trans _ _ _ _ H1 H2)
  end : frame.
#[local] Hint Extern 1 (on_snd ?R ?a ?c) =>
  match goal with
  | H1 : on_snd R a ?b, H2 : on_snd R ?b c |- _ =>
      apply (on_snd_trans R) with (b := b); [ | exact H1 | exact H2]
  end : frame.
#[local] Hint Resolve respects_ret respects_throw respects_await respects_bind
  respects_try_catch respects_try_finally : frame.
#[local] Hint Resolve respects_lift respects_with_local respects_set_local
  respects_get_local : frame.
#[local] Hint Resolve emit_same_heap emit_log_grows floating_same_heap floating_log_grows : frame.
#[local] Hint Extern 1 (not_rmRF _) => reflexivity : frame.
#[local] Hint Extern 1 (not_network _) => reflexivity : frame.
#[local] Hint Extern 1 (not_warning _) => reflexivity : frame.
#[local] Hint Extern 2 (respects _ (if ?b then _ else _)) => destruct b : frame.
#[local] Hint Extern 2 (respects _ (match ?x with _ => _ end)) => destruct x : frame.
#[local] Hint Unfold core_debug core_warning run_exec io_mkdirP fs_writeFile io_rmRF : frame.

Ltac frame := cbv zeta; autounfold with frame; auto 60 with frame.

Section Helpers.
Variable w : World.

Lemma read_same_heap ref : respects same_heap (read ref).
Proof. intros s. reflexivity. Qed.

Lemma read_log_grows P ref : respects (log_grows P) (read ref).
Proof. intros s. apply log_grows_refl. Qed.

Lemma getCommonOptions_some ref s :
  getCommonOptions w (Some ref) s =
    match bucket (deref s ref) with
    | Some _ => (Return ref, s)
    | None =>
        if falsy (env w !! "ACTIONS_GCS_CACHE_BUCKET")
        then (Throw (ConfigUnsetError
                "Config Error: no bucket value provided and ACTIONS_GCS_CACHE_BUCKET environment variable is unset"), s)
        else (Return ref,
              snd (set_bucket ref (show_undefined (env w !! "ACTIONS_GCS_CACHE_BUCKET")) s))
    end.
Proof.
  unfold getCommonOptions, bind, read, ret, throw. simpl.
  destruct (bucket _); [reflexivity|].
  destruct (falsy _); reflexivity.
Qed.

Lemma getCommonOptions_none s :
  getCommonOptions w None s =
    let (ref, s0) := (fresh (dom (heap s)), snd (alloc emptyObj s)) in
    if falsy (env w !! "ACTIONS_GCS_CACHE_BUCKET")
    then (Throw (ConfigUnsetError
            "Config Error: no bucket value provided and ACTIONS_GCS_CACHE_BUCKET environment variable is unset"), s0)
    else (Return ref,
          snd (set_bucket ref (show_undefined (env w !! "ACTIONS_GCS_CACHE_BUCKET")) s0)).
Proof.
  unfold getCommonOptions, bind, read, alloc, ret, throw, deref. simpl.
  rewrite lookup_insert_eq. simpl.
  destruct (falsy _); [reflexivity|].
  unfold set_bucket, deref. simpl. rewrite lookup_insert_eq. reflexivity.
Qed.

Lemma getCommonOptions_log_grows P base : respects (log_grows P) (getCommonOptions w base).
Proof.
  intros s. exists []. split; [|constructor]. rewrite app_nil_r.
  destruct base as [ref|].
  - rewrite getCommonOptions_some.
    destruct (bucket _); [reflexivity|]. destruct (falsy _); reflexivity.
  - rewrite getCommonOptions_none. simpl. destruct (falsy _); reflexivity.
Qed.

Lemma getCommonOptions_unhandled base : respects same_unhandled (getCommonOptions w base).
Proof.
  intros s. unfold same_unhandled.
  destruct base as [ref|].
  - rewrite getCommonOptions_some.
    destruct (bucket _); [reflexivity|]. destruct (falsy _); reflexivity.
  - rewrite getCommonOptions_none. simpl. destruct (falsy _); reflexivity.
Qed.

(** Whether option resolution succeeds is decided by [bucket_configured]. *)
Lemma getCommonOptions_outcome base s :
  if bucket_configured w s base
  then exists ref, fst (getCommonOptions w base s) = Return ref
  else fst (getCommonOptions w base s) =
         Throw (ConfigUnsetError
            "Config Error: no bucket value provided and ACTIONS_GCS_CACHE_BUCKET environment variable is unset").
Proof.
  unfold bucket_configured. destruct base as [ref|].
  - rewrite getCommonOptions_some.
    destruct (bucket _); simpl; [eauto|]. destruct (falsy _); simpl; eauto.
  - rewrite getCommonOptions_none. simpl. destruct (falsy _); simpl; eauto.
Qed.

Lemma getDownloadOptions_unfold base s :
  getDownloadOptions w base s =
    match getCommonOptions w base s with
    | (Return ref, s1) =>
        (Return ref,
         match lookupOnly (deref s1 ref) with
         | None => snd (set_lookupOnly ref false s1)
         | Some _ => s1
         end)
    | (Throw e, s1) => (Throw e, s1)
    end.
Proof.
  unfold getDownloadOptions, bind at 1.
  destruct (getCommonOptions w base s) as [[ref|e] s1]; [|reflexivity].
  unfold bind, read, ret. simpl. destruct (lookupOnly _); reflexivity.
Qed.

Lemma getDownloadOptions_log_grows P base :
  respects (log_grows P) (getDownloadOptions w base).
Proof.
  intros s. rewrite getDownloadOptions_unfold.
  pose proof (getCommonOptions_log_grows P base s) as Hc.
  destruct (getCommonOptions w base s) as [[ref|e] s1]; simpl in *; [|exact Hc].
  destruct (lookupOnly _); exact Hc.
Qed.

Lemma getDownloadOptions_unhandled base : respects same_unhandled (getDownloadOptions w base).
Proof.
  intros s. rewrite getDownloadOptions_unfold.
  pose proof (getCommonOptions_unhandled base s) as Hc.
  destruct (getCommonOptions w base s) as [[ref|e] s1]; simpl in *; [|exact Hc].
  destruct (lookupOnly _); exact Hc.
Qed.

Lemma getDownloadOptions_outcome base s :
  if bucket_configured w s base
  then exists ref, fst (getDownloadOptions w base s) = Return ref
  else fst (getDownloadOptions w base s) =
         Throw (ConfigUnsetError
            "Config Error: no bucket value provided and ACTIONS_GCS_CACHE_BUCKET environment variable is unset").
Proof.
  rewrite getDownloadOptions_unfold.
  pose proof (getCommonOptions_outcome base s) as Hc.
  destruct (bucket_configured w s base).
  - destruct Hc as [ref Hc]. exists ref.
    destruct (getCommonOptions w base s) as [[r|e] s1]; simpl in *; congruence.
  - destruct (getCommonOptions w base s) as [[r|e] s1]; simpl in *; congruence.
Qed.

Lemma getZstdVersion_same_heap : respects same_heap (getZstdVersion w).
Proof. unfold getZstdVersion. frame. Qed.

Lemma getZstdVersion_log_grows (P : Event -> Prop) :
  (forall a b, P (EvExec a b)) -> (forall m, P (EvDebug m)) ->
  respects (log_grows P) (getZstdVersion w).
Proof. intros HP HD. unfold getZstdVersion. frame. Qed.

#[local] Hint Resolve read_same_heap read_log_grows getCommonOptions_log_grows
  getDownloadOptions_log_grows getZstdVersion_same_heap getZstdVersion_log_grows : frame.

Lemma getCompressionMethod_same_heap : respects same_heap (getCompressionMethod w).
Proof. unfold getCompressionMethod. frame. Qed.

Lemma getCompressionMethod_log_grows (P : Event -> Prop) :
  (forall a b, P (EvExec a b)) -> (forall m, P (EvDebug m)) ->
  respects (log_grows P) (getCompressionMethod w).
Proof. intros HP HD. unfold getCompressionMethod. frame. Qed.

Lemma resolvePaths_loop_same_heap workspace files :
  forall paths, respects same_heap (resolvePaths_loop w workspace files paths).
Proof. induction files as [|file rest IH]; intros paths; simpl; frame. Qed.

Lemma resolvePaths_loop_log_grows (P : Event -> Prop) workspace files :
  (forall m, P (EvDebug m)) ->
  forall paths, respects (log_grows P) (resolvePaths_loop w workspace files paths).
Proof. intros HD. induction files as [|file rest IH]; intros paths; simpl; frame. Qed.

#[local] Hint Resolve resolvePaths_loop_same_heap resolvePaths_loop_log_grows : frame.

Lemma resolvePaths_same_heap patterns : respects same_heap (resolvePaths w patterns).
Proof. unfold resolvePaths. frame. Qed.

Lemma resolvePaths_log_grows (P : Event -> Prop) patterns :
  (forall m, P (EvDebug m)) -> (forall g, P (EvGlob g)) ->
  respects (log_grows P) (resolvePaths w patterns).
Proof. intros HD HG. unfold resolvePaths. frame. Qed.

Lemma createTempDirectory_same_heap : respects same_heap (createTempDirectory w).
Proof. unfold createTempDirectory. frame. Qed.

Lemma createTempDirectory_log_grows (P : Event -> Prop) :
  (forall d, P (EvMkdirP d)) -> respects (log_grows P) (createTempDirectory w).
Proof. intros HM. unfold createTempDirectory. frame. Qed.

Lemma createTar_same_heap archive tempdir paths method :
  respects same_heap (createTar w archive tempdir paths method).
Proof. unfold createTar. frame. Qed.

Lemma createTar_log_grows (P : Event -> Prop) archive tempdir paths method :
  (forall a b, P (EvExec a b)) -> (forall f c, P (EvWriteFile f c)) ->
  respects (log_grows P) (createTar w archive tempdir paths method).
Proof. intros HE HW. unfold createTar. frame. Qed.

Lemma extractTar_same_heap archive : respects same_heap (extractTar w archive).
Proof. unfold extractTar. frame. Qed.

Lemma extractTar_log_grows (P : Event -> Prop) archive :
  (forall a b, P (EvExec a b)) -> (forall d, P (EvMkdirP d)) ->
  respects (log_grows P) (extractTar w archive).
Proof. intros HE HM. unfold extractTar. frame. Qed.

Lemma checkKeys_same_state keys s : snd (checkKeys keys s) = s.
Proof.
  induction keys as [|key rest IH]; simpl; [reflexivity|].
  unfold bind, checkKey. destruct (512 <? String.length key); [reflexivity|].
  simpl. exact IH.
Qed.

Lemma context_repo_repo_same_heap : respects same_heap (context_repo_repo w).
Proof. intros s. reflexivity. Qed.

Lemma context_repo_repo_log_grows P : respects (log_grows P) (context_repo_repo w).
Proof. intros s. apply log_grows_refl. Qed.

#[local] Hint Resolve context_repo_repo_same_heap context_repo_repo_log_grows : frame.

Lemma findCacheEntry_keys_same_heap bucketName repository keys :
  respects same_heap (findCacheEntry_keys w bucketName repository keys).
Proof. induction keys as [|key rest IH]; simpl; frame. Qed.

Lemma findCacheEntry_keys_same_unhandled bucketName repository keys :
  respects same_unhandled (findCacheEntry_keys w bucketName repository keys).
Proof.
  induction keys as [|key rest IH]; intros s; simpl; [reflexivity|].
  unfold bind, emit, await. simpl.
  destruct (bucket_getFiles w bucketName _) as [files|e]; simpl; [|reflexivity].
  destruct files as [|first others].
  - unfold same_unhandled in *. rewrite IH. reflexivity.
  - destruct (String.eqb _ _); reflexivity.
Qed.

Lemma findCacheEntry_keys_log_grows (P : Event -> Prop) bucketName repository keys :
  (forall b p, P (EvGetFiles b p)) ->
  respects (log_grows P) (findCacheEntry_keys w bucketName repository keys).
Proof. intros HG. induction keys as [|key rest IH]; simpl; frame. Qed.

#[local] Hint Resolve findCacheEntry_keys_same_heap findCacheEntry_keys_log_grows : frame.

Lemma findCacheEntry_same_heap keys bucketName :
  respects same_heap (findCacheEntry w keys bucketName).
Proof. unfold findCacheEntry. frame. Qed.

Lemma findCacheEntry_same_unhandled keys bucketName :
  respects same_unhandled (findCacheEntry w keys bucketName).
Proof.
  intros s. unfold findCacheEntry, bind, await, context_repo_repo.
  destruct (storage_bucket w bucketName); [|reflexivity].
  destruct (context_repo w); [|reflexivity].
  apply findCacheEntry_keys_same_unhandled.
Qed.

Lemma findCacheEntry_log_grows (P : Event -> Prop) keys bucketName :
  (forall b p, P (EvGetFiles b p)) ->
  respects (log_grows P) (findCacheEntry w keys bucketName).
Proof. intros HG. unfold findCacheEntry. frame. Qed.

#[local] Hint Resolve getCompressionMethod_same_heap getCompressionMethod_log_grows
  resolvePaths_same_heap resolvePaths_log_grows
  createTempDirectory_same_heap createTempDirectory_log_grows
  createTar_same_heap createTar_log_grows
  extractTar_same_heap extractTar_log_grows
  findCacheEntry_same_heap findCacheEntry_log_grows : frame.

(** Nothing [saveCache] does removes anything: every event it adds to the
    log is something other than an [rmRF]. *)
Lemma saveCache_log_grows paths key options :
  respects (log_grows not_rmRF) (saveCache w paths key options).
Proof. unfold saveCache, getUploadOptions. frame. Qed.

End Helpers.

#[local] Hint Resolve read_same_heap read_log_grows getCommonOptions_log_grows
  getDownloadOptions_log_grows
  context_repo_repo_same_heap context_repo_repo_log_grows
  getCompressionMethod_same_heap getCompressionMethod_log_grows
  resolvePaths_same_heap resolvePaths_log_grows
  createTempDirectory_same_heap createTempDirectory_log_grows
  createTar_same_heap createTar_log_grows
  extractTar_same_heap extractTar_log_grows
  findCacheEntry_same_heap findCacheEntry_log_grows : frame.

(** *** Running a sequence whose first step is known *)

Lemma bind_returns {S A B} (m : St S A) (k : A -> St S B) s a :
  fst (m s) = Return a -> bind m k s = k a (snd (m s)).
Proof. unfold bind. destruct (m s) as [r s1]; simpl. intros ->. reflexivity. Qed.

Lemma bind_throws {S A B} (m : St S A) (k : A -> St S B) s e :
  fst (m s) = Throw e -> bind m k s = (Throw e, snd (m s)).
Proof. unfold bind. destruct (m s) as [r s1]; simpl. intros ->. reflexivity. Qed.

(** Reading the repository name on a host that knows it. *)
Lemma bind_context_repo_repo {B} w (k : string -> M B) s :
  repository_known w = true -> bind (context_repo_repo w) k s = k (repo w) s.
Proof.
  intros Hrepo. unfold bind, context_repo_repo.
  rewrite (ResolveFacts.repository_known_repo w Hrepo). reflexivity.
Qed.

(** [try { m } catch (e) {}] completes normally, whatever [m] does. *)
Lemma try_catch_swallow {S} (m : St S unit) s :
  fst (try_catch m (fun _ => ret tt) s) = Return tt.
Proof. unfold try_catch, ret. destruct (m s) as [[[]|e] s1]; reflexivity. Qed.

Section Save.
Variable w : World.

Lemma getCommonOptions_bucket_set base s ref :
  fst (getCommonOptions w base s) = Return ref ->
  exists b, bucket (deref (snd (getCommonOptions w base s)) ref) = Some b.
Proof.
  destruct base as [r|].
  - rewrite getCommonOptions_some.
    destruct (bucket (deref s r)) as [b|] eqn:Hb.
    + simpl. intros [= <-]. eauto.
    + destruct (falsy _); simpl; [discriminate|]. intros [= <-].
      unfold deref. simpl. rewrite lookup_insert_eq. simpl. eauto.
  - rewrite getCommonOptions_none. simpl.
    destruct (falsy _); simpl; [discriminate|]. intros [= <-].
    unfold deref. simpl. rewrite lookup_insert_eq. simpl. eauto.
Qed.

Lemma getCompressionMethod_returns s :
  exists m, fst (getCompressionMethod w s) = Return m.
Proof.
  unfold getCompressionMethod, getZstdVersion, bind, try_catch, run_exec, core_debug,
    emit, await, ret. simpl.
  destruct (exec_result _); simpl; destruct (String.eqb _ _); simpl; eauto.
Qed.

Lemma resolvePaths_loop_returns workspace files :
  forall paths s,
    exists l, fst (resolvePaths_loop w workspace files paths s) = Return l /\
              length l = length paths + length files.
Proof.
  induction files as [|file rest IH]; intros paths s; simpl.
  - exists paths. split; [reflexivity | lia].
  - unfold bind, core_debug, emit. simpl.
    destruct (String.eqb _ _);
      match goal with
      | |- context [resolvePaths_loop w workspace rest ?p ?s'] =>
          destruct (IH p s') as (l & Hl & Hlen)
      end; exists l; (split; [exact Hl|]); rewrite Hlen, length_app; simpl; lia.
Qed.

Lemma resolvePaths_returns patterns s :
  snd (glob w (join newline patterns)) = None ->
  exists l, fst (resolvePaths w patterns s) = Return l /\
            length l = length (fst (glob w (join newline patterns))).
Proof.
  intros Hok. unfold resolvePaths.
  rewrite (bind_returns (emit _) _ _ tt eq_refl). cbv beta zeta.
  match goal with
  | |- context [bind (resolvePaths_loop w ?ws ?fs ?p) _ ?s'] =>
      destruct (resolvePaths_loop_returns ws fs p s') as (l & Hl & Hlen)
  end.
  rewrite (bind_returns _ _ _ _ Hl), Hok. exists l. split; [reflexivity | exact Hlen].
Qed.

Lemma createTempDirectory_returns s :
  (forall d, mkdirP w d = Return tt) ->
  exists d, fst (createTempDirectory w s) = Return d.
Proof.
  intros Hmk. unfold createTempDirectory, io_mkdirP, bind, emit, await, ret. simpl.
  rewrite Hmk. eauto.
Qed.

Lemma createTar_returns archive tempdir paths method s :
  (forall f c, writeFile w f c = Return tt) ->
  (forall a, exists code, exec_result (exec w "tar" a) = Return code) ->
  fst (createTar w archive tempdir paths method s) = Return tt /\
  unhandled (snd (createTar w archive tempdir paths method s)) = unhandled s.
Proof.
  intros Hwr Hex. unfold createTar, fs_writeFile, run_exec, bind, emit, await, ret. simpl.
  rewrite Hwr. simpl.
  destruct (Hex (createTar_args archive (path_join w [tempdir; "manifest.txt"]) method))
    as [code ->].
  split; reflexivity.
Qed.

End Save.

(** C1. Whenever option and path resolution succeed with a non-empty path
    list, the temporary directory is created and the host knows its
    repository, [saveCache] ends by throwing the string "not implemented":
    also when the archive is built and the upload succeeds. When the upload fails, its error is not what the caller
    gets: the rejection is left unhandled and the same string is thrown. *)
Theorem saveCache_throws_not_implemented :
  forall w paths key options st,
    bucket_configured w st options = true ->
    fst (glob w (join newline paths)) <> [] ->
    snd (glob w (join newline paths)) = None ->
    (forall d, mkdirP w d = Return tt) ->
    repository_known w = true ->
    fst (saveCache w paths key options st) = Throw (ThrownString "not implemented") /\
    (forall e,
       (forall f c, writeFile w f c = Return tt) ->
       (forall a, exists code, exec_result (exec w "tar" a) = Return code) ->
       (forall b, exists h, storage_bucket w (Some b) = Return h) ->
       (forall b a d c, bucket_upload w b a d c = Throw e) ->
       In e (unhandled (snd (saveCache w paths key options st)))).
Proof.
  intros w paths key options st Hconf Hne Hglob Hmk Hrepo.
  unfold saveCache, getUploadOptions.
  pose proof (getCommonOptions_outcome w options st) as Hopt. rewrite Hconf in Hopt.
  destruct Hopt as [ref Href]. rewrite (bind_returns _ _ _ _ Href). cbv beta.
  destruct (getCommonOptions_bucket_set w options st ref Href) as [b Hb].
  set (s1 := snd (getCommonOptions w options st)) in *.
  destruct (getCompressionMethod_returns w s1) as [m Hm].
  assert (Hh1 : heap (snd (getCompressionMethod w s1)) = heap s1)
    by apply getCompressionMethod_same_heap.
  rewrite (bind_returns _ _ _ _ Hm). cbv beta.
  set (s2 := snd (getCompressionMethod w s1)) in *.
  destruct (resolvePaths_returns w paths s2 Hglob) as (cachePaths & Hres & Hlen).
  assert (Hh2 : heap (snd (resolvePaths w paths s2)) = heap s2)
    by apply resolvePaths_same_heap.
  rewrite (bind_returns _ _ _ _ Hres). cbv beta.
  set (s3 := snd (resolvePaths w paths s2)) in *.
  rewrite (bind_returns (core_debug _) _ _ tt eq_refl). cbv beta.
  assert (Hnz : (length cachePaths =? 0) = false).
  { apply Nat.eqb_neq. rewrite Hlen. destruct (fst (glob w _)); [congruence | simpl; lia]. }
  rewrite Hnz.
  match goal with
  | |- context [bind (createTempDirectory w) _ ?s] =>
      destruct (createTempDirectory_returns w s Hmk) as [tempdir Htmp];
      assert (Hh3 : heap (snd (createTempDirectory w s)) = heap s)
        by apply createTempDirectory_same_heap;
      rewrite (bind_returns _ _ _ _ Htmp); cbv beta zeta;
      set (s4 := snd (createTempDirectory w s)) in *
  end.
  rewrite (bind_context_repo_repo w _ _ Hrepo).
  rewrite (bind_returns (core_debug _) _ _ tt eq_refl). cbv beta.
  split.
  - rewrite (bind_returns _ _ _ tt (try_catch_swallow _ _)). reflexivity.
  - intros e Hwr Hex Hbk Hup.
    rewrite (bind_returns _ _ _ tt (try_catch_swallow _ _)). unfold throw at 1. simpl.
    unfold try_catch.
    match goal with
    | |- context [bind (createTar w ?a ?t ?p ?mm) _ ?s] =>
        destruct (createTar_returns w a t p mm s Hwr Hex) as [Hct Hun];
        assert (Hh4 : heap (snd (createTar w a t p mm s)) = heap s)
          by apply createTar_same_heap;
        rewrite (bind_returns _ _ _ _ Hct); cbv beta
    end.
    unfold read at 1. unfold bind at 1. unfold deref.
    rewrite Hh4. simpl heap. rewrite Hh3. simpl heap. rewrite Hh2, Hh1.
    unfold deref in Hb. rewrite Hb.
    destruct (Hbk b) as [h Hh]. simpl. unfold bind, await, emit, floating. rewrite Hh.
    simpl. rewrite Hup. simpl. apply in_or_app. right. left. reflexivity.
Qed.

Lemma saveCache_throws_not_implemented_witness :
  fst (saveCache Demo.linux ["dist"] "key" None Demo.start)
  = Throw (ThrownString "not implemented").
Proof.
  refine (proj1 (saveCache_throws_not_implemented Demo.linux ["dist"] "key" None Demo.start
                   _ _ _ _ _)).
  - reflexivity.
  - discriminate.
  - reflexivity.
  - reflexivity.
  - reflexivity.
Defined.

Example saveCache_successful_upload :
  saveCache Demo.linux ["dist"] "key" None Demo.start =
  (Throw (ThrownString "not implemented"),
   mkState {[ 0 := mkOptions (Some "my-bucket") None ]}
     [ EvDebug "Checking zstd --quiet --version";
       EvExec "zstd" ["--quiet"; "--version"];
       EvGlob "dist";
       EvDebug "Matched: dist";
       EvDebug "Cache Paths: [dist]";
       EvMkdirP "/tmp/0000";
       EvDebug "Archive Path: /tmp/0000/cache.tar.gzip";
       EvWriteFile "/tmp/0000/manifest.txt" "dist";
       EvExec "tar" ["cf"; "/tmp/0000/cache.tar.gzip"; "--files-from";
                     "/tmp/0000/manifest.txt"; "--gzip"];
       EvUpload "my-bucket" "/tmp/0000/cache.tar.gzip" "repo/key"
                "application/x-actions-cache-gcs-gzip" ]
     []).
Proof. vm_compute. reflexivity. Qed.

Example saveCache_failed_upload :
  let r := saveCache Demo.upload_fails ["dist"] "key" None Demo.start in
  fst r = Throw (ThrownString "not implemented") /\
  unhandled (snd r) = [Error "upload failed"].
Proof. vm_compute. split; reflexivity. Qed.

(** C8. [saveCache] never releases the temporary workspace: on every exit
    path all it adds to the log are events other than a removal, so the
    directory [createTempDirectory] made is still there when it ends. *)
Theorem saveCache_removes_nothing :
  forall w paths key options st,
    exists evs,
      log (snd (saveCache w paths key options st)) = log st ++ evs /\
      Forall (fun e => is_rmRF e = false) evs.
Proof.
  intros w paths key options st.
  exact (saveCache_log_grows w paths key options st).
Qed.

Example saveCache_leaves_temp_directory :
  let st' := snd (saveCache Demo.linux ["dist"] "key" None Demo.start) in
  In (EvMkdirP "/tmp/0000") (log st') /\
  forallb (fun e => negb (is_rmRF e)) (log st') = true.
Proof. vm_compute. split; [|reflexivity]. do 5 right. left. reflexivity. Qed.

(** *** Key validation *)

Lemma checkKeys_rejects keys s k :
  In k keys -> 512 < String.length k ->
  exists msg, fst (checkKeys keys s) = Throw (ValidationError msg).
Proof.
  induction keys as [|key rest IH]; intros Hin Hlen; [destruct Hin|].
  simpl. unfold bind, checkKey.
  destruct (512 <? String.length key) eqn:Hk; simpl; [eauto|].
  destruct Hin as [-> | Hin]; [|auto].
  apply Nat.ltb_ge in Hk. lia.
Qed.

Lemma checkKeys_accepts keys s :
  Forall (fun k => String.length k <= 512) keys ->
  checkKeys keys s = (Return tt, s).
Proof.
  induction 1 as [|key rest Hk _ IH]; simpl; [reflexivity|].
  unfold bind, checkKey.
  destruct (512 <? String.length key) eqn:Hlt; [apply Nat.ltb_lt in Hlt; lia|].
  simpl. exact IH.
Qed.

Lemma checkKeys_same_heap keys : respects same_heap (checkKeys keys).
Proof. intros s. unfold same_heap. rewrite checkKeys_same_state. reflexivity. Qed.

#[local] Hint Resolve checkKeys_same_heap : frame.

Example saveCache_oversized_key_is_uploaded :
  let r := saveCache Demo.linux ["dist"] Demo.long_key None Demo.start in
  fst r = Throw (ThrownString "not implemented") /\
  In (EvUpload "my-bucket" "/tmp/0000/cache.tar.gzip" ("repo/" +:+ Demo.long_key)
               "application/x-actions-cache-gcs-gzip") (log (snd r)).
Proof. vm_compute. split; [reflexivity|]. do 9 right. left. reflexivity. Qed.

(** A key longer than 512 characters anywhere in the candidate list makes
    [restoreCache] reject before any call to the remote store: with a
    ValidationError when a bucket is configured, with the ConfigUnsetError of
    option resolution, which comes first, when none is. *)
Lemma restoreCache_rejects_oversized_key :
  forall w paths primaryKey restoreKeys options st k,
    In k (primaryKey :: default [] restoreKeys) ->
    512 < String.length k ->
    (exists msg,
       fst (restoreCache w paths primaryKey restoreKeys options st) =
       Throw (if bucket_configured w st options
              then ValidationError msg else ConfigUnsetError msg)) /\
    (exists evs,
       log (snd (restoreCache w paths primaryKey restoreKeys options st)) = log st ++ evs /\
       Forall (fun e => is_network e = false) evs).
Proof.
  intros w paths primaryKey restoreKeys options st k Hin Hlen.
  unfold restoreCache.
  pose proof (getDownloadOptions_outcome w options st) as Hopt.
  pose proof (getDownloadOptions_log_grows w not_network options st) as Hlog.
  destruct (bucket_configured w st options).
  - destruct Hopt as [ref Href]. rewrite (bind_returns _ _ _ _ Href). cbv beta zeta.
    set (s1 := snd (getDownloadOptions w options st)) in *.
    rewrite (bind_returns (core_debug _) _ _ tt eq_refl). cbv beta.
    set (s2 := snd (core_debug _ s1)).
    assert (Hlog2 : log_grows not_network st s2).
    { eapply log_grows_trans; [exact Hlog|]. apply emit_log_grows. reflexivity. }
    destruct (10 <? length (primaryKey :: default [] restoreKeys)).
    + split; [eexists; reflexivity | exact Hlog2].
    + destruct (checkKeys_rejects _ s2 k Hin Hlen) as [msg Hmsg].
      rewrite (bind_throws _ _ _ _ Hmsg), checkKeys_same_state.
      split; [exists msg; reflexivity | exact Hlog2].
  - rewrite (bind_throws _ _ _ _ Hopt). split; [eexists; reflexivity | exact Hlog].
Qed.

(** *** The caller's options object *)

Lemma saveCache_body_same_heap :
  forall w paths key options s,
    heap (snd (saveCache w paths key options s)) =
    heap (snd (getUploadOptions w options s)).
Proof.
  intros w paths key options s. unfold saveCache, bind at 1.
  destruct (getUploadOptions w options s) as [[ref|e] s1]; [|reflexivity].
  simpl snd at 2.
  match goal with
  | |- heap (snd (?m s1)) = _ => assert (Hm : respects same_heap m) by frame
  end.
  apply Hm.
Qed.

Lemma restoreCache_body_same_heap :
  forall w paths primaryKey restoreKeys options s,
    heap (snd (restoreCache w paths primaryKey restoreKeys options s)) =
    heap (snd (getDownloadOptions w options s)).
Proof.
  intros w paths primaryKey restoreKeys options s. unfold restoreCache, bind at 1.
  destruct (getDownloadOptions w options s) as [[ref|e] s1]; [|reflexivity].
  simpl snd at 2.
  match goal with
  | |- heap (snd (?m s1)) = _ => assert (Hm : respects same_heap m) by frame
  end.
  apply Hm.
Qed.

Lemma falsy_nonempty v : v <> "" -> falsy (Some v) = false.
Proof. intros Hv. simpl. apply String.eqb_neq. exact Hv. Qed.

Example restoreCache_without_bucket_leaves_options :
  restoreCache Demo.no_bucket ["dist"] "key" None (Some 0) (Demo.start_with Options.emptyObj) =
  (Throw (ConfigUnsetError
     "Config Error: no bucket value provided and ACTIONS_GCS_CACHE_BUCKET environment variable is unset"),
   Demo.start_with Options.emptyObj).
Proof. vm_compute. reflexivity. Qed.

(** C10, as stated: a call with an options object whose bucket is unset
    assigns it the value of ACTIONS_GCS_CACHE_BUCKET, [restoreCache] also
    sets an undefined lookupOnly to false, and the caller sees a modified
    object. When the variable is unset the call throws ConfigUnsetError
    before any assignment and the object is as it was. *)
Lemma options_object_untouched_when_variable_unset :
  ~ (forall w paths key primaryKey restoreKeys ref o st,
       heap st !! ref = Some o ->
       bucket o = None ->
       (exists o',
          heap (snd (saveCache w paths key (Some ref) st)) !! ref = Some o' /\
          bucket o' = env w !! "ACTIONS_GCS_CACHE_BUCKET" /\ o' <> o) /\
       (exists o',
          heap (snd (restoreCache w paths primaryKey restoreKeys (Some ref) st)) !! ref
            = Some o' /\
          bucket o' = env w !! "ACTIONS_GCS_CACHE_BUCKET" /\
          lookupOnly o' = Some (default false (lookupOnly o)) /\ o' <> o)).
Proof.
  intros H.
  destruct (H Demo.no_bucket ["dist"] "key" "key" None 0 Options.emptyObj
              (Demo.start_with Options.emptyObj) eq_refl eq_refl)
    as [_ (o' & Hheap & _ & Hlookup & _)].
  rewrite restoreCache_without_bucket_leaves_options in Hheap.
  vm_compute in Hheap. injection Hheap as <-. discriminate Hlookup.
Qed.

(** Without the variable both calls stop in option resolution, and the
    state, the caller's object included, is what it was. *)
Lemma options_object_kept_when_unconfigured :
  forall w paths key primaryKey restoreKeys ref o st,
    heap st !! ref = Some o ->
    bucket o = None ->
    falsy (env w !! "ACTIONS_GCS_CACHE_BUCKET") = true ->
    exists msg,
      saveCache w paths key (Some ref) st = (Throw (ConfigUnsetError msg), st) /\
      restoreCache w paths primaryKey restoreKeys (Some ref) st
      = (Throw (ConfigUnsetError msg), st).
Proof.
  intros w paths key primaryKey restoreKeys ref o st Hobj Hnone Henv.
  eexists. split.
  - unfold saveCache, getUploadOptions, bind at 1. rewrite getCommonOptions_some.
    unfold deref. rewrite Hobj. simpl. rewrite Hnone, Henv. reflexivity.
  - unfold restoreCache, bind at 1. rewrite getDownloadOptions_unfold, getCommonOptions_some.
    unfold deref. rewrite Hobj. simpl. rewrite Hnone, Henv. reflexivity.
Qed.

(** C10, amended: when the caller's options object has no bucket and
    ACTIONS_GCS_CACHE_BUCKET is set to a non-empty value, the call writes
    into that very object: after [saveCache] its bucket is the variable's
    value, and after [restoreCache] so is its bucket and an undefined
    lookupOnly has become false. When the variable is unset or empty, both
    [saveCache] and [restoreCache] throw the ConfigUnsetError before any
    assignment: the state they end in is the one they started in, so the
    object is as it was. *)
Theorem options_object_mutated_in_place :
  forall w paths key primaryKey restoreKeys ref o st,
    heap st !! ref = Some o ->
    bucket o = None ->
    (forall v,
       env w !! "ACTIONS_GCS_CACHE_BUCKET" = Some v ->
       v <> "" ->
       heap (snd (saveCache w paths key (Some ref) st)) !! ref
         = Some (mkOptions (Some v) (lookupOnly o)) /\
       heap (snd (restoreCache w paths primaryKey restoreKeys (Some ref) st)) !! ref
         = Some (mkOptions (Some v) (Some (default false (lookupOnly o))))) /\
    (falsy (env w !! "ACTIONS_GCS_CACHE_BUCKET") = true ->
     exists msg,
       (saveCache w paths key (Some ref) st = (Throw (ConfigUnsetError msg), st) /\
        restoreCache w paths primaryKey restoreKeys (Some ref) st
        = (Throw (ConfigUnsetError msg), st)) /\
       heap (snd (saveCache w paths key (Some ref) st)) !! ref = Some o /\
       heap (snd (restoreCache w paths primaryKey restoreKeys (Some ref) st)) !! ref = Some o).
Proof.
  intros w paths key primaryKey restoreKeys ref o st Hobj Hnone. split.
  - intros v Henv Hv.
    assert (Hcommon : getCommonOptions w (Some ref) st =
                      (Return ref, snd (set_bucket ref v st))).
    { rewrite getCommonOptions_some. unfold deref. rewrite Hobj. simpl. rewrite Hnone, Henv.
      rewrite (falsy_nonempty v Hv). reflexivity. }
    split.
    + rewrite saveCache_body_same_heap. unfold getUploadOptions. rewrite Hcommon.
      unfold set_bucket, deref. simpl. rewrite Hobj. apply lookup_insert_eq.
    + rewrite restoreCache_body_same_heap, getDownloadOptions_unfold, Hcommon.
      unfold set_bucket, set_lookupOnly, deref. simpl.
      rewrite Hobj, lookup_insert_eq. simpl.
      destruct (lookupOnly o) as [b|]; simpl.
      * apply lookup_insert_eq.
      * rewrite ?lookup_insert_eq. reflexivity.
  - intros Henv.
    destruct (options_object_kept_when_unconfigured w paths key primaryKey restoreKeys ref o st
                Hobj Hnone Henv) as (msg & Hsave & Hrestore).
    exists msg. split; [split; assumption|].
    rewrite Hsave, Hrestore. split; exact Hobj.
Qed.

Lemma options_object_mutated_in_place_witness :
  (heap (snd (saveCache Demo.linux ["dist"] "key" (Some 0) (Demo.start_with Options.emptyObj)))
     !! 0 = Some (mkOptions (Some "my-bucket") None) /\
   heap (snd (restoreCache Demo.linux ["dist"] "key" None (Some 0)
                (Demo.start_with Options.emptyObj)))
     !! 0 = Some (mkOptions (Some "my-bucket") (Some false))) /\
  (exists msg,
     (saveCache Demo.no_bucket ["dist"] "key" (Some 0) (Demo.start_with Options.emptyObj)
      = (Throw (ConfigUnsetError msg), Demo.start_with Options.emptyObj) /\
      restoreCache Demo.no_bucket ["dist"] "key" None (Some 0)
        (Demo.start_with Options.emptyObj)
      = (Throw (ConfigUnsetError msg), Demo.start_with Options.emptyObj)) /\
     heap (snd (saveCache Demo.no_bucket ["dist"] "key" (Some 0)
                  (Demo.start_with Options.emptyObj))) !! 0 = Some Options.emptyObj /\
     heap (snd (restoreCache Demo.no_bucket ["dist"] "key" None (Some 0)
                  (Demo.start_with Options.emptyObj))) !! 0 = Some Options.emptyObj).
Proof.
  split.
  - apply (proj1 (options_object_mutated_in_place Demo.linux ["dist"] "key" "key" None 0
                    Options.emptyObj (Demo.start_with Options.emptyObj) eq_refl eq_refl)
             "my-bucket").
    + reflexivity.
    + discriminate.
  - apply (proj2 (options_object_mutated_in_place Demo.no_bucket ["dist"] "key" "key" None 0
                    Options.emptyObj (Demo.start_with Options.emptyObj) eq_refl eq_refl)).
    reflexivity.
Defined.

(** *** A restore that finds its entry *)

Lemma substring_from_app r s : substring_from (String.length r) (r +:+ s) = s.
Proof. induction r as [|a r IH]; simpl; [destruct s; reflexivity | exact IH]. Qed.

Lemma prefix_app p s : String.prefix p (p +:+ s) = true.
Proof.
  induction p as [|a p IH]; simpl; [destruct s; reflexivity|].
  destruct (ascii_dec a a); [exact IH | congruence].
Qed.

Lemma getCommonOptions_lookupOnly w options st ref :
  fst (getCommonOptions w options st) = Return ref ->
  lookupOnly (deref (snd (getCommonOptions w options st)) ref) =
    match options with
    | Some r => lookupOnly (deref st r)
    | None => None
    end.
Proof.
  destruct options as [r|].
  - rewrite getCommonOptions_some.
    destruct (bucket (deref st r)); [simpl; intros [= <-]; reflexivity|].
    destruct (falsy _); simpl; [discriminate|]. intros [= <-].
    unfold deref at 1. simpl. rewrite lookup_insert_eq. reflexivity.
  - rewrite getCommonOptions_none. simpl.
    destruct (falsy _); simpl; [discriminate|]. intros [= <-].
    unfold deref at 1. simpl. rewrite lookup_insert_eq. simpl.
    unfold deref. simpl. rewrite lookup_insert_eq. reflexivity.
Qed.

Lemma getDownloadOptions_fields w options st ref :
  fst (getDownloadOptions w options st) = Return ref ->
  let s1 := snd (getDownloadOptions w options st) in
  (exists b, bucket (deref s1 ref) = Some b) /\
  lookupOnly (deref s1 ref) = Some (lookup_only_requested st options).
Proof.
  rewrite getDownloadOptions_unfold.
  pose proof (getCommonOptions_bucket_set w options st) as Hbucket.
  pose proof (getCommonOptions_lookupOnly w options st) as Hlookup.
  destruct (getCommonOptions w options st) as [[r|e] s0] eqn:Hc; simpl; [|discriminate].
  intros [= ->]. destruct (Hbucket ref eq_refl) as [b Hb]. simpl in Hb.
  specialize (Hlookup ref eq_refl). simpl in Hlookup.
  unfold lookup_only_requested.
  destruct (lookupOnly (deref s0 ref)) as [lo|] eqn:Hlo.
  - split; [eauto|]. rewrite Hlo. destruct options; [rewrite <- Hlookup|]; try discriminate.
    reflexivity.
  - unfold deref at 1 3. simpl. rewrite lookup_insert_eq. simpl. split; [eauto|].
    destruct options; [rewrite <- Hlookup|]; reflexivity.
Qed.

Lemma extractTar_run w archive s :
  mkdirP w (getWorkingDirectory w) = Return tt ->
  extractTar w archive s =
    (Return tt,
     mkState (heap s)
       (log s ++ [EvMkdirP (getWorkingDirectory w)] ++ [EvExec "tar" ["xf"; archive]])
       (unhandled s ++ match exec_result (exec w "tar" ["xf"; archive]) with
                       | Throw e => [e]
                       | Return _ => []
                       end)).
Proof.
  intros Hmk. unfold extractTar, io_mkdirP, try_catch, bind, emit, await, floating. simpl.
  rewrite Hmk. simpl. rewrite <- app_assoc.
  destruct (exec_result _); simpl; [rewrite app_nil_r|]; reflexivity.
Qed.

Lemma createTempDirectory_run w s :
  (forall d, mkdirP w d = Return tt) ->
  exists dest,
    createTempDirectory w s =
      (Return dest, mkState (heap s) (log s ++ [EvMkdirP dest]) (unhandled s)).
Proof.
  intros Hmk. unfold createTempDirectory, io_mkdirP, bind, emit, await, ret. simpl.
  rewrite Hmk. eexists. reflexivity.
Qed.

(** The content-type tag [saveCache] writes passes the checks of [restoreCache]. *)
Lemma content_type_tag_accepted method :
  let tag := ContentTypePrefix +:+ method_string method in
  falsy (Some tag) = false /\
  startsWith tag ContentTypePrefix = true /\
  substring_from (String.length ContentTypePrefix) tag = method_string method /\
  negb (String.eqb (method_string method) "zstd")
    && negb (String.eqb (method_string method) "gzip") = false.
Proof. destruct method; repeat split; reflexivity. Qed.

Lemma falsy_destination tmpdir suffix :
  falsy (Some (tmpdir +:+ "/cache.tar." +:+ suffix)) = false.
Proof. simpl. destruct tmpdir; reflexivity. Qed.

Section Hit.
Variables (w : World) (paths : list string) (primaryKey : string)
  (restoreKeys : option (list string)) (options : option nat) (st : State)
  (entry : File) (method : CompressionMethod).

Let keys := primaryKey :: default [] restoreKeys.

Hypothesis Hconfigured : bucket_configured w st options = true.
Hypothesis Hcount : length keys <= 10.
Hypothesis Hsizes : Forall (fun k => String.length k <= 512) keys.
Hypothesis Hfound :
  forall b s, fst (findCacheEntry w keys (Some b) s) = Return (Some entry).
Hypothesis Htag : contentType entry = Some (ContentTypePrefix +:+ method_string method).
Hypothesis Hmkdir : forall d, mkdirP w d = Return tt.
Hypothesis Hdownload : forall d, file_download w entry d = Return tt.

Lemma restoreCache_hit_run :
  exists final,
    restoreCache w paths primaryKey restoreKeys options st =
      (Return (Some (substring_from (String.length (repo w)) (name entry))), final) /\
    log_grows not_warning st final /\
    (lookup_only_requested st options = false ->
     forall e, (forall a, exec_result (exec w "tar" a) = Throw e) ->
               In e (unhandled final)).
Proof.
  pose proof (ResolveFacts.findCacheEntry_returns_repository_known w keys (Some "") st _
                (Hfound "" st)) as Hrepo.
  unfold restoreCache.
  pose proof (getDownloadOptions_outcome w options st) as Hopt. rewrite Hconfigured in Hopt.
  destruct Hopt as [ref Href].
  destruct (getDownloadOptions_fields w options st ref Href) as [[b Hb] Hlo].
  pose proof (getDownloadOptions_log_grows w not_warning options st) as Hlog1.
  rewrite (bind_returns _ _ _ _ Href). cbv beta zeta.
  set (s1 := snd (getDownloadOptions w options st)) in *.
  rewrite (bind_returns (core_debug _) _ _ tt eq_refl). cbv beta.
  set (s2 := snd (core_debug _ s1)).
  assert (Hlog2 : log_grows not_warning st s2).
  { eapply log_grows_trans; [exact Hlog1|]. apply emit_log_grows. reflexivity. }
  assert (Hheap2 : heap s2 = heap s1) by reflexivity.
  fold keys.
  assert (Hle : (10 <? length keys) = false) by (apply Nat.ltb_ge; exact Hcount).
  rewrite Hle. unfold bind at 1. rewrite (checkKeys_accepts keys s2 Hsizes).
  cbv beta iota. rewrite (bind_context_repo_repo w _ _ Hrepo).
  unfold with_local, try_finally, try_catch.
  unfold bind at 1. unfold lift at 1, read at 1. simpl fst. simpl snd.
  assert (Hd2 : deref s2 ref = deref s1 ref) by reflexivity.
  rewrite Hd2, Hb.
  unfold bind at 1. unfold lift at 1. simpl snd. simpl fst.
  pose proof (Hfound b s2) as Hf.
  pose proof (findCacheEntry_same_heap w keys (Some b) s2) as Hheap3.
  pose proof (findCacheEntry_log_grows w not_warning keys (Some b)
                (fun _ _ => eq_refl) s2) as Hlog3.
  pose proof (findCacheEntry_same_unhandled w keys (Some b) s2) as Hun3.
  destruct (findCacheEntry w keys (Some b) s2) as [r s3]. simpl in Hf, Hheap3, Hlog3, Hun3.
  subst r. rewrite Htag.
  destruct (content_type_tag_accepted method) as (Hc1 & Hc2 & Hc3 & Hc4).
  cbv zeta in Hc1, Hc2, Hc3, Hc4. cbn [show_undefined].
  rewrite Hc1, Hc2, Hc3, Hc4. cbn [negb].
  unfold bind at 1. unfold lift at 1, read at 1. simpl fst. simpl snd.
  assert (Hd3 : deref s3 ref = deref s1 ref).
  { unfold deref. rewrite Hheap3, Hheap2. reflexivity. }
  rewrite Hd3, Hlo.
  assert (Hlog13 : log_grows not_warning st s3) by (eapply log_grows_trans; eassumption).
  destruct (lookup_only_requested st options); cbn [default from_option id negb].
  - unfold bind, ret, get_local. simpl.
    exists s3. split; [reflexivity|]. split; [exact Hlog13 | discriminate].
  - unfold bind at 1. unfold bind at 1. unfold lift at 1. simpl snd. simpl fst.
    destruct (createTempDirectory_run w s3 Hmkdir) as [dest ->].
    unfold bind at 1. unfold set_local at 1. simpl snd.
    unfold bind at 1. unfold lift at 1. simpl snd. simpl fst.
    unfold bind at 1, emit at 1, await at 1. simpl. rewrite Hdownload.
    unfold lift at 1. simpl. rewrite (extractTar_run _ _ _ (Hmkdir _)).
    unfold ret at 1. unfold get_local at 1. simpl.
    unfold bind at 1. cbn [fst snd]. rewrite falsy_destination. cbn [negb show_undefined].
    unfold lift, io_rmRF, core_debug, bind, emit, await. cbn [fst snd heap log unhandled].
    destruct (rmRF w _) as [[]|failure]; cbn [fst snd heap log unhandled];
      (eexists; split; [reflexivity|]; split;
       [ eapply log_grows_trans; [exact Hlog13|];
         eexists; split;
         [ cbn [log]; rewrite <- !app_assoc; reflexivity
         | repeat constructor ]
       | intros _ e He; cbn [unhandled]; rewrite He;
         apply in_or_app; right; left; reflexivity ]).
Qed.

End Hit.

Example restoreCache_exact_hit_lookup_only :
  fst (restoreCache Demo.exact_first_bucket ["dist"] "key" None (Some 0)
         (Demo.start_with (mkOptions (Some "my-bucket") (Some true))))
  = Return (Some "/key").
Proof. vm_compute. reflexivity. Qed.

(** C3. A restore that resolves to the entry named [{scope}/{k}] returns
    the name from index [scope.length] on, which is ["/" + k]: the slash
    that separates scope and key is still there, where the specification
    (and the comment in the source) has the key [k] alone. *)
Theorem restoreCache_returns_key_with_leading_slash :
  forall w paths primaryKey restoreKeys options st entry method k,
    bucket_configured w st options = true ->
    length (primaryKey :: default [] restoreKeys) <= 10 ->
    Forall (fun k => String.length k <= 512) (primaryKey :: default [] restoreKeys) ->
    (forall b s,
       fst (findCacheEntry w (primaryKey :: default [] restoreKeys) (Some b) s)
       = Return (Some entry)) ->
    contentType entry = Some (ContentTypePrefix +:+ method_string method) ->
    (forall d, mkdirP w d = Return tt) ->
    (forall d, file_download w entry d = Return tt) ->
    name entry = repo w +:+ "/" +:+ k ->
    fst (restoreCache w paths primaryKey restoreKeys options st) = Return (Some ("/" +:+ k)).
Proof.
  intros w paths primaryKey restoreKeys options st entry method k
         Hconf Hcount Hsizes Hfound Htag Hmkdir Hdownload Hname.
  destruct (restoreCache_hit_run w paths primaryKey restoreKeys options st entry method
              Hconf Hcount Hsizes Hfound Htag Hmkdir Hdownload) as (final & Hrun & _).
  rewrite Hrun, Hname, substring_from_app. reflexivity.
Qed.

Lemma restoreCache_returns_key_with_leading_slash_witness :
  fst (restoreCache Demo.exact_first_bucket ["dist"] "key" None None Demo.start)
  = Return (Some "/key").
Proof.
  apply (restoreCache_returns_key_with_leading_slash Demo.exact_first_bucket ["dist"] "key"
           None None Demo.start Demo.key_exact gzip "key").
  - reflexivity.
  - simpl. lia.
  - constructor; [simpl; lia | constructor].
  - intros b s. reflexivity.
  - reflexivity.
  - reflexivity.
  - reflexivity.
  - reflexivity.
Defined.

Example restoreCache_failed_extraction :
  restoreCache Demo.tar_fails ["dist"] "key" None None Demo.start =
  (Return (Some "/key"),
   mkState {[ 0 := mkOptions (Some "my-bucket") (Some false) ]}
     [ EvDebug "Resolved Keys: [key]";
       EvGetFiles "my-bucket" "repo/key";
       EvMkdirP "/tmp/0000";
       EvDownload "repo/key" "/tmp/0000/cache.tar.gzip";
       EvMkdirP "/work";
       EvExec "tar" ["xf"; "/tmp/0000/cache.tar.gzip"];
       EvRmRF "/tmp/0000/cache.tar.gzip" ]
     [ Error "The process 'tar' failed with exit code 2" ]).
Proof. vm_compute. reflexivity. Qed.

(** C6. When the archive is downloaded and [tar] then fails to extract it,
    [restoreCache] neither warns nor answers "no match": [extractTar] does not
    await the process, so its rejection is left unhandled, no warning is
    logged and the matched name is returned as a hit. *)
Theorem restoreCache_reports_hit_when_extraction_fails :
  forall w paths primaryKey restoreKeys options st entry method e,
    bucket_configured w st options = true ->
    lookup_only_requested st options = false ->
    length (primaryKey :: default [] restoreKeys) <= 10 ->
    Forall (fun k => String.length k <= 512) (primaryKey :: default [] restoreKeys) ->
    (forall b s,
       fst (findCacheEntry w (primaryKey :: default [] restoreKeys) (Some b) s)
       = Return (Some entry)) ->
    contentType entry = Some (ContentTypePrefix +:+ method_string method) ->
    (forall d, mkdirP w d = Return tt) ->
    (forall d, file_download w entry d = Return tt) ->
    (forall a, exec_result (exec w "tar" a) = Throw e) ->
    let r := restoreCache w paths primaryKey restoreKeys options st in
    fst r = Return (Some (substring_from (String.length (repo w)) (name entry))) /\
    In e (unhandled (snd r)) /\
    (exists evs, log (snd r) = log st ++ evs /\ Forall (fun ev => is_warning ev = false) evs).
Proof.
  intros w paths primaryKey restoreKeys options st entry method e
         Hconf Hlookup Hcount Hsizes Hfound Htag Hmkdir Hdownload Htar.
  destruct (restoreCache_hit_run w paths primaryKey restoreKeys options st entry method
              Hconf Hcount Hsizes Hfound Htag Hmkdir Hdownload) as (final & Hrun & Hlog & Hun).
  cbv zeta. rewrite Hrun. simpl. split; [reflexivity|]. split; [|exact Hlog].
  exact (Hun Hlookup e Htar).
Qed.

Lemma restoreCache_reports_hit_when_extraction_fails_witness :
  let r := restoreCache Demo.tar_fails ["dist"] "key" None None Demo.start in
  fst r = Return (Some "/key") /\
  In (Error "The process 'tar' failed with exit code 2") (unhandled (snd r)) /\
  (exists evs, log (snd r) = log Demo.start ++ evs /\
               Forall (fun ev => is_warning ev = false) evs).
Proof.
  apply (restoreCache_reports_hit_when_extraction_fails Demo.tar_fails ["dist"] "key"
           None None Demo.start Demo.key_exact gzip
           (Error "The process 'tar' failed with exit code 2")).
  - reflexivity.
  - reflexivity.
  - simpl. lia.
  - constructor; [simpl; lia | constructor].
  - intros b s. reflexivity.
  - reflexivity.
  - reflexivity.
  - reflexivity.
  - reflexivity.
Defined.

(** Every failure of the awaited steps inside the [try] is caught: what
    [restoreCache] can throw is a validation error, or what is thrown ahead
    of the [try]: the configuration error of option resolution and the error
    of the [context.repo] getter. *)
Lemma checkKeys_throws_validation keys s e :
  fst (checkKeys keys s) = Throw e -> error_name e = Some ValidationError_name.
Proof.
  induction keys as [|key rest IH]; simpl; [discriminate|].
  unfold bind, checkKey. destruct (512 <? String.length key); simpl.
  - intros [= <-]. reflexivity.
  - exact IH.
Qed.

Lemma with_local_fst {L A} (init : L) (m : St (L * State) A) s :
  fst (with_local init m s) = fst (m (init, s)).
Proof. unfold with_local. destruct (m (init, s)); reflexivity. Qed.

Lemma try_catch_handler_returns {S} (m : St S unit) (h : Thrown -> St S unit) s :
  (forall e s', fst (h e s') = Return tt) -> fst (try_catch m h s) = Return tt.
Proof. intros Hh. unfold try_catch. destruct (m s) as [[[]|e] s']; [reflexivity | apply Hh]. Qed.

Lemma try_finally_fst {S A} (m : St S A) (f : St S unit) s :
  (forall s', fst (f s') = Return tt) -> fst (try_finally m f s) = fst (m s).
Proof.
  intros Hf. unfold try_finally. destruct (m s) as [r s']. specialize (Hf s').
  destruct (f s') as [[[]|e] s'']; simpl in *; [reflexivity | discriminate].
Qed.

Lemma try_catch_throws {S A} (m : St S A) (h : Thrown -> St S A) s e :
  fst (try_catch m h s) = Throw e -> exists e0 s0, fst (h e0 s0) = Throw e.
Proof.
  unfold try_catch. destruct (m s) as [[a|e0] s0]; simpl; [discriminate | eauto].
Qed.

Lemma checkKeys_returns keys s :
  fst (checkKeys keys s) = Return tt -> Forall (fun k => String.length k <= 512) keys.
Proof.
  induction keys as [|key rest IH]; simpl; [constructor|].
  unfold bind, checkKey. destruct (512 <? String.length key) eqn:Hk; simpl; [discriminate|].
  intros Hrest. constructor; [apply Nat.ltb_ge; exact Hk | exact (IH Hrest)].
Qed.

Lemma restoreCache_fatal_errors w paths primaryKey restoreKeys options st e :
  fst (restoreCache w paths primaryKey restoreKeys options st) = Throw e ->
  error_name e = Some "ValidationError" \/ error_name e = Some "ConfigUnsetError" \/
  context_repo w = Throw e.
Proof.
  unfold restoreCache.
  pose proof (getDownloadOptions_outcome w options st) as Hopt.
  destruct (bucket_configured w st options).
  - destruct Hopt as [ref Href]. rewrite (bind_returns _ _ _ _ Href). cbv beta zeta.
    rewrite (bind_returns (core_debug _) _ _ tt eq_refl). cbv beta.
    destruct (10 <? length _); [intros [= <-]; left; reflexivity|].
    unfold bind at 1.
    match goal with
    | |- context [checkKeys ?ks ?s] =>
        pose proof (checkKeys_throws_validation ks s) as Hk;
        destruct (checkKeys ks s) as [[[]|e'] s2]
    end.
    + unfold bind at 1, context_repo_repo.
      destruct (context_repo w) as [repository|failure];
        [|simpl; intros [= <-]; right; right; reflexivity].
      rewrite with_local_fst, try_finally_fst.
      * intros Hthrow. apply try_catch_throws in Hthrow as (e0 & s0 & Hh).
        destruct (decide (error_name e0 = Some ValidationError_name)) as [Hv|Hv].
        -- injection Hh as <-. left. exact Hv.
        -- discriminate Hh.
      * intros s'. apply try_catch_handler_returns. reflexivity.
    + simpl. intros [= <-]. left. apply Hk. reflexivity.
  - rewrite (bind_throws _ _ _ _ Hopt). simpl. intros [= <-]. right. left. reflexivity.
Qed.

(* --------------------------------------------------------------------- *)
(** *** Further behaviour of saving and restoring *)
(* --------------------------------------------------------------------- *)

(** A log that grew by nothing at all. *)
Lemma log_grows_nothing s s' : log_grows (fun _ => False) s s' -> log s' = log s.
Proof.
  intros (evs & Hlog & Hall). destruct evs as [|e evs].
  - rewrite Hlog. apply app_nil_r.
  - inversion Hall; contradiction.
Qed.

(** X10. Without a bucket, in the options or in a non-empty
    ACTIONS_GCS_CACHE_BUCKET, both entry points stop with the
    ConfigUnsetError before anything else happens: nothing is logged, no
    process is started, no file is touched and the remote store is not
    reached. *)
Theorem unconfigured_call_stops_before_any_effect :
  forall w paths key primaryKey restoreKeys options st,
    bucket_configured w st options = false ->
    let msg := "Config Error: no bucket value provided and ACTIONS_GCS_CACHE_BUCKET environment variable is unset" in
    let saved := saveCache w paths key options st in
    let restored := restoreCache w paths primaryKey restoreKeys options st in
    (fst saved = Throw (ConfigUnsetError msg) /\
     log (snd saved) = log st /\ unhandled (snd saved) = unhandled st) /\
    (fst restored = Throw (ConfigUnsetError msg) /\
     log (snd restored) = log st /\ unhandled (snd restored) = unhandled st).
Proof.
  intros w paths key primaryKey restoreKeys options st Hconf. cbv zeta. split.
  - pose proof (getCommonOptions_outcome w options st) as Hopt. rewrite Hconf in Hopt.
    unfold saveCache, getUploadOptions. rewrite (bind_throws _ _ _ _ Hopt).
    split; [reflexivity|]. split.
    + apply log_grows_nothing. apply getCommonOptions_log_grows.
    + apply getCommonOptions_unhandled.
  - pose proof (getDownloadOptions_outcome w options st) as Hopt. rewrite Hconf in Hopt.
    unfold restoreCache. rewrite (bind_throws _ _ _ _ Hopt).
    split; [reflexivity|]. split.
    + apply log_grows_nothing. apply getDownloadOptions_log_grows.
    + apply getDownloadOptions_unhandled.
Qed.

Lemma unconfigured_call_stops_before_any_effect_witness :
  log (snd (saveCache Demo.no_bucket ["dist"] "key" None Demo.start)) = [] /\
  log (snd (restoreCache Demo.no_bucket ["dist"] "key" None None Demo.start)) = [].
Proof.
  destruct (unconfigured_call_stops_before_any_effect Demo.no_bucket ["dist"] "key" "key"
              None None Demo.start eq_refl) as [(_ & Hs & _) (_ & Hr & _)].
  split; [exact Hs | exact Hr].
Defined.

(** X11. More than ten candidate keys are refused with a ValidationError before
    any key is looked at and before the remote store is reached. *)
Theorem restoreCache_rejects_more_than_ten_keys :
  forall w paths primaryKey restoreKeys options st,
    bucket_configured w st options = true ->
    10 < length (primaryKey :: default [] restoreKeys) ->
    fst (restoreCache w paths primaryKey restoreKeys options st) =
      Throw (ValidationError "Key Validation Error: Keys are limited to a maximum of 10") /\
    (exists evs,
       log (snd (restoreCache w paths primaryKey restoreKeys options st)) = log st ++ evs /\
       Forall (fun e => is_network e = false) evs).
Proof.
  intros w paths primaryKey restoreKeys options st Hconf Hmany.
  unfold restoreCache.
  pose proof (getDownloadOptions_outcome w options st) as Hopt. rewrite Hconf in Hopt.
  pose proof (getDownloadOptions_log_grows w not_network options st) as Hlog.
  destruct Hopt as [ref Href]. rewrite (bind_returns _ _ _ _ Href). cbv beta zeta.
  rewrite (bind_returns (core_debug _) _ _ tt eq_refl). cbv beta.
  apply Nat.ltb_lt in Hmany. rewrite Hmany. split; [reflexivity|].
  eapply log_grows_trans; [exact Hlog|]. apply emit_log_grows. reflexivity.
Qed.

Lemma restoreCache_rejects_more_than_ten_keys_witness :
  fst (restoreCache Demo.linux ["dist"] "k0"
         (Some ["k1"; "k2"; "k3"; "k4"; "k5"; "k6"; "k7"; "k8"; "k9"; "k10"]) None Demo.start)
  = Throw (ValidationError "Key Validation Error: Keys are limited to a maximum of 10").
Proof.
  refine (proj1 (restoreCache_rejects_more_than_ten_keys Demo.linux ["dist"] "k0"
                   (Some ["k1"; "k2"; "k3"; "k4"; "k5"; "k6"; "k7"; "k8"; "k9"; "k10"])
                   None Demo.start _ _)).
  - reflexivity.
  - simpl. lia.
Defined.

Lemma checkKeys_first_oversized pre k post s :
  Forall (fun k => String.length k <= 512) pre ->
  512 < String.length k ->
  checkKeys (pre ++ k :: post) s =
  (Throw (ValidationError
     ("Key Validation Error: " +:+ k +:+ " cannot be larger than 512 characters.")), s).
Proof.
  intros Hpre Hk. induction Hpre as [|p pre Hp _ IH]; simpl; unfold bind, checkKey.
  - apply Nat.ltb_lt in Hk. rewrite Hk. reflexivity.
  - destruct (512 <? String.length p) eqn:Hlt; [apply Nat.ltb_lt in Hlt; lia|].
    simpl. exact IH.
Qed.

(** X12. With at most ten keys, the keys are checked in order and the first one
    longer than 512 characters is the one the ValidationError names; a key of
    exactly 512 characters passes. *)
Theorem restoreCache_names_first_oversized_key :
  forall w paths primaryKey restoreKeys options st pre k post,
    bucket_configured w st options = true ->
    primaryKey :: default [] restoreKeys = pre ++ k :: post ->
    length (pre ++ k :: post) <= 10 ->
    Forall (fun k => String.length k <= 512) pre ->
    512 < String.length k ->
    fst (restoreCache w paths primaryKey restoreKeys options st) =
      Throw (ValidationError
        ("Key Validation Error: " +:+ k +:+ " cannot be larger than 512 characters.")).
Proof.
  intros w paths primaryKey restoreKeys options st pre k post Hconf Hkeys Hcount Hpre Hk.
  unfold restoreCache.
  pose proof (getDownloadOptions_outcome w options st) as Hopt. rewrite Hconf in Hopt.
  destruct Hopt as [ref Href]. rewrite (bind_returns _ _ _ _ Href). cbv beta zeta.
  rewrite (bind_returns (core_debug _) _ _ tt eq_refl). cbv beta.
  rewrite Hkeys. apply Nat.ltb_ge in Hcount. rewrite Hcount.
  unfold bind at 1. rewrite (checkKeys_first_oversized pre k post _ Hpre Hk). reflexivity.
Qed.

Lemma restoreCache_names_first_oversized_key_witness :
  fst (restoreCache Demo.linux ["dist"] "key" (Some [Demo.long_key; "other"]) None Demo.start)
  = Throw (ValidationError
      ("Key Validation Error: " +:+ Demo.long_key
       +:+ " cannot be larger than 512 characters.")).
Proof.
  apply (restoreCache_names_first_oversized_key Demo.linux ["dist"] "key"
           (Some [Demo.long_key; "other"]) None Demo.start ["key"] Demo.long_key ["other"]).
  - reflexivity.
  - reflexivity.
  - simpl. lia.
  - constructor; [simpl; lia | constructor].
  - vm_compute. lia.
Defined.

(** X13. When the patterns resolve to no path, [saveCache] fails with a
    ValidationError having done no more than log, probe for zstd and expand
    the patterns: no directory or manifest is created, no archive is built
    and nothing is uploaded. *)
Theorem saveCache_rejects_empty_path_list :
  forall w paths key options st,
    bucket_configured w st options = true ->
    glob w (join newline paths) = ([], None) ->
    fst (saveCache w paths key options st) =
      Throw (ValidationError
        "Path Validation Error: Path(s) specified in teh action for caching do(es) not exist, hence no cache is being saved") /\
    (exists evs,
       log (snd (saveCache w paths key options st)) = log st ++ evs /\
       Forall (fun e => is_log_or_probe e = true) evs).
Proof.
  intros w paths key options st Hconf Hglob.
  set (P := fun e => is_log_or_probe e = true).
  unfold saveCache, getUploadOptions.
  pose proof (getCommonOptions_outcome w options st) as Hopt. rewrite Hconf in Hopt.
  destruct Hopt as [ref Href].
  pose proof (getCommonOptions_log_grows w P options st) as Hlog1.
  rewrite (bind_returns _ _ _ _ Href). cbv beta.
  set (s1 := snd (getCommonOptions w options st)) in *.
  destruct (getCompressionMethod_returns w s1) as [m Hm].
  pose proof (getCompressionMethod_log_grows w P (fun _ _ => eq_refl) (fun _ => eq_refl) s1)
    as Hlog2.
  rewrite (bind_returns _ _ _ _ Hm). cbv beta.
  set (s2 := snd (getCompressionMethod w s1)) in *.
  assert (Hok : snd (glob w (join newline paths)) = None) by (rewrite Hglob; reflexivity).
  destruct (resolvePaths_returns w paths s2 Hok) as (cachePaths & Hres & Hlen).
  pose proof (resolvePaths_log_grows w P paths (fun _ => eq_refl) (fun _ => eq_refl) s2)
    as Hlog3.
  rewrite (bind_returns _ _ _ _ Hres). cbv beta.
  set (s3 := snd (resolvePaths w paths s2)) in *.
  rewrite (bind_returns (core_debug _) _ _ tt eq_refl). cbv beta.
  rewrite Hglob in Hlen. simpl in Hlen. destruct cachePaths; [|discriminate Hlen].
  simpl Nat.eqb. cbv iota. split; [reflexivity|].
  eapply log_grows_trans; [exact Hlog1|].
  eapply log_grows_trans; [exact Hlog2|].
  eapply log_grows_trans; [exact Hlog3|].
  apply emit_log_grows. reflexivity.
Qed.

Lemma saveCache_rejects_empty_path_list_witness :
  fst (saveCache Demo.no_matches ["dist"] "key" None Demo.start) =
    Throw (ValidationError
      "Path Validation Error: Path(s) specified in teh action for caching do(es) not exist, hence no cache is being saved").
Proof.
  refine (proj1 (saveCache_rejects_empty_path_list Demo.no_matches ["dist"] "key" None
                   Demo.start _ _)); reflexivity.
Defined.

(** *** Resolving the paths *)

Lemma resolvePaths_loop_result w workspace files :
  forall paths s,
    fst (resolvePaths_loop w workspace files paths s) =
    Return (paths ++ map (pushed_path w workspace) files).
Proof.
  induction files as [|file rest IH]; intros paths s; simpl.
  - rewrite app_nil_r. reflexivity.
  - unfold bind, core_debug, emit. simpl. unfold pushed_path at 1. cbv zeta.
    destruct (String.eqb _ _); rewrite IH, <- app_assoc; reflexivity.
Qed.

Lemma pushed_path_nonempty w workspace file : pushed_path w workspace file <> "".
Proof.
  unfold pushed_path. cbv zeta.
  destruct (String.eqb _ "") eqn:He; [discriminate|].
  apply String.eqb_neq. exact He.
Qed.

(** X14. [resolvePaths] gives one path per file the globber yields, in the order
    they are yielded: the path relative to the working directory with the
    separators turned into forward slashes, and [.] for the working directory
    itself, so that no resolved path is empty and, on a Windows host, none
    holds a backslash. A failure of the globber is thrown once the files
    yielded before it have been handled. *)
Theorem resolvePaths_one_path_per_file :
  forall w patterns s,
    let yielded := glob w (join newline patterns) in
    let resolved := map (pushed_path w (getWorkingDirectory w)) (fst yielded) in
    fst (resolvePaths w patterns s) =
      match snd yielded with
      | Some e => Throw e
      | None => Return resolved
      end /\
    Forall (fun p => p <> "") resolved /\
    (platform w = "win32" -> Forall (fun p => has_char "\" p = false) resolved).
Proof.
  intros w patterns s. cbv zeta. split; [|split].
  - unfold resolvePaths.
    rewrite (bind_returns (emit _) _ _ tt eq_refl). cbv beta zeta.
    rewrite (bind_returns _ _ _ _ (resolvePaths_loop_result w _ _ [] _)). cbv beta.
    simpl app. destruct (snd (glob w (join newline patterns))); reflexivity.
  - apply Forall_forall. intros p Hin. apply list_elem_of_In, in_map_iff in Hin.
    destruct Hin as (file & <- & _). apply pushed_path_nonempty.
  - intros Hw. apply Forall_forall. intros p Hin. apply list_elem_of_In, in_map_iff in Hin.
    destruct Hin as (file & <- & _). unfold pushed_path. cbv zeta.
    destruct (String.eqb _ ""); [reflexivity|].
    unfold path_sep. rewrite Hw. simpl. apply TarFacts.replaceAll_removes. reflexivity.
Qed.

Example resolvePaths_workspace_is_dot :
  fst (resolvePaths Demo.workspace_and_file ["**"] Demo.start) = Return ["."; "dist/app.js"].
Proof. vm_compute. reflexivity. Qed.

(** *** Options the caller filled in, and options the caller left out *)

(** X15. An options object that already names a bucket is never written by
    [saveCache], and one that also carries lookupOnly is never written by
    [restoreCache]: the environment variable is not consulted and the heap is
    as it was, whatever else the call does. *)
Theorem complete_options_are_left_alone :
  forall w paths key primaryKey restoreKeys ref b lo st,
    heap st !! ref = Some (mkOptions (Some b) lo) ->
    heap (snd (saveCache w paths key (Some ref) st)) = heap st /\
    (lo <> None ->
     heap (snd (restoreCache w paths primaryKey restoreKeys (Some ref) st)) = heap st).
Proof.
  intros w paths key primaryKey restoreKeys ref b lo st Hobj.
  assert (Hcommon : getCommonOptions w (Some ref) st = (Return ref, st)).
  { rewrite getCommonOptions_some. unfold deref. rewrite Hobj. reflexivity. }
  split.
  - rewrite saveCache_body_same_heap. unfold getUploadOptions. rewrite Hcommon. reflexivity.
  - intros Hlo. rewrite restoreCache_body_same_heap, getDownloadOptions_unfold, Hcommon.
    unfold deref. rewrite Hobj. simpl. destruct lo; [reflexivity | congruence].
Qed.

Lemma complete_options_are_left_alone_witness :
  heap (snd (saveCache Demo.linux ["dist"] "key" (Some 0)
               (Demo.start_with (mkOptions (Some "other-bucket") (Some true)))))
  = {[ 0 := mkOptions (Some "other-bucket") (Some true) ]}.
Proof.
  refine (proj1 (complete_options_are_left_alone Demo.linux ["dist"] "key" "key" None 0
                   "other-bucket" (Some true)
                   (Demo.start_with (mkOptions (Some "other-bucket") (Some true))) _)).
  reflexivity.
Defined.

Lemma fresh_location_is_new (st : State) r o :
  heap st !! r = Some o -> fresh (dom (heap st)) <> r.
Proof.
  intros Hr Heq. apply (is_fresh (dom (heap st))). rewrite Heq.
  apply elem_of_dom. eauto.
Qed.

(** X16. A call made without an options object works on an object of its own:
    every object that was in the heap before the call is still there,
    unchanged, after it. *)
Theorem absent_options_touch_no_object :
  forall w paths key primaryKey restoreKeys st r o,
    heap st !! r = Some o ->
    heap (snd (saveCache w paths key None st)) !! r = Some o /\
    heap (snd (restoreCache w paths primaryKey restoreKeys None st)) !! r = Some o.
Proof.
  intros w paths key primaryKey restoreKeys st r o Hr.
  pose proof (fresh_location_is_new st r o Hr) as Hfresh.
  assert (Hcommon : heap (snd (getCommonOptions w None st)) !! r = Some o).
  { rewrite getCommonOptions_none. cbv zeta.
    destruct (falsy _); unfold set_bucket, alloc; simpl;
      rewrite ?lookup_insert_ne by exact Hfresh; exact Hr. }
  split.
  - rewrite saveCache_body_same_heap. exact Hcommon.
  - rewrite restoreCache_body_same_heap, getDownloadOptions_unfold.
    pose proof (getCommonOptions_none w st) as Hnone. cbv zeta in Hnone.
    destruct (getCommonOptions w None st) as [[ref|e] s1] eqn:Hc; cbn [fst snd] in *;
      [|exact Hcommon].
    assert (Href : ref = fresh (dom (heap st))).
    { destruct (falsy _); [discriminate Hnone | congruence]. }
    clear Hnone. destruct (lookupOnly (deref s1 ref)); [exact Hcommon|].
    unfold set_lookupOnly. simpl. rewrite lookup_insert_ne by (rewrite Href; exact Hfresh).
    exact Hcommon.
Qed.

Lemma absent_options_touch_no_object_witness :
  heap (snd (saveCache Demo.linux ["dist"] "key" None (Demo.start_with Options.emptyObj)))
    !! 0 = Some Options.emptyObj /\
  heap (snd (restoreCache Demo.linux ["dist"] "key" None None
               (Demo.start_with Options.emptyObj)))
    !! 0 = Some Options.emptyObj.
Proof.
  apply (absent_options_touch_no_object Demo.linux ["dist"] "key" "key" None
           (Demo.start_with Options.emptyObj) 0 Options.emptyObj).
  reflexivity.
Defined.

(** *** The paths of a restore *)

(** Runs a validated [restoreCache] up to the call of [findCacheEntry]. *)
Ltac restore_prelude w options st Hconf Hcount Hsizes Hrepo :=
  unfold restoreCache;
  pose proof (getDownloadOptions_outcome w options st) as Hopt;
  rewrite Hconf in Hopt;
  destruct Hopt as [ref Href];
  destruct (getDownloadOptions_fields w options st ref Href) as [[b Hb] Hlo];
  pose proof (log_grows_nothing _ _ (getDownloadOptions_log_grows w (fun _ => False) options st))
    as Hlog1;
  pose proof (getDownloadOptions_unhandled w options st) as Hun1;
  rewrite (bind_returns _ _ _ _ Href); cbv beta zeta;
  set (s1 := snd (getDownloadOptions w options st)) in *;
  rewrite (bind_returns (core_debug _) _ _ tt eq_refl); cbv beta;
  set (s2 := snd (core_debug _ s1));
  rewrite (proj2 (Nat.ltb_ge _ _) Hcount);
  unfold bind at 1; rewrite (checkKeys_accepts _ s2 Hsizes);
  cbv beta iota; rewrite (bind_context_repo_repo w _ _ Hrepo);
  unfold with_local, try_finally, try_catch;
  unfold bind at 1; unfold lift at 1, read at 1; cbn [fst snd];
  change (deref s2 ref) with (deref s1 ref); rewrite Hb;
  unfold bind at 1; unfold lift at 1; cbn [fst snd].

(** X17. On a host that knows its repository, when the bucket lists nothing
    under any candidate key, [restoreCache] returns undefined without
    throwing, having listed each key once, in order, and done nothing else:
    no warning, no download, nothing removed. *)
Theorem restoreCache_miss_returns_undefined :
  forall w paths primaryKey restoreKeys options st,
    bucket_configured w st options = true ->
    repository_known w = true ->
    length (primaryKey :: default [] restoreKeys) <= 10 ->
    Forall (fun k => String.length k <= 512) (primaryKey :: default [] restoreKeys) ->
    (forall n, exists h, storage_bucket w (Some n) = Return h) ->
    (forall h k, bucket_getFiles w h (repo w +:+ "/" +:+ k) = Return []) ->
    exists h final,
      restoreCache w paths primaryKey restoreKeys options st = (Return None, final) /\
      unhandled final = unhandled st /\
      log final =
      log st
      ++ [EvDebug ("Resolved Keys: "
                   +:+ JSON_stringify w (primaryKey :: default [] restoreKeys))]
      ++ map (fun k => EvGetFiles h (repo w +:+ "/" +:+ k))
             (primaryKey :: default [] restoreKeys).
Proof.
  intros w paths primaryKey restoreKeys options st Hconf Hrepo Hcount Hsizes Hbucket Hempty.
  restore_prelude w options st Hconf Hcount Hsizes Hrepo.
  destruct (Hbucket b) as [h Hh]. exists h.
  rewrite (ResolveFacts.findCacheEntry_run w _ _ h s2 Hrepo Hh).
  assert (Hall : Forall (fun k => bucket_getFiles w h (repo w +:+ "/" +:+ k) = Return [])
                        (primaryKey :: default [] restoreKeys))
    by (apply Forall_forall; intros k _; apply Hempty).
  pose proof (ResolveFacts.findCacheEntry_keys_skips_empty w h (repo w) _ Hall [] s2) as Hskip.
  rewrite app_nil_r in Hskip. rewrite Hskip.
  unfold findCacheEntry_keys at 1. unfold ret at 1. cbn [fst snd].
  unfold ret at 1. unfold bind at 1, get_local. cbn [fst snd falsy negb]. unfold ret.
  cbn [fst snd heap log unhandled].
  eexists. split; [reflexivity|].
  unfold s2, core_debug, emit. cbn [fst snd heap log unhandled].
  split; [exact Hun1|]. rewrite Hlog1, <- app_assoc. reflexivity.
Qed.

Lemma restoreCache_miss_returns_undefined_witness :
  fst (restoreCache Demo.linux ["dist"] "key" (Some ["fallback"]) None Demo.start)
  = Return None.
Proof.
  destruct (restoreCache_miss_returns_undefined Demo.linux ["dist"] "key"
              (Some ["fallback"]) None Demo.start) as (h & final & Hrun & _).
  7: { rewrite Hrun. reflexivity. }
  - reflexivity.
  - reflexivity.
  - simpl. lia.
  - repeat (constructor; [simpl; lia|]). constructor.
  - intros n. exists n. reflexivity.
  - intros h k. reflexivity.
Defined.

Lemma prefix_split p s :
  String.prefix p s = true -> s = p +:+ substring_from (String.length p) s.
Proof.
  revert s. induction p as [|a p IH]; intros s Hp; simpl.
  - destruct s; reflexivity.
  - destruct s as [|c s]; simpl in Hp; [discriminate|].
    destruct (ascii_dec a c) as [->|]; [|discriminate].
    change (String c s = String c (p +:+ substring_from (String.length p) s)).
    f_equal. exact (IH s Hp).
Qed.

(** The checks of [restoreCache] let exactly two content types through. *)
Lemma content_type_accepted_only tag :
  falsy tag = false ->
  negb (startsWith (show_undefined tag) ContentTypePrefix) = false ->
  negb (String.eqb (substring_from (String.length ContentTypePrefix) (show_undefined tag))
                   "zstd")
  && negb (String.eqb (substring_from (String.length ContentTypePrefix) (show_undefined tag))
                      "gzip") = false ->
  tag = Some (ContentTypePrefix +:+ "zstd") \/ tag = Some (ContentTypePrefix +:+ "gzip").
Proof.
  destruct tag as [t|]; [|discriminate]. cbn [show_undefined]. intros _ Hstart Hmethod.
  apply negb_false_iff in Hstart. apply prefix_split in Hstart.
  apply andb_false_iff in Hmethod as [Hm | Hm];
    apply negb_false_iff, String.eqb_eq in Hm; rewrite Hm in Hstart; subst t; auto.
Qed.

(** X18. Once the repository name is read, a failure to resolve the entry (the
    bucket cannot be opened or listed) does not fail the restore: unless the
    error is named ValidationError it is logged as a warning with its message
    and the result is undefined, with nothing downloaded, run or removed. *)
Theorem restoreCache_resolution_failure_is_a_miss :
  forall w paths primaryKey restoreKeys options st e,
    bucket_configured w st options = true ->
    repository_known w = true ->
    length (primaryKey :: default [] restoreKeys) <= 10 ->
    Forall (fun k => String.length k <= 512) (primaryKey :: default [] restoreKeys) ->
    (forall n s,
       fst (findCacheEntry w (primaryKey :: default [] restoreKeys) (Some n) s) = Throw e) ->
    error_name e <> Some "ValidationError" ->
    exists final evs,
      restoreCache w paths primaryKey restoreKeys options st = (Return None, final) /\
      log final = log st ++ evs /\
      Forall (fun ev => is_log_or_listing ev = true) evs /\
      In (EvWarning ("Failed to restore: " +:+ show_undefined (error_message e))) evs.
Proof.
  intros w paths primaryKey restoreKeys options st e Hconf Hrepo Hcount Hsizes Hfail Hname.
  restore_prelude w options st Hconf Hcount Hsizes Hrepo.
  pose proof (Hfail b s2) as Hf.
  destruct (findCacheEntry_log_grows w (fun ev => is_log_or_listing ev = true)
              (primaryKey :: default [] restoreKeys) (Some b)
              (fun _ _ => eq_refl) s2) as (evs3 & Hlog3 & Hall3).
  destruct (findCacheEntry w (primaryKey :: default [] restoreKeys) (Some b) s2) as [r s3].
  cbn [fst snd] in Hf, Hlog3. subst r.
  destruct (decide (error_name e = Some ValidationError_name)) as [Hv|_]; [contradiction|].
  unfold bind at 1. unfold lift at 1, core_warning, emit. cbn [fst snd].
  unfold ret at 1. unfold bind at 1, get_local. cbn [fst snd falsy negb]. unfold ret.
  cbn [fst snd heap log unhandled].
  eexists. eexists. split; [reflexivity|]. cbn [log].
  rewrite Hlog3. unfold s2, core_debug, emit. cbn [snd log]. rewrite Hlog1.
  rewrite <- !app_assoc. split; [reflexivity|]. split.
  - apply Forall_app. split; [repeat constructor|].
    apply Forall_app. split; [exact Hall3 | repeat constructor].
  - apply in_or_app. right. apply in_or_app. right. left. reflexivity.
Qed.

Lemma restoreCache_resolution_failure_is_a_miss_witness :
  fst (restoreCache Demo.listing_fails ["dist"] "key" None None Demo.start) = Return None.
Proof.
  destruct (restoreCache_resolution_failure_is_a_miss Demo.listing_fails ["dist"] "key"
              None None Demo.start (Error "403 Forbidden"))
    as (final & evs & Hrun & _).
  7: { rewrite Hrun. reflexivity. }
  - reflexivity.
  - reflexivity.
  - simpl. lia.
  - constructor; [simpl; lia | constructor].
  - intros n s. reflexivity.
  - discriminate.
Defined.

(** X19. An entry whose content type is not one of the two this package writes
    ([application/x-actions-cache-gcs-gzip] and [...-zstd]) is treated as a
    miss: a warning is logged, undefined is returned, and nothing is
    downloaded, run or removed. *)
Theorem restoreCache_ignores_foreign_content_type :
  forall w paths primaryKey restoreKeys options st entry,
    bucket_configured w st options = true ->
    length (primaryKey :: default [] restoreKeys) <= 10 ->
    Forall (fun k => String.length k <= 512) (primaryKey :: default [] restoreKeys) ->
    (forall n s,
       fst (findCacheEntry w (primaryKey :: default [] restoreKeys) (Some n) s)
       = Return (Some entry)) ->
    contentType entry <> Some (ContentTypePrefix +:+ "gzip") ->
    contentType entry <> Some (ContentTypePrefix +:+ "zstd") ->
    exists final evs msg,
      restoreCache w paths primaryKey restoreKeys options st = (Return None, final) /\
      log final = log st ++ evs /\
      Forall (fun ev => is_log_or_listing ev = true) evs /\
      In (EvWarning ("Cache entry " +:+ name entry +:+ msg)) evs.
Proof.
  intros w paths primaryKey restoreKeys options st entry
         Hconf Hcount Hsizes Hfound Hgzip Hzstd.
  pose proof (ResolveFacts.findCacheEntry_returns_repository_known w _ (Some "") st _
                (Hfound "" st)) as Hrepo.
  restore_prelude w options st Hconf Hcount Hsizes Hrepo.
  pose proof (Hfound b s2) as Hf.
  destruct (findCacheEntry_log_grows w (fun ev => is_log_or_listing ev = true)
              (primaryKey :: default [] restoreKeys) (Some b)
              (fun _ _ => eq_refl) s2) as (evs3 & Hlog3 & Hall3).
  destruct (findCacheEntry w (primaryKey :: default [] restoreKeys) (Some b) s2) as [r s3].
  cbn [fst snd] in Hf, Hlog3. subst r.
  pose proof (content_type_accepted_only (contentType entry)) as Honly.
  destruct (falsy (contentType entry));
    [|destruct (negb (startsWith _ _));
      [|destruct (negb (String.eqb _ "zstd") && negb (String.eqb _ "gzip"));
        [|destruct (Honly eq_refl eq_refl eq_refl); contradiction]]];
    unfold bind at 1; unfold lift at 1, core_warning, emit; cbn [fst snd];
    unfold ret at 1; unfold bind at 1, get_local; cbn [fst snd falsy negb]; unfold ret;
    cbn [fst snd heap log unhandled];
    eexists; eexists; eexists; (split; [reflexivity|]); cbn [log];
    rewrite Hlog3; unfold s2, core_debug, emit; cbn [snd log]; rewrite Hlog1;
    rewrite <- !app_assoc; (split; [reflexivity|]); (split;
      [ apply Forall_app; split; [repeat constructor|];
        apply Forall_app; split; [exact Hall3 | repeat constructor]
      | apply in_or_app; right; apply in_or_app; right; left; reflexivity ]).
Qed.

Lemma restoreCache_ignores_foreign_content_type_witness :
  fst (restoreCache Demo.foreign_bucket ["dist"] "key" None None Demo.start) = Return None.
Proof.
  destruct (restoreCache_ignores_foreign_content_type Demo.foreign_bucket ["dist"] "key"
              None None Demo.start Demo.foreign_entry)
    as (final & evs & msg & Hrun & _).
  7: { rewrite Hrun. reflexivity. }
  - reflexivity.
  - simpl. lia.
  - constructor; [simpl; lia | constructor].
  - intros n s. reflexivity.
  - discriminate.
  - discriminate.
Defined.

(** X20. When the download of the matched entry fails, the restore is a miss and
    not an error: the failure is logged as a warning, undefined is returned,
    the partly written archive is removed, and [tar] is never started. *)
Theorem restoreCache_download_failure_is_a_miss :
  forall w paths primaryKey restoreKeys options st entry method e,
    bucket_configured w st options = true ->
    lookup_only_requested st options = false ->
    length (primaryKey :: default [] restoreKeys) <= 10 ->
    Forall (fun k => String.length k <= 512) (primaryKey :: default [] restoreKeys) ->
    (forall n s,
       fst (findCacheEntry w (primaryKey :: default [] restoreKeys) (Some n) s)
       = Return (Some entry)) ->
    contentType entry = Some (ContentTypePrefix +:+ method_string method) ->
    (forall d, mkdirP w d = Return tt) ->
    (forall d, file_download w entry d = Throw e) ->
    error_name e <> Some "ValidationError" ->
    exists final evs tmpdir,
      let destination := tmpdir +:+ "/cache.tar." +:+ method_string method in
      restoreCache w paths primaryKey restoreKeys options st = (Return None, final) /\
      log final = log st ++ evs /\
      In (EvDownload (name entry) destination) evs /\
      In (EvWarning ("Failed to restore: " +:+ show_undefined (error_message e))) evs /\
      In (EvRmRF destination) evs /\
      Forall (fun ev => is_exec ev = false) evs.
Proof.
  intros w paths primaryKey restoreKeys options st entry method e
         Hconf Hlookup Hcount Hsizes Hfound Htag Hmkdir Hdownload Hname.
  pose proof (ResolveFacts.findCacheEntry_returns_repository_known w _ (Some "") st _
                (Hfound "" st)) as Hrepo.
  restore_prelude w options st Hconf Hcount Hsizes Hrepo.
  pose proof (Hfound b s2) as Hf.
  pose proof (findCacheEntry_same_heap w (primaryKey :: default [] restoreKeys) (Some b) s2)
    as Hheap3.
  destruct (findCacheEntry_log_grows w (fun ev => is_exec ev = false)
              (primaryKey :: default [] restoreKeys) (Some b)
              (fun _ _ => eq_refl) s2) as (evs3 & Hlog3 & Hall3).
  destruct (findCacheEntry w (primaryKey :: default [] restoreKeys) (Some b) s2) as [r s3].
  cbn [fst snd] in Hf, Hlog3, Hheap3. subst r. rewrite Htag.
  destruct (content_type_tag_accepted method) as (Hc1 & Hc2 & Hc3 & Hc4).
  cbv zeta in Hc1, Hc2, Hc3, Hc4. cbn [show_undefined].
  rewrite Hc1, Hc2, Hc3, Hc4. cbn [negb].
  unfold bind at 1. unfold lift at 1, read at 1. cbn [fst snd].
  assert (Hd3 : deref s3 ref = deref s1 ref) by (unfold deref; rewrite Hheap3; reflexivity).
  rewrite Hd3, Hlo, Hlookup. cbn [default from_option id negb].
  unfold bind at 1. unfold bind at 1. unfold lift at 1. cbn [fst snd].
  destruct (createTempDirectory_run w s3 Hmkdir) as [tmpdir ->].
  unfold bind at 1. unfold set_local at 1. cbn [fst snd].
  unfold bind at 1. unfold lift at 1. cbn [fst snd].
  unfold bind at 1, emit at 1, await at 1. cbn [fst snd heap log unhandled].
  rewrite Hdownload.
  destruct (decide (error_name e = Some ValidationError_name)) as [Hv|_]; [contradiction|].
  unfold bind at 1. unfold lift at 1, core_warning, emit. cbn [fst snd heap log unhandled].
  unfold ret at 1. unfold bind at 1, get_local. cbn [fst snd].
  rewrite falsy_destination. cbn [negb show_undefined].
  unfold lift, io_rmRF, core_debug, bind, emit, await. cbn [fst snd heap log unhandled].
  destruct (rmRF w _) as [[]|failure]; cbn [fst snd heap log unhandled];
    eexists; eexists; exists tmpdir; cbv zeta; (split; [reflexivity|]); cbn [log];
    rewrite Hlog3; unfold s2, core_debug, emit; cbn [snd log]; rewrite Hlog1;
    rewrite <- !app_assoc; (split; [reflexivity|]);
    (split; [apply in_or_app; right; apply in_or_app; right; right; left; reflexivity|]);
    (split; [apply in_or_app; right; apply in_or_app; right; do 2 right; left; reflexivity|]);
    (split; [apply in_or_app; right; apply in_or_app; right; do 3 right; left; reflexivity|]);
    (apply Forall_app; split; [repeat constructor|]);
    (apply Forall_app; split; [exact Hall3 | repeat constructor]).
Qed.

Example restoreCache_failed_download :
  restoreCache Demo.download_fails ["dist"] "key" None None Demo.start =
  (Return None,
   mkState {[ 0 := mkOptions (Some "my-bucket") (Some false) ]}
     [ EvDebug "Resolved Keys: [key]";
       EvGetFiles "my-bucket" "repo/key";
       EvMkdirP "/tmp/0000";
       EvDownload "repo/key" "/tmp/0000/cache.tar.gzip";
       EvWarning "Failed to restore: socket hang up";
       EvRmRF "/tmp/0000/cache.tar.gzip" ]
     []).
Proof. vm_compute. reflexivity. Qed.

Lemma restoreCache_download_failure_is_a_miss_witness :
  fst (restoreCache Demo.download_fails ["dist"] "key" None None Demo.start) = Return None.
Proof.
  destruct (restoreCache_download_failure_is_a_miss Demo.download_fails ["dist"] "key"
              None None Demo.start Demo.key_exact gzip (Error "socket hang up"))
    as (final & evs & tmpdir & Hrun & _).
  10: { rewrite Hrun. reflexivity. }
  - reflexivity.
  - reflexivity.
  - simpl. lia.
  - constructor; [simpl; lia | constructor].
  - intros n s. reflexivity.
  - reflexivity.
  - reflexivity.
  - reflexivity.
  - discriminate.
Defined.

(** X21. A lookup-only restore only looks: whatever the bucket answers and
    however the call ends, all it does is log and list the bucket. No
    directory is made, nothing is downloaded, no process is started and
    nothing is removed. *)
Theorem restoreCache_lookup_only_fetches_nothing :
  forall w paths primaryKey restoreKeys options st,
    lookup_only_requested st options = true ->
    exists evs,
      log (snd (restoreCache w paths primaryKey restoreKeys options st)) = log st ++ evs /\
      Forall (fun ev => is_log_or_listing ev = true) evs.
Proof.
  intros w paths primaryKey restoreKeys options st Hlookup.
  set (P := fun ev => is_log_or_listing ev = true).
  change (log_grows P st (snd (restoreCache w paths primaryKey restoreKeys options st))).
  unfold restoreCache.
  pose proof (getDownloadOptions_outcome w options st) as Hopt.
  pose proof (getDownloadOptions_log_grows w P options st) as Hgrow1.
  destruct (bucket_configured w st options).
  2: { rewrite (bind_throws _ _ _ _ Hopt). exact Hgrow1. }
  destruct Hopt as [ref Href].
  destruct (getDownloadOptions_fields w options st ref Href) as [[b Hb] Hlo].
  rewrite (bind_returns _ _ _ _ Href). cbv beta zeta.
  set (s1 := snd (getDownloadOptions w options st)) in *.
  rewrite (bind_returns (core_debug _) _ _ tt eq_refl). cbv beta.
  set (s2 := snd (core_debug _ s1)).
  assert (Hgrow2 : log_grows P st s2).
  { eapply log_grows_trans; [exact Hgrow1|]. apply emit_log_grows. reflexivity. }
  destruct (10 <? length _); [exact Hgrow2|].
  unfold bind at 1.
  pose proof (checkKeys_same_state (primaryKey :: default [] restoreKeys) s2) as Hsame.
  destruct (checkKeys (primaryKey :: default [] restoreKeys) s2) as [[[]|e] s2'];
    cbn [snd] in Hsame; subst s2'; [|exact Hgrow2].
  cbv beta iota. unfold bind at 1, context_repo_repo.
  destruct (context_repo w) as [repository|failure]; [|exact Hgrow2].
  unfold with_local, try_finally, try_catch.
  unfold bind at 1. unfold lift at 1, read at 1. cbn [fst snd].
  change (deref s2 ref) with (deref s1 ref). rewrite Hb.
  unfold bind at 1. unfold lift at 1. cbn [fst snd].
  pose proof (findCacheEntry_same_heap w (primaryKey :: default [] restoreKeys) (Some b) s2)
    as Hheap3.
  pose proof (findCacheEntry_log_grows w P (primaryKey :: default [] restoreKeys) (Some b)
                (fun _ _ => eq_refl) s2) as Hgrow3.
  destruct (findCacheEntry w (primaryKey :: default [] restoreKeys) (Some b) s2)
    as [[[entry|]|e] s3]; cbn [fst snd] in Hheap3, Hgrow3.
  - (* an entry was found *)
    assert (Hd3 : deref s3 ref = deref s1 ref) by (unfold deref; rewrite Hheap3; reflexivity).
    destruct (falsy (contentType entry));
      [|destruct (negb (startsWith _ _));
        [|destruct (negb (String.eqb _ "zstd") && negb (String.eqb _ "gzip"))]].
    4: { unfold bind at 1. unfold lift at 1, read at 1. cbn [fst snd].
         rewrite Hd3, Hlo, Hlookup. cbn [default from_option id negb].
         unfold bind, ret, get_local. cbn [fst snd falsy negb].
         eapply log_grows_trans; [exact Hgrow2 | exact Hgrow3]. }
    all: unfold bind at 1; unfold lift at 1, core_warning, emit; cbn [fst snd];
      unfold ret at 1; unfold bind at 1, get_local; cbn [fst snd falsy negb]; unfold ret;
      cbn [fst snd heap log unhandled];
      eapply log_grows_trans; [exact Hgrow2|];
      eapply log_grows_trans; [exact Hgrow3|];
      eexists [_]; (split; [reflexivity | repeat constructor]).
  - (* no entry *)
    unfold ret at 1. unfold bind at 1, get_local. cbn [fst snd falsy negb]. unfold ret.
    cbn [fst snd]. eapply log_grows_trans; [exact Hgrow2 | exact Hgrow3].
  - (* resolution failed *)
    destruct (decide (error_name e = Some ValidationError_name)) as [Hv|Hv].
    + unfold throw at 1. unfold bind at 1, get_local. cbn [fst snd falsy negb]. unfold ret.
      cbn [fst snd]. eapply log_grows_trans; [exact Hgrow2 | exact Hgrow3].
    + unfold bind at 1. unfold lift at 1, core_warning, emit. cbn [fst snd].
      unfold ret at 1. unfold bind at 1, get_local. cbn [fst snd falsy negb]. unfold ret.
      cbn [fst snd heap log unhandled].
      eapply log_grows_trans; [exact Hgrow2|].
      eapply log_grows_trans; [exact Hgrow3|].
      eexists [_]. split; [reflexivity | repeat constructor].
Qed.

Lemma restoreCache_lookup_only_fetches_nothing_witness :
  exists evs,
    log (snd (restoreCache Demo.exact_first_bucket ["dist"] "key" None (Some 0)
                (Demo.start_with (mkOptions (Some "my-bucket") (Some true)))))
      = [] ++ evs /\
    Forall (fun ev => is_log_or_listing ev = true) evs.
Proof.
  apply (restoreCache_lookup_only_fetches_nothing Demo.exact_first_bucket ["dist"] "key" None
           (Some 0) (Demo.start_with (mkOptions (Some "my-bucket") (Some true)))).
  reflexivity.
Defined.

Example restoreCache_without_repository :
  restoreCache Demo.no_repository ["dist"] "key" None None Demo.start =
  (Throw Demo.repository_unset,
   mkState {[ 0 := mkOptions (Some "my-bucket") (Some false) ]}
     [ EvDebug "Resolved Keys: [key]" ] []).
Proof. vm_compute. reflexivity. Qed.

(** X22. What [restoreCache] can throw: the ConfigUnsetError of option resolution,
    exactly when no bucket is configured; an error named ValidationError; or,
    once the keys have passed validation, the error of the [context.repo]
    getter, which is read ahead of the [try]. Every failure of an awaited
    step inside the [try] is caught unless it is named ValidationError. *)
Theorem restoreCache_throws_three_kinds_only :
  forall w paths primaryKey restoreKeys options st e,
    fst (restoreCache w paths primaryKey restoreKeys options st) = Throw e ->
    (bucket_configured w st options = false /\ error_name e = Some "ConfigUnsetError") \/
    (bucket_configured w st options = true /\ error_name e = Some "ValidationError") \/
    (bucket_configured w st options = true /\
     length (primaryKey :: default [] restoreKeys) <= 10 /\
     Forall (fun k => String.length k <= 512) (primaryKey :: default [] restoreKeys) /\
     context_repo w = Throw e).
Proof.
  intros w paths primaryKey restoreKeys options st e. unfold restoreCache.
  pose proof (getDownloadOptions_outcome w options st) as Hopt.
  destruct (bucket_configured w st options).
  - destruct Hopt as [ref Href]. rewrite (bind_returns _ _ _ _ Href). cbv beta zeta.
    rewrite (bind_returns (core_debug _) _ _ tt eq_refl). cbv beta.
    destruct (10 <? length (primaryKey :: default [] restoreKeys)) eqn:Hcount;
      [intros [= <-]; right; left; split; reflexivity|].
    apply Nat.ltb_ge in Hcount.
    unfold bind at 1.
    match goal with
    | |- context [checkKeys ?ks ?s] =>
        pose proof (checkKeys_throws_validation ks s) as Hk;
        pose proof (checkKeys_returns ks s) as Hsizes;
        destruct (checkKeys ks s) as [[[]|e'] s2]
    end.
    + unfold bind at 1, context_repo_repo.
      destruct (context_repo w) as [repository|failure].
      * rewrite with_local_fst, try_finally_fst.
        -- intros Hthrow. apply try_catch_throws in Hthrow as (e0 & s0 & Hh).
           destruct (decide (error_name e0 = Some ValidationError_name)) as [Hv|Hv].
           ++ injection Hh as <-. right. left. split; [reflexivity | exact Hv].
           ++ discriminate Hh.
        -- intros s'. apply try_catch_handler_returns. reflexivity.
      * simpl. intros [= <-]. right. right.
        split; [reflexivity|]. split; [exact Hcount|]. split; [|reflexivity].
        apply Hsizes. reflexivity.
    + simpl. intros [= <-]. right. left. split; [reflexivity|]. apply Hk. reflexivity.
  - rewrite (bind_throws _ _ _ _ Hopt). simpl. intros [= <-]. left. split; reflexivity.
Qed.

Lemma restoreCache_throws_three_kinds_only_witness :
  (bucket_configured Demo.no_repository Demo.start None = false /\
   error_name Demo.repository_unset = Some "ConfigUnsetError") \/
  (bucket_configured Demo.no_repository Demo.start None = true /\
   error_name Demo.repository_unset = Some "ValidationError") \/
  (bucket_configured Demo.no_repository Demo.start None = true /\
   length ("key" :: default [] None) <= 10 /\
   Forall (fun k => String.length k <= 512) ("key" :: default [] None) /\
   context_repo Demo.no_repository = Throw Demo.repository_unset).
Proof.
  apply (restoreCache_throws_three_kinds_only Demo.no_repository ["dist"] "key" None None
           Demo.start).
  reflexivity.
Defined.

(** *** What a save builds and sends *)

Lemma getCompressionMethod_result w s :
  fst (getCompressionMethod w s) =
  Return (if String.eqb (exec_output (exec w "zstd" ["--quiet"; "--version"])) ""
          then gzip else zstd).
Proof.
  unfold getCompressionMethod, getZstdVersion, bind, try_catch, run_exec, core_debug,
    emit, await, ret. simpl.
  destruct (exec_result _); simpl; destruct (String.eqb _ _); reflexivity.
Qed.

Lemma createTar_run w archive tempdir paths method s :
  (forall f c, writeFile w f c = Return tt) ->
  (forall a, exists code, exec_result (exec w "tar" a) = Return code) ->
  createTar w archive tempdir paths method s =
  (Return tt,
   mkState (heap s)
     (log s ++ [ EvWriteFile (path_join w [tempdir; "manifest.txt"]) (join newline paths);
                 EvExec "tar" (createTar_args archive (path_join w [tempdir; "manifest.txt"])
                                 method) ])
     (unhandled s)).
Proof.
  intros Hwr Hex. unfold createTar, fs_writeFile, run_exec, bind, emit, await, ret.
  cbn [fst snd heap log unhandled]. rewrite Hwr. cbn [fst snd heap log unhandled].
  destruct (Hex (createTar_args archive (path_join w [tempdir; "manifest.txt"]) method))
    as [code ->].
  rewrite <- app_assoc. reflexivity.
Qed.

(** The run of a save whose steps all succeed: it ends on the string "not
    implemented", and the last five events of its log are the making of the
    temporary directory, the debug line, the manifest, [tar] and the upload. *)
Lemma saveCache_success_run :
  forall w paths key options st,
    bucket_configured w st options = true ->
    fst (glob w (join newline paths)) <> [] ->
    snd (glob w (join newline paths)) = None ->
    (forall d, mkdirP w d = Return tt) ->
    (forall f c, writeFile w f c = Return tt) ->
    (forall a, exists code, exec_result (exec w "tar" a) = Return code) ->
    (forall n, exists h, storage_bucket w (Some n) = Return h) ->
    repository_known w = true ->
    let method :=
      if String.eqb (exec_output (exec w "zstd" ["--quiet"; "--version"])) ""
      then gzip else zstd in
    exists tempdir bucketHandle final,
      let archive := path_join w [tempdir; "cache.tar." +:+ method_string method] in
      let manifest := path_join w [tempdir; "manifest.txt"] in
      saveCache w paths key options st = (Throw (ThrownString "not implemented"), final) /\
      exists before,
        log final =
        before ++ [ EvMkdirP tempdir;
                    EvDebug ("Archive Path: " +:+ archive);
                    EvWriteFile manifest (join newline paths);
                    EvExec "tar" (createTar_args archive manifest method);
                    EvUpload bucketHandle archive (repo w +:+ "/" +:+ key)
                             (ContentTypePrefix +:+ method_string method) ].
Proof.
  intros w paths key options st Hconf Hne Hglob Hmk Hwr Hex Hbk Hrepo method.
  unfold saveCache, getUploadOptions.
  pose proof (getCommonOptions_outcome w options st) as Hopt. rewrite Hconf in Hopt.
  destruct Hopt as [ref Href]. rewrite (bind_returns _ _ _ _ Href). cbv beta.
  destruct (getCommonOptions_bucket_set w options st ref Href) as [b Hb].
  set (s1 := snd (getCommonOptions w options st)) in *.
  pose proof (getCompressionMethod_same_heap w s1) as Hh1.
  rewrite (bind_returns _ _ _ _ (getCompressionMethod_result w s1)). cbv beta.
  fold method.
  set (s2 := snd (getCompressionMethod w s1)) in *.
  destruct (resolvePaths_returns w paths s2 Hglob) as (cachePaths & Hres & Hlen).
  pose proof (resolvePaths_same_heap w paths s2) as Hh2.
  rewrite (bind_returns _ _ _ _ Hres). cbv beta.
  set (s3 := snd (resolvePaths w paths s2)) in *.
  rewrite (bind_returns (core_debug _) _ _ tt eq_refl). cbv beta.
  assert (Hnz : (length cachePaths =? 0) = false).
  { apply Nat.eqb_neq. rewrite Hlen. destruct (fst (glob w _)); [congruence | simpl; lia]. }
  rewrite Hnz.
  unfold bind at 1.
  match goal with
  | |- context [createTempDirectory w ?s] =>
      destruct (createTempDirectory_run w s Hmk) as [tempdir ->]
  end.
  cbv beta iota zeta. rewrite (bind_context_repo_repo w _ _ Hrepo).
  rewrite (bind_returns (core_debug _) _ _ tt eq_refl). cbv beta.
  unfold bind at 1, try_catch at 1.
  unfold bind at 1. rewrite (createTar_run w _ _ _ _ _ Hwr Hex).
  unfold bind at 1, read at 1. unfold deref, core_debug, emit.
  cbn [fst snd heap log unhandled].
  unfold same_heap in Hh1, Hh2. fold s3. rewrite Hh2, Hh1.
  unfold deref in Hb. rewrite Hb.
  destruct (Hbk b) as [h Hh]. unfold bind at 1, await at 1. rewrite Hh.
  unfold bind at 1. cbn [fst snd heap log unhandled].
  exists tempdir, h.
  destruct (bucket_upload w h _ _ _) as [[]|failure];
    unfold floating, throw; cbn [fst snd heap log unhandled];
    eexists; cbv zeta; (split; [reflexivity|]); cbn [log];
    eexists (log s3 ++ [_]); rewrite <- !app_assoc; reflexivity.
Qed.

(** X23. A save whose steps all succeed, the read of the repository name
    included, compresses with zstd exactly when the
    probe [zstd --quiet --version] printed something (with gzip otherwise,
    also when the probe could not be run), writes the patterns it was given
    into the manifest, runs [tar] on the archive [cache.tar.<method>] in the
    temporary directory, and uploads that archive to [<repo>/<key>] with the
    content type [application/x-actions-cache-gcs-<method>]. *)
Theorem saveCache_builds_and_uploads :
  forall w paths key options st,
    bucket_configured w st options = true ->
    fst (glob w (join newline paths)) <> [] ->
    snd (glob w (join newline paths)) = None ->
    (forall d, mkdirP w d = Return tt) ->
    (forall f c, writeFile w f c = Return tt) ->
    (forall a, exists code, exec_result (exec w "tar" a) = Return code) ->
    (forall n, exists h, storage_bucket w (Some n) = Return h) ->
    repository_known w = true ->
    let method :=
      if String.eqb (exec_output (exec w "zstd" ["--quiet"; "--version"])) ""
      then gzip else zstd in
    exists tempdir bucketHandle final,
      let archive := path_join w [tempdir; "cache.tar." +:+ method_string method] in
      let manifest := path_join w [tempdir; "manifest.txt"] in
      saveCache w paths key options st = (Throw (ThrownString "not implemented"), final) /\
      In (EvMkdirP tempdir) (log final) /\
      In (EvWriteFile manifest (join newline paths)) (log final) /\
      In (EvExec "tar" (createTar_args archive manifest method)) (log final) /\
      In (EvUpload bucketHandle archive (repo w +:+ "/" +:+ key)
                   (ContentTypePrefix +:+ method_string method)) (log final).
Proof.
  intros w paths key options st Hconf Hne Hglob Hmk Hwr Hex Hbk Hrepo method.
  destruct (saveCache_success_run w paths key options st Hconf Hne Hglob Hmk Hwr Hex Hbk Hrepo)
    as (tempdir & h & final & Hrun & before & Hlog).
  cbv zeta in Hrun, Hlog. fold method in Hlog.
  exists tempdir, h, final. cbv zeta. split; [exact Hrun|]. rewrite Hlog.
  repeat split; apply in_or_app; right.
  - left. reflexivity.
  - do 2 right. left. reflexivity.
  - do 3 right. left. reflexivity.
  - do 4 right. left. reflexivity.
Qed.

Lemma saveCache_builds_and_uploads_witness :
  exists tempdir bucketHandle final,
    let archive := path_join Demo.linux [tempdir; "cache.tar." +:+ method_string gzip] in
    let manifest := path_join Demo.linux [tempdir; "manifest.txt"] in
    saveCache Demo.linux ["dist/**"] "linux-build" None Demo.start
      = (Throw (ThrownString "not implemented"), final) /\
    In (EvMkdirP tempdir) (log final) /\
    In (EvWriteFile manifest (join newline ["dist/**"])) (log final) /\
    In (EvExec "tar" (createTar_args archive manifest gzip)) (log final) /\
    In (EvUpload bucketHandle archive (repo Demo.linux +:+ "/" +:+ "linux-build")
                 (ContentTypePrefix +:+ method_string gzip)) (log final).
Proof.
  apply (saveCache_builds_and_uploads Demo.linux ["dist/**"] "linux-build" None Demo.start).
  - reflexivity.
  - discriminate.
  - reflexivity.
  - reflexivity.
  - reflexivity.
  - intros a. exists 0%Z. reflexivity.
  - intros n. exists n. reflexivity.
  - reflexivity.
Defined.

Example saveCache_manifest_holds_the_patterns :
  In (EvWriteFile "/tmp/0000/manifest.txt" "dist/**")
     (log (snd (saveCache Demo.linux ["dist/**"] "linux-build" None Demo.start))).
Proof. vm_compute. do 7 right. left. reflexivity. Qed.

(** *** A key that is never checked *)

Lemma bind_fst_ext {S A B} (m : St S A) (k1 k2 : A -> St S B) s :
  (forall a s', fst (k1 a s') = fst (k2 a s')) ->
  fst (bind m k1 s) = fst (bind m k2 s).
Proof. intros Hk. unfold bind. destruct (m s) as [[a|e] s']; [apply Hk | reflexivity]. Qed.

(** How [saveCache] ends does not depend on the key it is given. *)
Lemma saveCache_outcome_ignores_key w paths key key' options st :
  fst (saveCache w paths key options st) = fst (saveCache w paths key' options st).
Proof.
  unfold saveCache.
  apply bind_fst_ext. intros ref s1.
  apply bind_fst_ext. intros method s2.
  apply bind_fst_ext. intros cachePaths s3.
  apply bind_fst_ext. intros _ s4.
  destruct (length cachePaths =? 0); [reflexivity|].
  apply bind_fst_ext. intros tempdir s5. cbv zeta.
  apply bind_fst_ext. intros repository s6.
  apply bind_fst_ext. intros _ s7.
  rewrite !(bind_returns _ _ _ tt (try_catch_swallow _ _)). reflexivity.
Qed.

(** C2. A key longer than 512 characters is refused by [restoreCache] and not
    by [saveCache]. With a bucket configured, [restoreCache] rejects it with
    a ValidationError before any call to the remote store, wherever the key
    stands in the candidate list. [saveCache] has no check of its key: it
    ends as it does for any other key, and when its steps succeed it has
    uploaded the archive to [<repo>/<key>], a call to the remote store, and
    throws the string "not implemented" and no ValidationError. *)
Theorem oversized_key_is_checked_by_restoreCache_only :
  forall w paths k options st,
    512 < String.length k ->
    bucket_configured w st options = true ->
    (forall primaryKey restoreKeys,
       In k (primaryKey :: default [] restoreKeys) ->
       (exists msg,
          fst (restoreCache w paths primaryKey restoreKeys options st)
          = Throw (ValidationError msg)) /\
       (exists evs,
          log (snd (restoreCache w paths primaryKey restoreKeys options st)) = log st ++ evs /\
          Forall (fun e => is_network e = false) evs)) /\
    (forall key, fst (saveCache w paths k options st) = fst (saveCache w paths key options st)) /\
    (fst (glob w (join newline paths)) <> [] ->
     snd (glob w (join newline paths)) = None ->
     (forall d, mkdirP w d = Return tt) ->
     (forall f c, writeFile w f c = Return tt) ->
     (forall a, exists code, exec_result (exec w "tar" a) = Return code) ->
     (forall n, exists h, storage_bucket w (Some n) = Return h) ->
     repository_known w = true ->
     exists bucketHandle archive contentType_ final,
       saveCache w paths k options st = (Throw (ThrownString "not implemented"), final) /\
       In (EvUpload bucketHandle archive (repo w +:+ "/" +:+ k) contentType_) (log final) /\
       is_network (EvUpload bucketHandle archive (repo w +:+ "/" +:+ k) contentType_) = true).
Proof.
  intros w paths k options st Hlen Hconf. split; [|split].
  - intros primaryKey restoreKeys Hin.
    pose proof (restoreCache_rejects_oversized_key w paths primaryKey restoreKeys options st k
                  Hin Hlen) as Hrestore.
    rewrite Hconf in Hrestore. exact Hrestore.
  - intros key. apply saveCache_outcome_ignores_key.
  - intros Hne Hglob Hmk Hwr Hex Hbk Hrepo.
    destruct (saveCache_success_run w paths k options st Hconf Hne Hglob Hmk Hwr Hex Hbk Hrepo)
      as (tempdir & h & final & Hrun & before & Hlog).
    cbv zeta in Hrun, Hlog.
    eexists h, _, _, final. split; [exact Hrun|]. split; [|reflexivity].
    rewrite Hlog. apply in_or_app. right. do 4 right. left. reflexivity.
Qed.

Lemma oversized_key_is_checked_by_restoreCache_only_witness :
  exists bucketHandle archive contentType_ final,
    saveCache Demo.linux ["dist"] Demo.long_key None Demo.start
      = (Throw (ThrownString "not implemented"), final) /\
    In (EvUpload bucketHandle archive (repo Demo.linux +:+ "/" +:+ Demo.long_key) contentType_)
       (log final) /\
    is_network (EvUpload bucketHandle archive (repo Demo.linux +:+ "/" +:+ Demo.long_key)
                         contentType_) = true.
Proof.
  refine (proj2 (proj2 (oversized_key_is_checked_by_restoreCache_only Demo.linux ["dist"]
                          Demo.long_key None Demo.start _ _)) _ _ _ _ _ _ _).
  - vm_compute. lia.
  - reflexivity.
  - discriminate.
  - reflexivity.
  - reflexivity.
  - reflexivity.
  - intros a. exists 0%Z. reflexivity.
  - intros n. exists n. reflexivity.
  - reflexivity.
Defined.

(** *** Failures of a save *)

(** X24. When the temporary directory cannot be made, [saveCache] throws that
    very error: it happens before the [try] that swallows the later ones. *)
Theorem saveCache_surfaces_temp_directory_failure :
  forall w paths key options st e,
    bucket_configured w st options = true ->
    fst (glob w (join newline paths)) <> [] ->
    snd (glob w (join newline paths)) = None ->
    (forall d, mkdirP w d = Throw e) ->
    fst (saveCache w paths key options st) = Throw e.
Proof.
  intros w paths key options st e Hconf Hne Hglob Hmk.
  unfold saveCache, getUploadOptions.
  pose proof (getCommonOptions_outcome w options st) as Hopt. rewrite Hconf in Hopt.
  destruct Hopt as [ref Href]. rewrite (bind_returns _ _ _ _ Href). cbv beta.
  set (s1 := snd (getCommonOptions w options st)).
  rewrite (bind_returns _ _ _ _ (getCompressionMethod_result w s1)). cbv beta.
  set (s2 := snd (getCompressionMethod w s1)).
  destruct (resolvePaths_returns w paths s2 Hglob) as (cachePaths & Hres & Hlen).
  rewrite (bind_returns _ _ _ _ Hres). cbv beta.
  rewrite (bind_returns (core_debug _) _ _ tt eq_refl). cbv beta.
  assert (Hnz : (length cachePaths =? 0) = false).
  { apply Nat.eqb_neq. rewrite Hlen. destruct (fst (glob w _)); [congruence | simpl; lia]. }
  rewrite Hnz. unfold bind at 1.
  unfold createTempDirectory, io_mkdirP, bind, emit, await. cbn [fst snd]. rewrite Hmk.
  reflexivity.
Qed.

Lemma saveCache_surfaces_temp_directory_failure_witness :
  fst (saveCache Demo.read_only_disk ["dist"] "key" None Demo.start)
  = Throw (Error "EROFS: read-only file system").
Proof.
  apply (saveCache_surfaces_temp_directory_failure Demo.read_only_disk ["dist"] "key" None
           Demo.start).
  - reflexivity.
  - discriminate.
  - reflexivity.
  - reflexivity.
Defined.

(** X25. When the archive cannot be built, because the manifest cannot be written
    or [tar] fails, the upload is skipped: all [saveCache] adds to the log is
    something other than a call to the remote store. *)
Theorem saveCache_failed_build_uploads_nothing :
  forall w paths key options st,
    (forall f c, exists e, writeFile w f c = Throw e) \/
    (forall a, exists e, exec_result (exec w "tar" a) = Throw e) ->
    exists evs,
      log (snd (saveCache w paths key options st)) = log st ++ evs /\
      Forall (fun ev => is_network ev = false) evs.
Proof.
  intros w paths key options st Hfail.
  change (log_grows not_network st (snd (saveCache w paths key options st))).
  assert (Hbuild : forall archive tempdir method s,
            exists e, fst (createTar w archive tempdir paths method s) = Throw e).
  { intros archive tempdir method s.
    unfold createTar, fs_writeFile, run_exec, bind, emit, await, ret. cbn [fst snd].
    destruct Hfail as [Hwr | Hex].
    - destruct (Hwr (path_join w [tempdir; "manifest.txt"]) (join newline paths)) as [e ->].
      eauto.
    - destruct (writeFile w _ _); cbn [fst snd]; [|eauto].
      destruct (Hex (createTar_args archive (path_join w [tempdir; "manifest.txt"]) method))
        as [e ->]. eauto. }
  unfold saveCache, getUploadOptions.
  apply respects_bind; [exact (log_grows_trans not_network) | frame |]. intros ref.
  apply respects_bind; [exact (log_grows_trans not_network) | frame |]. intros method.
  apply respects_bind; [exact (log_grows_trans not_network) | frame |]. intros cachePaths.
  apply respects_bind; [exact (log_grows_trans not_network) | frame |]. intros _.
  destruct (length cachePaths =? 0); [frame|].
  apply respects_bind; [exact (log_grows_trans not_network) | frame |]. intros tempdir.
  cbv zeta.
  apply respects_bind; [exact (log_grows_trans not_network) | frame |]. intros repository.
  apply respects_bind; [exact (log_grows_trans not_network) | frame |]. intros _.
  apply respects_bind; [exact (log_grows_trans not_network) | | intros; frame].
  intros s. unfold try_catch, bind at 1.
  destruct (Hbuild (path_join w [tempdir; "cache.tar." +:+ method_string method])
              tempdir method s) as [e He].
  pose proof (createTar_log_grows w not_network
                (path_join w [tempdir; "cache.tar." +:+ method_string method])
                tempdir paths method (fun _ _ => eq_refl) (fun _ _ => eq_refl) s) as Hlog.
  destruct (createTar w _ tempdir paths method s) as [r s']. cbn [fst snd] in He, Hlog.
  subst r. exact Hlog.
Qed.

Lemma saveCache_failed_build_uploads_nothing_witness :
  exists evs,
    log (snd (saveCache Demo.tar_fails ["dist"] "key" None Demo.start)) = [] ++ evs /\
    Forall (fun ev => is_network ev = false) evs.
Proof.
  apply (saveCache_failed_build_uploads_nothing Demo.tar_fails ["dist"] "key" None Demo.start).
  right. intros a. eexists. reflexivity.
Defined.

End CacheFacts.

(* ===================================================================== *)
(** ** The archive command of [saveCache] against the command builder *)
(* ===================================================================== *)

Module ArchiveFacts.

Lemma last_char_nonempty x : x <> "" -> last_char x <> None.
Proof.
  induction x as [|a x IH]; [intros H; elim H; reflexivity|]. intros _. simpl.
  destruct x; [discriminate | apply IH; discriminate].
Qed.

Lemma last_char_cons a s : s <> "" -> last_char (String a s) = last_char s.
Proof. destruct s; [intros H; elim H; reflexivity | reflexivity]. Qed.

Lemma last_char_app a b : b <> "" -> last_char (a +:+ b) = last_char b.
Proof.
  intros Hb. induction a as [|c a IH]; [reflexivity|].
  assert (Hne : a +:+ b <> "") by (destruct a; simpl; [exact Hb | discriminate]).
  change (String c a +:+ b) with (String c (a +:+ b)).
  rewrite (last_char_cons c _ Hne). exact IH.
Qed.

(** A joined command line ends as its last argument does. *)
Lemma last_char_join xs x :
  x <> "" -> last_char (join " " (xs ++ [x])) = last_char x.
Proof.
  intros Hx. unfold join. induction xs as [|y xs IH]; [reflexivity|].
  simpl app. destruct (xs ++ [x]) as [|z zs] eqn:E.
  - destruct xs; discriminate.
  - change (String.concat " " (y :: z :: zs))
      with (y +:+ " " +:+ String.concat " " (z :: zs)).
    rewrite last_char_app by discriminate.
    change (" " +:+ String.concat " " (z :: zs))
      with (String " " (String.concat " " (z :: zs))).
    rewrite last_char_cons; [exact IH|].
    intros Hempty. rewrite Hempty in IH. simpl in IH.
    apply (last_char_nonempty x Hx). symmetry. exact IH.
Qed.

Lemma createTar_command_last_char archive manifest method :
  last_char (join " " ("tar" :: Cache.createTar_args archive manifest method)) =
  match method with
  | gzip => Some "p"%char
  | zstd => Some "d"%char
  end.
Proof.
  destruct method.
  - apply (last_char_join ["tar"; "cf"; archive; "--files-from"; manifest] "--gzip").
    discriminate.
  - apply (last_char_join ["tar"; "cf"; archive; "--files-from"; manifest] "--zstd").
    discriminate.
Qed.

Lemma compression_program_last_char w tar method :
  Tar.bsdTarZstd w tar method = false ->
  last_char (join " " (Tar.getCompressionProgram w tar method)) =
  match method with
  | gzip => Some "z"%char
  | zstd => if String.eqb (platform w) "win32" then Some (ascii_of_nat 34) else Some "t"%char
  end.
Proof.
  intros Hb. unfold Tar.getCompressionProgram. rewrite Hb.
  destruct method; [reflexivity|].
  destruct (String.eqb (platform w) "win32"); reflexivity.
Qed.

Lemma builder_single_command_last_char w tar method :
  Tar.bsdTarZstd w tar method = false ->
  last_char (join " " [join " " (Tar.getTarArgs w tar method Tar.create "");
                       join " " (Tar.getCompressionProgram w tar method)]) =
  match method with
  | gzip => Some "z"%char
  | zstd => if String.eqb (platform w) "win32" then Some (ascii_of_nat 34) else Some "t"%char
  end.
Proof.
  intros Hb. rewrite <- (compression_program_last_char w tar method Hb).
  apply (last_char_join [join " " (Tar.getTarArgs w tar method Tar.create "")]).
  intros Hempty. pose proof (compression_program_last_char w tar method Hb) as Hl.
  rewrite Hempty in Hl. destruct method; [discriminate|].
  destruct (String.eqb (platform w) "win32"); discriminate.
Qed.

Example builder_create_on_linux :
  fst (Tar.getCommands Demo.linux gzip Tar.create "" Demo.start) =
  Return [ "/usr/bin/tar --posix -cf cache.tar.gzip --exclude cache.tar.gzip -P -C /work --files-from manifest.txt -z" ].
Proof. vm_compute. reflexivity. Qed.

Example saveCache_create_on_linux :
  commands_run
    (log (snd (Cache.createTar Demo.linux "/tmp/0000/cache.tar.gzip" "/tmp/0000" ["dist"] gzip
                 Demo.start))) =
  [ "tar cf /tmp/0000/cache.tar.gzip --files-from /tmp/0000/manifest.txt --gzip" ].
Proof. vm_compute. reflexivity. Qed.

(** C5, as stated: the archive command [saveCache] runs is the create
    sequence of the command builder. On a Linux host with gzip the builder
    gives [tar --posix -cf cache.tar.gzip --exclude cache.tar.gzip -P -C /work
    --files-from manifest.txt -z]; [saveCache] runs
    [tar cf <archive> --files-from <manifest> --gzip]. *)
Lemma saveCache_does_not_run_the_builder_command :
  ~ (forall w archive tempdir paths method st cmds,
       fst (Tar.getCommands w method Tar.create "" st) = Return cmds ->
       commands_run (log (snd (Cache.createTar w archive tempdir paths method st))) =
       commands_run (log st) ++ cmds).
Proof.
  intros H.
  specialize (H Demo.linux "/tmp/0000/cache.tar.gzip" "/tmp/0000" ["dist"] gzip Demo.start
                _ builder_create_on_linux).
  rewrite saveCache_create_on_linux in H. vm_compute in H. discriminate H.
Qed.

(** C5, amended: the archive command [saveCache] runs, through the
    [createTar] of cache.ts, is [tar] with the arguments
    [cf <archive> --files-from <manifest>] and then [--gzip] or [--zstd]. It
    reads the paths from the manifest; it has no exclude argument and no
    change-directory argument, and on no host, tool or method is it a create
    sequence of the command builder. *)
Theorem saveCache_archive_command :
  forall w archive tempdir paths method st,
    writeFile w (path_join w [tempdir; "manifest.txt"]) (join Cache.newline paths)
      = Return tt ->
    let manifest := path_join w [tempdir; "manifest.txt"] in
    let flag := match method with gzip => "--gzip" | zstd => "--zstd" end in
    log (snd (Cache.createTar w archive tempdir paths method st)) =
      log st ++ [ EvWriteFile manifest (join Cache.newline paths);
                  EvExec "tar" ["cf"; archive; "--files-from"; manifest; flag] ] /\
    (forall st' cmds,
       fst (Tar.getCommands w method Tar.create "" st') = Return cmds ->
       cmds <> [join " " ["tar"; "cf"; archive; "--files-from"; manifest; flag]]).
Proof.
  intros w archive tempdir paths method st Hwrite manifest flag. subst manifest flag. split.
  - unfold Cache.createTar, fs_writeFile, run_exec, bind, emit, await, ret.
    cbn [fst snd log heap unhandled]. rewrite Hwrite. cbn [fst snd log heap unhandled].
    rewrite <- app_assoc. destruct (exec_result _); destruct method; reflexivity.
  - intros st' cmds. unfold Tar.getCommands, bind.
    destruct (Tar.getTarPath w st') as [[tar|e] s1]; simpl; [|discriminate].
    destruct (Tar.bsdTarZstd w tar method) eqn:Hb; simpl.
    + intros [= <-]. discriminate.
    + intros [= <-] Heq.
      assert (Hlast :
        last_char (join " " [join " " (Tar.getTarArgs w tar method Tar.create "");
                             join " " (Tar.getCompressionProgram w tar method)]) =
        last_char (join " " ("tar" :: Cache.createTar_args archive
                                        (path_join w [tempdir; "manifest.txt"]) method))).
      { destruct method; exact (f_equal (fun l => last_char (hd "" l)) Heq). }
      rewrite (builder_single_command_last_char w tar method Hb),
              createTar_command_last_char in Hlast.
      destruct method; [discriminate|].
      destruct (String.eqb (platform w) "win32"); discriminate.
Qed.

Lemma saveCache_archive_command_witness :
  log (snd (Cache.createTar Demo.linux "/tmp/0000/cache.tar.gzip" "/tmp/0000" ["dist"] gzip
              Demo.start)) =
  [ EvWriteFile "/tmp/0000/manifest.txt" "dist";
    EvExec "tar" ["cf"; "/tmp/0000/cache.tar.gzip"; "--files-from";
                  "/tmp/0000/manifest.txt"; "--gzip"] ].
Proof.
  refine (proj1 (saveCache_archive_command Demo.linux "/tmp/0000/cache.tar.gzip" "/tmp/0000"
                   ["dist"] gzip Demo.start _)).
  reflexivity.
Defined.

End ArchiveFacts.
